(** * tasks/ubuntu.py: padding, batch generation and the task adapter

    A shallow embedding of [tasks/ubuntu.py] (KeraSTS interface for the
    Ubuntu Dialogue Corpus) together with the part of Python, numpy and
    Keras that the file relies on.

    - Python values are the inductive [pyval]; dictionaries are mutable
      objects, so they live in a heap ([gmap loc dict]) and are named by
      references.
    - A numpy array is a record of dtype, shape and row-major data.  The
      elements are rationals: an integer of the dtype, or a finite float.
      A conversion between integer dtypes wraps around, a conversion of a
      float to an integer dtype rounds towards zero, and a conversion of
      an integer to float64 rounds to the nearest binary64 value.  The C
      types are those of x86-64 Linux: [long] has 64 bits.
    - Exceptions are the [Raise] branch of [result].
    - The file runs on Python 2 and, by its own import fallback, on
      Python 3: the interpreter is the parameter [python] wherever the
      two differ, which is in [sample_pairs] and in the [%c] of
      [res_columns]. *)

From Stdlib Require Import ZArith QArith_base Lia.
From stdpp Require Import base option list gmap strings sorting.

Close Scope Q_scope.
Set Warnings "-register-all".
Local Open Scope nat_scope.

(** ** Exceptions and the error monad *)

Inductive exn : Set :=
| TypeError | ValueError | IndexError | KeyError
| ZeroDivisionError | IOError | AttributeError | OverflowError
| Unmodelled.
(** [Unmodelled] is no exception of Python: it stands where the code goes
    on with a value that the model has no representation for (an array of
    dtype object, uint64 or string, the number that a string spells). *)

(** The interpreter that runs the file. *)
Inductive python : Set := Python2 | Python3.

Inductive result (A : Type) : Type :=
| Ok (a : A)
| Raise (e : exn).
Arguments Ok {A} a.
Arguments Raise {A} e.

Definition rbind {A B} (m : result A) (k : A → result B) : result B :=
  match m with
  | Ok a => k a
  | Raise e => Raise e
  end.

Notation "'let*' x := m 'in' k" := (rbind m (λ x, k))
  (at level 10, x pattern, m at level 100, k at level 200).

Definition is_Ok {A} (m : result A) : Prop := ∃ a, m = Ok a.
Definition raises {A} (m : result A) : Prop := ∃ e, m = Raise e.

(** ** numpy arrays *)

Inductive dtype : Set := int32 | int64 | float64.

(** Result type of mixing two element types ([np.promote_types]). *)
Definition promote (a b : dtype) : dtype :=
  match a, b with
  | float64, _ | _, float64 => float64
  | int64, _ | _, int64 => int64
  | int32, int32 => int32
  end.

Record ndarray : Type := NdArray {
  nd_dtype : dtype;
  nd_shape : list nat;
  nd_data : list Q;       (* row-major *)
}.

Definition size_of (shape : list nat) : nat := foldr Nat.mul 1 shape.

(** Two's complement wrap-around of a [bits]-bit signed integer. *)
Definition wrap (bits : Z) (z : Z) : Z :=
  ((z + 2 ^ (bits - 1)) mod 2 ^ bits - 2 ^ (bits - 1))%Z.

(** Conversion of a float to an integer rounds towards zero. *)
Definition Qtrunc (q : Q) : Z := (Qnum q ÷ Zpos (Qden q))%Z.

(** Conversion of an integer to dtype [d] by the C cast between integer
    types (two's complement wrap-around); nothing happens to an element
    that already has dtype [d]. *)
Definition cast (d : dtype) (q : Q) : Q :=
  match d with
  | int32 => inject_Z (wrap 32 (Qtrunc q))
  | int64 => inject_Z (wrap 64 (Qtrunc q))
  | float64 => q
  end.

(** The C cast of a double to a signed integer of [bits] bits: the value
    rounded towards zero; out of range the x86-64 conversion instruction
    gives the smallest integer. *)
Definition float_to_int (bits : Z) (q : Q) : Z :=
  let z := Qtrunc q in
  if ((- 2 ^ (bits - 1) <=? z) && (z <? 2 ^ (bits - 1)))%Z then z
  else (- 2 ^ (bits - 1))%Z.

(** [a / 2^e] rounded to the nearest integer, a tie to the even one. *)
Definition round_half_even (a e : Z) : Z :=
  let q := (a / 2 ^ e)%Z in
  let r := (a mod 2 ^ e)%Z in
  let half := (2 ^ (e - 1))%Z in
  if (r <? half)%Z then q
  else if (half <? r)%Z then (q + 1)%Z
  else if Z.even q then q else (q + 1)%Z.

(** The binary64 value nearest to the integer [z] (53 bits of precision,
    round to nearest even); it is an integer again. *)
Definition to_binary64 (z : Z) : Z :=
  let a := Z.abs z in
  if (a <=? 2 ^ 53)%Z then z
  else
    let e := (Z.log2 a - 52)%Z in
    (Z.sgn z * (round_half_even a e * 2 ^ e))%Z.

(** Conversion of an element of dtype [s] to dtype [d] (C cast,
    [casting='unsafe']). *)
Definition cast_from (s d : dtype) (q : Q) : Q :=
  match s, d with
  | float64, int32 => inject_Z (float_to_int 32 q)
  | float64, int64 => inject_Z (float_to_int 64 q)
  | (int32 | int64), float64 => inject_Z (to_binary64 (Qtrunc q))
  | _, _ => cast d q
  end.

Definition zeroQ : Q := inject_Z 0.

(** [np.zeros(shape)]: a float64 array of zeros. *)
Definition np_zeros (shape : list nat) : ndarray :=
  NdArray float64 shape (replicate (size_of shape) zeroQ).

(** [a.astype(d)] *)
Definition nd_astype (a : ndarray) (d : dtype) : ndarray :=
  NdArray d (nd_shape a) (cast_from (nd_dtype a) d <$> nd_data a).

(** [a.shape[0]] *)
Definition nd_shape0 (a : ndarray) : result nat :=
  match nd_shape a with
  | n :: _ => Ok n
  | [] => Raise IndexError
  end.

(** The [j]-th consecutive block of [w] elements. *)
Definition chunk (w : nat) (data : list Q) (j : nat) : list Q :=
  take w (drop (j * w) data).

(** [a[j]] for an array of at least one dimension. *)
Definition nd_sub (a : ndarray) (j : nat) : ndarray :=
  NdArray (nd_dtype a) (tail (nd_shape a))
          (chunk (size_of (tail (nd_shape a))) (nd_data a) j).

(** *** Python slices

    [slice_bounds len start stop] are the clipped bounds of
    [x[start:stop]] on a sequence of length [len] (step 1): a negative
    index counts from the end, and both bounds are clipped into
    [0..len]. *)
Definition slice_clip (len : nat) (x : Z) : nat :=
  if (x <? 0)%Z then Z.to_nat (Z.max (Z.of_nat len + x) 0)
  else Nat.min (Z.to_nat x) len.

Definition slice_bounds (len : nat) (start stop : option Z) : nat * nat :=
  (from_option (slice_clip len) 0 start,
   from_option (slice_clip len) len stop).

Definition slice_list {A} (l : list A) (start stop : option Z) : list A :=
  let '(lo, hi) := slice_bounds (length l) start stop in
  take (hi - lo) (drop lo l).

(** [a[start:stop]] slices the first axis. *)
Definition nd_slice (a : ndarray) (start stop : option Z) : result ndarray :=
  match nd_shape a with
  | [] => Raise IndexError
  | n :: rest =>
      let '(lo, hi) := slice_bounds n start stop in
      let w := size_of rest in
      Ok (NdArray (nd_dtype a) ((hi - lo) :: rest)
                  (take ((hi - lo) * w) (drop (lo * w) (nd_data a))))
  end.

(** *** Broadcasting an assignment source to the destination shape

    numpy's [PyArray_AssignArray]: when the source has more dimensions
    than the destination, unit dimensions are stripped from its left;
    then the shapes are aligned at the right, and every source dimension
    must be 1 or equal to the destination dimension. *)
Fixpoint strip_unit_dims (ndim : nat) (s : list nat) : list nat :=
  match s with
  | d :: s' =>
      if (ndim <? length s) && (d =? 1) then strip_unit_dims ndim s' else s
  | [] => []
  end.

Fixpoint dims_compatible (src dst : list nat) : bool :=
  match src, dst with
  | s :: src', d :: dst' =>
      ((s =? 1) || (s =? d)) && dims_compatible src' dst'
  | [], [] => true
  | _, _ => false
  end.

(** The copy loop runs over the destination; a source dimension of 1 has
    stride 0, so its only block is read again for every destination index. *)
Fixpoint broadcast_data (src dst : list nat) (data : list Q) : list Q :=
  match src, dst with
  | s :: src', d :: dst' =>
      flat_map (λ j, broadcast_data src' dst'
                       (chunk (size_of src') data (if s =? 1 then 0 else j)))
               (seq 0 d)
  | _, _ => [nth 0 data zeroQ]
  end.

Definition broadcast_to (a : ndarray) (dst : list nat) : result (list Q) :=
  let s := strip_unit_dims (length dst) (nd_shape a) in
  if length dst <? length s then Raise ValueError else
  let s' := replicate (length dst - length s) 1 ++ s in
  if dims_compatible s' dst then Ok (broadcast_data s' dst (nd_data a))
  else Raise ValueError.

(** [a[i, :k] = v]: rows [0..min k m) of block [i] of an array of shape
    [n :: m :: rest] are overwritten with the array [v], broadcast to
    [min k m :: rest] and converted from its dtype to the dtype of [a]. *)
Definition nd_setitem_rows (a : ndarray) (i k : nat) (v : ndarray)
  : result ndarray :=
  match nd_shape a with
  | n :: m :: rest =>
      if n <=? i then Raise IndexError else
      let k' := Nat.min k m in
      let* bd := broadcast_to v (k' :: rest) in
      let w := size_of rest in
      let off := i * (m * w) in
      Ok (NdArray (nd_dtype a) (nd_shape a)
            (take off (nd_data a)
               ++ (cast_from (nd_dtype v) (nd_dtype a) <$> bd)
               ++ drop (off + k' * w) (nd_data a)))
  | _ => Raise IndexError
  end.

(** ** Python values *)

Definition loc : Set := nat.

Inductive pyval : Type :=
| PNone
| PInt (z : Z)
| PFloat (q : Q)
| PStr (s : string)
| PList (l : list pyval)
| PTuple (l : list pyval)
| PArr (a : ndarray)
| PRef (r : loc).          (* a dictionary object *)

(** [len(v)] *)
Definition py_len (v : pyval) : result nat :=
  match v with
  | PList l | PTuple l => Ok (length l)
  | PStr s => Ok (String.length s)
  | PArr a => match nd_shape a with n :: _ => Ok n | [] => Raise TypeError end
  | _ => Raise TypeError
  end.

Definition chars (s : string) : list pyval :=
  (λ j, PStr (String.substring j 1 s)) <$> seq 0 (String.length s).

(** The items produced by iterating over [v]. *)
Definition py_iter (v : pyval) : result (list pyval) :=
  match v with
  | PList l | PTuple l => Ok l
  | PStr s => Ok (chars s)
  | PArr a =>
      match nd_shape a with
      | n :: _ => Ok ((λ j, PArr (nd_sub a j)) <$> seq 0 n)
      | [] => Raise TypeError
      end
  | _ => Raise TypeError
  end.

(** [v[start:stop]] *)
Definition py_getslice (v : pyval) (start stop : option Z) : result pyval :=
  match v with
  | PList l => Ok (PList (slice_list l start stop))
  | PTuple l => Ok (PTuple (slice_list l start stop))
  | PStr s =>
      let '(lo, hi) := slice_bounds (String.length s) start stop in
      Ok (PStr (String.substring lo (hi - lo) s))
  | PArr a => let* b := nd_slice a start stop in Ok (PArr b)
  | _ => Raise TypeError
  end.

(** [for i, s in enumerate(items): st = body(i, s, st)], from index [i]. *)
Fixpoint for_enumerate {St} (body : nat → pyval → St → result St)
    (items : list pyval) (i : nat) (st : St) : result St :=
  match items with
  | [] => Ok st
  | s :: items' =>
      let* st' := body i s st in
      for_enumerate body items' (S i) st'
  end.

(** *** [np.array]

    [np_discover t v] finds the element type, the shape and the row-major
    elements of the array that [np.array(v, dtype=t)] builds.

    With a dtype [t = Some d] every number is converted to [d] by the
    dtype's own [setitem]: a Python [int] goes through a C [long]
    ([OverflowError] beyond 64 bits) and then wraps to the width of
    [d]; a Python [float] is first made an [int], rounding towards zero;
    for ['float64'] an [int] is rounded to the nearest binary64 value
    ([OverflowError] beyond the range of the format).  A dictionary is
    no number ([TypeError]), and neither is [None] for an integer dtype;
    for ['float64'] numpy stores [None] as NaN, which the rationals of
    the model do not have ([Unmodelled]).  The elements of an array are
    converted from its dtype by a C cast.  The elements of a list
    must all have the same shape: a ragged nesting is refused
    ([ValueError: setting an array element with a sequence]).

    This is numpy 1.x, the numpy of the Keras that the file is written
    for (numpy 2 raises [OverflowError] for every integer outside the
    range of the dtype).

    Without a dtype the element type is inferred: int64 for integers
    that fit a C [long], float64 as soon as there is a float.  Where
    numpy would infer another dtype (uint64 or object for larger
    integers, object for [None], dictionaries and ragged nestings,
    a string dtype for strings) the model stops with [Unmodelled], and so
    it does for a string under an explicit dtype, which numpy parses.

    An empty list has shape [(0,)]. *)
Definition in_long (z : Z) : bool :=
  ((- 2 ^ 63 <=? z) && (z <? 2 ^ 63))%Z.

(** A Python [int] stored into an array of dtype [d]. *)
Definition conv_int (d : dtype) (z : Z) : result Q :=
  match d with
  | float64 =>
      let f := to_binary64 z in
      if (Z.abs f <? 2 ^ 1024)%Z then Ok (inject_Z f) else Raise OverflowError
  | _ => if in_long z then Ok (cast d (inject_Z z)) else Raise OverflowError
  end.

(** A Python [float] stored into an array of dtype [d]. *)
Definition conv_float (d : dtype) (q : Q) : result Q :=
  match d with
  | float64 => Ok q
  | _ =>
      let z := Qtrunc q in
      if in_long z then Ok (cast d (inject_Z z)) else Raise OverflowError
  end.

Definition stack (t : option dtype) (parts : list (dtype * list nat * list Q))
  : result (dtype * list nat * list Q) :=
  match parts with
  | [] => Ok (default float64 t, [0], [])
  | (d, sh, _) :: rest =>
      if forallb (λ p, bool_decide (p.1.2 = sh)) rest then
        let d' := foldr (λ p, promote p.1.1) d rest in
        Ok (d', length parts :: sh,
            concat ((λ p : dtype * list nat * list Q,
                       if t is Some _ then p.2
                       else cast_from p.1.1 d' <$> p.2) <$> parts))
      else Raise (if t is Some _ then ValueError else Unmodelled)
  end.

Fixpoint np_discover (t : option dtype) (v : pyval)
  : result (dtype * list nat * list Q) :=
  let fix each (l : list pyval) : result (list (dtype * list nat * list Q)) :=
    match l with
    | [] => Ok []
    | x :: l' =>
        let* p := np_discover t x in
        let* ps := each l' in
        Ok (p :: ps)
    end in
  match v with
  | PInt z =>
      match t with
      | Some d => let* q := conv_int d z in Ok (d, [], [q])
      | None =>
          if in_long z then Ok (int64, [], [inject_Z z]) else Raise Unmodelled
      end
  | PFloat q =>
      match t with
      | Some d => let* q' := conv_float d q in Ok (d, [], [q'])
      | None => Ok (float64, [], [q])
      end
  | PArr a =>
      match t with
      | Some d => Ok (d, nd_shape a, cast_from (nd_dtype a) d <$> nd_data a)
      | None => Ok (nd_dtype a, nd_shape a, nd_data a)
      end
  | PList l | PTuple l => let* ps := each l in stack t ps
  | PNone =>
      Raise (match t with
             | Some (int32 | int64) => TypeError
             | Some float64 | None => Unmodelled
             end)
  | PRef _ => Raise (if t is Some _ then TypeError else Unmodelled)
  | PStr _ => Raise Unmodelled
  end.

(** [np.array(v, dtype=d)]; with [d = None] the element type is inferred. *)
Definition np_array (v : pyval) (d : option dtype) : result ndarray :=
  let* p := np_discover d v in
  let '(d0, sh, data) := p in
  Ok (NdArray (default d0 d) sh data).

(** ** [pad_3d_sequence]

<<
def pad_3d_sequence(seqs, maxlen, nd, dtype='int32'):
    pseqs = np.zeros((len(seqs), maxlen, nd)).astype(dtype)
    for i, seq in enumerate(seqs):
        trunc = np.array(seq[-maxlen:], dtype=dtype)  # trunacting='pre'
        pseqs[i, :trunc.shape[0]] = trunc  # padding='post'
    return pseqs
>>
    [maxlen] and [nd] are dimensions: [np.zeros] refuses negative ones, so
    they are naturals here.  Note that [seq[-0:]] is the whole of [seq]. *)

(** One round of the loop, at index [i]. *)
Definition pad_3d_step (maxlen : nat) (d : dtype)
    (i : nat) (s : pyval) (pseqs : ndarray) : result ndarray :=
  let* sl := py_getslice s (Some (- Z.of_nat maxlen)%Z) None in
  let* trunc := np_array sl (Some d) in
  let* k := nd_shape0 trunc in
  nd_setitem_rows pseqs i k trunc.

Definition pad_3d_sequence_dtype (seqs : pyval) (maxlen nd : nat) (d : dtype)
  : result ndarray :=
  let* n := py_len seqs in
  let pseqs := nd_astype (np_zeros [n; maxlen; nd]) d in
  let* items := py_iter seqs in
  for_enumerate (pad_3d_step maxlen d) items 0 pseqs.

(** The call with the default [dtype='int32']. *)
Definition pad_3d_sequence (seqs : pyval) (maxlen nd : nat) : result ndarray :=
  pad_3d_sequence_dtype seqs maxlen nd int32.

(** Nested Python lists of integers, as values. *)
Definition py_vec (r : list Z) : pyval := PList (PInt <$> r).
Definition py_seq (s : list (list Z)) : pyval := PList (py_vec <$> s).
Definition py_seqs (ss : list (list (list Z))) : pyval := PList (py_seq <$> ss).

Definition qs (r : list Z) : list Q := inject_Z <$> r.

(** ** Keras' [pad_sequences]

    The library function that [pad_graph] calls on the index sequences,
    as in Keras 1.0, with the arguments the file passes
    ([truncating='pre'], [padding='post']; [dtype='int32'] and [value=0.]
    are the defaults):
<<
def pad_sequences(sequences, maxlen=None, dtype='int32',
                  padding='pre', truncating='pre', value=0.):
    lengths = [len(s) for s in sequences]
    nb_samples = len(sequences)
    x = (np.ones((nb_samples, maxlen)) * value).astype(dtype)
    for idx, s in enumerate(sequences):
        if len(s) == 0:
            continue  # empty list was found
        trunc = s[-maxlen:]
        x[idx, :len(trunc)] = trunc
    return x
>>
    The assignment of a Python sequence to a part of an array converts
    it to an array of the dtype of the destination first. *)
Fixpoint rmapM {A B} (f : A → result B) (l : list A) : result (list B) :=
  match l with
  | [] => Ok []
  | x :: l' =>
      let* y := f x in
      let* ys := rmapM f l' in
      Ok (y :: ys)
  end.

Definition pad_sequences_step (maxlen : nat)
    (idx : nat) (s : pyval) (x : ndarray) : result ndarray :=
  let* n := py_len s in
  if n =? 0 then Ok x else
  let* trunc := py_getslice s (Some (- Z.of_nat maxlen)%Z) None in
  let* k := py_len trunc in
  let* v := np_array trunc (Some int32) in
  nd_setitem_rows x idx k v.

Definition pad_sequences (sequences : pyval) (maxlen : nat) : result ndarray :=
  let* items := py_iter sequences in
  let* lengths := rmapM py_len items in
  let* nb_samples := py_len sequences in
  let x := nd_astype (np_zeros [nb_samples; maxlen]) int32 in
  for_enumerate (pad_sequences_step maxlen) items 0 x.

(** ** The heap of dictionaries and the state monad *)

Abbreviation dict := (gmap string pyval).
Abbreviation heap := (gmap loc (gmap string pyval)).

(** The file system: the value pickled in each readable file. *)
Abbreviation files := (gmap string pyval).

Definition M (A : Type) : Type := heap → result A * heap.

Definition mret' {A} (a : A) : M A := λ h, (Ok a, h).
Definition mraise {A} (e : exn) : M A := λ h, (Raise e, h).
Definition lift {A} (m : result A) : M A := λ h, (m, h).

(** The heap survives an exception: what was written before stays written. *)
Definition mbind' {A B} (m : M A) (k : A → M B) : M B :=
  λ h, match m h with
       | (Ok a, h') => k a h'
       | (Raise e, h') => (Raise e, h')
       end.

Notation "'do*' x := m 'in' k" := (mbind' m (λ x, k))
  (at level 10, x pattern, m at level 100, k at level 200).

(** [v[k]] for a string key *)
Definition py_getitem (v : pyval) (k : string) : M pyval :=
  λ h, match v with
       | PRef r =>
           match h !! r with
           | Some d =>
               match d !! k with
               | Some x => (Ok x, h)
               | None => (Raise KeyError, h)
               end
           | None => (Raise TypeError, h)
           end
       | _ => (Raise TypeError, h)
       end.

(** [v[k] = x] for a string key *)
Definition py_setitem (v : pyval) (k : string) (x : pyval) : M unit :=
  λ h, match v with
       | PRef r =>
           match h !! r with
           | Some d => (Ok (), <[r := <[k := x]> d]> h)
           | None => (Raise TypeError, h)
           end
       | _ => (Raise TypeError, h)
       end.

(** A new dictionary object. *)
Definition new_dict (d : dict) : M pyval :=
  λ h, let r := fresh (dom h) in (Ok (PRef r), <[r := d]> h).

(** ** [pad_graph]
<<
def pad_graph(gr, s0pad, s1pad):
    gr['si0'] = pad_sequences(gr['si0'], maxlen=s0pad, truncating='pre', padding='post')
    gr['si1'] = pad_sequences(gr['si1'], maxlen=s1pad, truncating='pre', padding='post')
    gr['f0'] = pad_3d_sequence(gr['f0'], maxlen=s0pad, nd=nlp.flagsdim)
    gr['f1'] = pad_3d_sequence(gr['f1'], maxlen=s1pad, nd=nlp.flagsdim)
    gr['score'] = np.array(gr['score'])
>> *)

(** [gr[k] = f(gr[k])] *)
Definition update_entry (gr : pyval) (k : string)
    (f : pyval → result ndarray) : M unit :=
  do* v := py_getitem gr k in
  do* a := lift (f v) in
  py_setitem gr k (PArr a).

Section Ubuntu.

(** [nlp.flagsdim], a constant of [pysts.nlp]. *)
Variable flagsdim : nat.

Definition pad_graph (gr : pyval) (s0pad s1pad : nat) : M unit :=
  do* _ := update_entry gr "si0" (λ v, pad_sequences v s0pad) in
  do* _ := update_entry gr "si1" (λ v, pad_sequences v s1pad) in
  do* _ := update_entry gr "f0" (λ v, pad_3d_sequence v s0pad flagsdim) in
  do* _ := update_entry gr "f1" (λ v, pad_3d_sequence v s1pad flagsdim) in
  update_entry gr "score" (λ v, np_array v None).

(** ** [graph_input_slice] and [graph_input_anssel] *)

Definition result_to_option {A} (m : result A) : option A :=
  match m with Ok a => Some a | Raise _ => None end.

(** Modelled from the spec: [graph_input_slice] of [pysts.kerasts] is not
    part of this file; it "extracts a sub-batch by index range": a new
    dictionary with the same keys, every value sliced by [lo:hi].  A value
    that cannot be sliced raises. *)
Definition slice_dict (d : dict) (lo hi : Z) : result dict :=
  let d' := omap (λ v, result_to_option (py_getslice v (Some lo) (Some hi))) d in
  if bool_decide (dom d' = dom d) then Ok d' else Raise TypeError.

Definition graph_input_slice (gr : pyval) (lo hi : Z) : M pyval :=
  λ h, match gr with
       | PRef r =>
           match h !! r with
           | Some d =>
               match slice_dict d lo hi with
               | Ok d' => new_dict d' h
               | Raise e => (Raise e, h)
               end
           | None => (Raise TypeError, h)
           end
       | _ => (Raise TypeError, h)
       end.

(** Modelled from the spec: [graph_input_anssel] of [pysts.kerasts] is not
    part of this file; it "builds the example mapping from raw arrays": a
    new dictionary holding both index sequences, both feature sequences
    and the labels under ['score']. *)
Definition graph_input_anssel (si0 si1 y f0 f1 : pyval) : M pyval :=
  new_dict (<["si0" := si0]> (<["si1" := si1]> (<["score" := y]>
             (<["f0" := f0]> (<["f1" := f1]> ∅))))).

(** ** [sample_pairs]
<<
def sample_pairs(gr, batch_size, s0pad, s1pad, once=False):
    ids = range(int(len(gr['si0']) / batch_size))
    while True:
        random.shuffle(ids)
        for i in ids:
            sl = slice(i * batch_size, (i+1) * batch_size)
            ogr = graph_input_slice(gr, sl)
            pad_graph(ogr, s0pad=s0pad, s1pad=s1pad)
            yield ogr
        if once:
            break
>>
    The generator is a state machine; [sample_pairs_next] is one call of
    [next()].  [random.shuffle] works in place with the global random
    state, here a state [rng].

    On Python 2 [range] returns a list, which [random.shuffle] permutes:
    the function [shuffle].  On Python 3 [ids] is a range object, which
    cannot be assigned to: [random.shuffle] does nothing to a range of
    fewer than two elements, and on a longer one it draws one index and
    raises [TypeError] at its first exchange; [shuffle_fails] is the
    random state it leaves. *)

Inductive gen_state : Type :=
| GStart                              (* not started *)
| GLoop (ids todo : list nat)         (* suspended at [yield]; [todo] is the rest of the pass *)
| GDone.                              (* returned or raised *)

Inductive outcome (R : Type) : Type :=
| Yield (ogr : pyval) (st : gen_state) (r : R) (h : heap)
| StopIteration (r : R) (h : heap)
| Raised (e : exn) (r : R) (h : heap)
| Diverges.                           (* [next()] never returns *)
Arguments Yield {R}.
Arguments StopIteration {R}.
Arguments Raised {R}.
Arguments Diverges {R}.

(** [int(n / batch_size)] under [from __future__ import division]: the
    float quotient rounded towards zero (exact for lengths below 2^53). *)
Definition int_div (n : nat) (batch_size : Z) : result Z :=
  if (batch_size =? 0)%Z then Raise ZeroDivisionError
  else Ok (Z.of_nat n ÷ batch_size)%Z.

(** The elements of [range(k)]. *)
Definition py_range (k : Z) : list nat := seq 0 (Z.to_nat k).

Section Generator.

Context {R : Type}.
Variable py : python.
Variable shuffle : R → list nat → list nat * R.
Variable shuffle_fails : R → nat → R.

(** The body of the [for] loop up to [yield]. *)
Definition sample_pairs_body (gr : pyval) (batch_size : Z) (s0pad s1pad : nat)
    (i : nat) : M pyval :=
  let lo := (Z.of_nat i * batch_size)%Z in
  let hi := ((Z.of_nat i + 1) * batch_size)%Z in
  do* ogr := graph_input_slice gr lo hi in
  do* _ := pad_graph ogr s0pad s1pad in
  mret' ogr.

Definition yield_body (gr : pyval) (batch_size : Z) (s0pad s1pad : nat)
    (ids : list nat) (i : nat) (todo : list nat) (r : R) (h : heap)
  : outcome R :=
  match sample_pairs_body gr batch_size s0pad s1pad i h with
  | (Ok ogr, h') => Yield ogr (GLoop ids todo) r h'
  | (Raise e, h') => Raised e r h'
  end.

(** The [for] loop over the shuffled [ids], up to its first [yield]. *)
Definition first_yield (gr : pyval) (batch_size : Z) (s0pad s1pad : nat)
    (once : bool) (ids : list nat) (r : R) (h : heap) : outcome R :=
  match ids with
  | i :: todo => yield_body gr batch_size s0pad s1pad ids i todo r h
  | [] => if once then StopIteration r h else Diverges
  end.

(** [random.shuffle(ids)]: the new order of [ids], or the exception, and
    the random state. *)
Definition random_shuffle (ids : list nat) (r : R) : result (list nat) * R :=
  match py with
  | Python2 => let '(ids', r') := shuffle r ids in (Ok ids', r')
  | Python3 =>
      if 2 <=? length ids then (Raise TypeError, shuffle_fails r (length ids))
      else (Ok ids, r)
  end.

(** One turn of [while True] from its top. *)
Definition enter_pass (gr : pyval) (batch_size : Z) (s0pad s1pad : nat)
    (once : bool) (ids : list nat) (r : R) (h : heap) : outcome R :=
  match random_shuffle ids r with
  | (Ok ids', r') => first_yield gr batch_size s0pad s1pad once ids' r' h
  | (Raise e, r') => Raised e r' h
  end.

Definition sample_pairs_next (gr : pyval) (batch_size : Z) (s0pad s1pad : nat)
    (once : bool) (st : gen_state) (r : R) (h : heap) : outcome R :=
  match st with
  | GStart =>
      match (do* si0 := py_getitem gr "si0" in
             do* n := lift (py_len si0) in
             lift (int_div n batch_size)) h with
      | (Ok k, h') =>
          enter_pass gr batch_size s0pad s1pad once (py_range k) r h'
      | (Raise e, h') => Raised e r h'
      end
  | GLoop ids (i :: todo) =>
      yield_body gr batch_size s0pad s1pad ids i todo r h
  | GLoop ids [] =>
      if once then StopIteration r h
      else enter_pass gr batch_size s0pad s1pad once ids r h
  | GDone => StopIteration r h
  end.

(** The batches of the first [n] calls of [next()], with the state the
    generator is left in; [None] when one of the calls does not yield. *)
Fixpoint take_batches (gr : pyval) (batch_size : Z) (s0pad s1pad : nat)
    (once : bool) (n : nat) (st : gen_state) (r : R) (h : heap)
  : option (list pyval * gen_state * R * heap) :=
  match n with
  | 0 => Some ([], st, r, h)
  | S n' =>
      match sample_pairs_next gr batch_size s0pad s1pad once st r h with
      | Yield ogr st' r' h' =>
          match take_batches gr batch_size s0pad s1pad once n' st' r' h' with
          | Some (bs, st'', r'', h'') => Some (ogr :: bs, st'', r'', h'')
          | None => None
          end
      | _ => None
      end
  end.

End Generator.

(** ** [UbuntuTask]

    The attributes of the task object are a dictionary; reading an
    attribute that was never assigned raises [AttributeError]. *)

Definition getattr (self : dict) (k : string) : M pyval :=
  λ h, match self !! k with
       | Some v => (Ok v, h)
       | None => (Raise AttributeError, h)
       end.

(** [UbuntuTask.__init__] *)
Definition UbuntuTask_init : dict :=
  <["name" := PStr "ubuntu"]> (<["s0pad" := PInt 160]> (<["s1pad" := PInt 160]>
    (<["emb" := PNone]> (<["vocab" := PNone]> ∅)))).

(** [task()] *)
Definition task : dict := UbuntuTask_init.

(** [cPickle.load(open(fname, "rb"))] on the file system [fs]. *)
Definition pickle_load (fs : files) (fname : string) : M pyval :=
  λ h, match fs !! fname with
       | Some v => (Ok v, h)
       | None => (Raise IOError, h)
       end.

(** [load_set]
<<
    def load_set(self, fname, cache_dir=None):
        si0, si1, f0, f1, labels = cPickle.load(open(fname, "rb"))
        gr = graph_input_anssel(si0, si1, labels, f0, f1)
        return (gr, labels, self.vocab)
>> *)
Definition load_set (fs : files) (self : dict) (fname : string) : M pyval :=
  do* v := pickle_load fs fname in
  do* items := lift (py_iter v) in
  match items with
  | [si0; si1; f0; f1; labels] =>
      do* gr := graph_input_anssel si0 si1 labels f0 f1 in
      do* vocab := getattr self "vocab" in
      mret' (PTuple [gr; labels; vocab])
  | _ => mraise ValueError
  end.

(** [load_vocab]: returns the vocabulary and the updated task object.
<<
    def load_vocab(self, vocabf):
        self.vocab = pickle.load(open(vocabf, "rb"))
        return self.vocab
>> *)
Definition load_vocab (fs : files) (self : dict) (vocabf : string)
  : M (pyval * dict) :=
  do* v := pickle_load fs vocabf in
  mret' (v, <["vocab" := v]> self).

(** [a[:,0]] *)
Definition nd_col0 (a : ndarray) : result ndarray :=
  match nd_shape a with
  | n :: m :: rest =>
      if m =? 0 then Raise IndexError else
      let w := size_of rest in
      Ok (NdArray (nd_dtype a) (n :: rest)
            (flat_map (λ j, take w (drop (j * (m * w)) (nd_data a))) (seq 0 n)))
  | _ => Raise IndexError
  end.

Definition py_col0 (v : pyval) : result pyval :=
  match v with
  | PArr a => let* b := nd_col0 a in Ok (PArr b)
  | _ => Raise TypeError
  end.

Section Eval.

(** [model.predict] of the training harness and [ev.eval_ubuntu] of
    [pysts.eval]: collaborators that are not part of this file. *)
Variable predict : pyval → M pyval.
Variable eval_ubuntu : pyval → pyval → pyval → pyval → M pyval.

(** The body of the loop of [eval] for one split. *)
Definition eval_split (gr fname : pyval) : M pyval :=
  match gr with
  | PNone => mret' PNone
  | _ =>
      do* p := predict gr in
      do* sc := py_getitem p "score" in
      do* ypred := lift (py_col0 sc) in
      do* s0 := py_getitem gr "s0" in
      do* y := py_getitem gr "score" in
      eval_ubuntu ypred s0 y fname
  end.

(** [eval]
<<
    def eval(self, model):
        res = []
        for gr, fname in [(self.gr, self.trainf), (self.grv, self.valf), (self.grt, self.testf)]:
            if gr is None:
                res.append(None)
                continue
            ypred = model.predict(gr)['score'][:,0]
            res.append(ev.eval_ubuntu(ypred, gr['s0'], gr['score'], fname))
        return tuple(res)
>> *)
Definition eval (self : dict) : M pyval :=
  do* gr := getattr self "gr" in
  do* trainf := getattr self "trainf" in
  do* grv := getattr self "grv" in
  do* valf := getattr self "valf" in
  do* grt := getattr self "grt" in
  do* testf := getattr self "testf" in
  do* r0 := eval_split gr trainf in
  do* r1 := eval_split grv valf in
  do* r2 := eval_split grt testf in
  mret' (PTuple [r0; r1; r2]).

End Eval.

End Ubuntu.

Arguments Yield {R}.
Arguments StopIteration {R}.
Arguments Raised {R}.
Arguments Diverges {R}.

(** ** [UbuntuTask.config]
<<
    def config(self, c):
        c['loss'] = 'binary_crossentropy'
        c['nb_epoch'] = 16
        c['batch_size'] = 192
        c['epoch_fract'] = 1/4
>>
    The file imports [division] from [__future__]: [1/4] is the float
    0.25. *)
Definition config (c : pyval) : M unit :=
  do* _ := py_setitem c "loss" (PStr "binary_crossentropy") in
  do* _ := py_setitem c "nb_epoch" (PInt 16) in
  do* _ := py_setitem c "batch_size" (PInt 192) in
  py_setitem c "epoch_fract" (PFloat (1 # 4)%Q).

(** ** [UbuntuTask.fit_model]
<<
    def fit_model(self, model, **kwargs):
        batch_size = kwargs.pop('batch_size')
        return model.fit_generator(sample_pairs(self.gr, batch_size, self.s0pad, self.s1pad), **kwargs)
>>
    Calling [sample_pairs] runs none of its body: the call returns a
    generator object that holds the arguments. *)
Record generator : Type := Generator {
  gen_gr : pyval;
  gen_batch_size : pyval;
  gen_s0pad : pyval;
  gen_s1pad : pyval;
  gen_once : bool;
}.

Section FitModel.

(** [model.fit_generator] of the training harness. *)
Variable fit_generator : generator → dict → M pyval.

Definition fit_model (self kwargs : dict) : M pyval :=
  match kwargs !! "batch_size" with
  | None => mraise KeyError
  | Some batch_size =>
      do* gr := getattr self "gr" in
      do* s0pad := getattr self "s0pad" in
      do* s1pad := getattr self "s1pad" in
      fit_generator (Generator gr batch_size s0pad s1pad false)
                    (delete "batch_size" kwargs)
  end.

End FitModel.

(** What [next()] does on a generator object whose batch size and pad
    lengths are integers, the pad lengths not negative; [None] for other
    argument types, which the model of [sample_pairs] does not cover. *)
Definition generator_next {R} (flagsdim : nat) (py : python)
    (shuffle : R → list nat → list nat * R) (shuffle_fails : R → nat → R)
    (g : generator)
  : option (gen_state → R → heap → outcome R) :=
  match gen_batch_size g, gen_s0pad g, gen_s1pad g with
  | PInt batch_size, PInt s0pad, PInt s1pad =>
      if (0 <=? s0pad)%Z && (0 <=? s1pad)%Z then
        Some (sample_pairs_next flagsdim py shuffle shuffle_fails (gen_gr g)
                batch_size
                (Z.to_nat s0pad) (Z.to_nat s1pad) (gen_once g))
      else None
  | _, _, _ => None
  end.

(** ** [UbuntuTask.res_columns]
<<
    def res_columns(self, mres, pfx=' '):
        return('%c%.6f   |%c%.6f     |%c%.6f   |%c%.6f   |%c%.6f    |%c%.6f  |%c%.6f   '
               % (pfx, mres[self.trainf]['MRR'],
                  pfx, mres[self.trainf]['2R_1'],
                  pfx, mres[self.valf]['MRR'],
                  pfx, mres[self.valf]['R2_1'],
                  pfx, mres[self.valf]['R10_2'],
                  pfx, mres[self.testf].get('MAP', np.nan),
                  pfx, mres[self.testf].get('R2_1', np.nan),
                  pfx, mres[self.testf].get('R10_2', np.nan)))
>> *)

(** [l[z]] on a sequence: a negative index counts from the end. *)
Definition py_index {A} (l : list A) (z : Z) : result A :=
  let i := if (z <? 0)%Z then (z + Z.of_nat (length l))%Z else z in
  if (i <? 0)%Z then Raise IndexError else
  match l !! Z.to_nat i with
  | Some x => Ok x
  | None => Raise IndexError
  end.

(** [v[k]].  The dictionaries of the model have string keys, so every
    other key is missing from them. *)
Definition py_subscript (v k : pyval) : M pyval :=
  match v, k with
  | PRef _, PStr s => py_getitem v s
  | PRef _, _ => mraise KeyError
  | PList l, PInt z | PTuple l, PInt z => lift (py_index l z)
  | PStr s, PInt z => lift (py_index (chars s) z)
  | PArr a, PInt z =>
      match nd_shape a with
      | n :: _ =>
          lift (let* j := py_index (seq 0 n) z in Ok (PArr (nd_sub a j)))
      | [] => mraise IndexError
      end
  | _, _ => mraise TypeError
  end.

(** [v.get(k, dflt)] *)
Definition py_get (v : pyval) (k : string) (dflt : pyval) : M pyval :=
  λ h, match v with
       | PRef r =>
           match h !! r with
           | Some d => (Ok (default dflt (d !! k)), h)
           | None => (Raise AttributeError, h)
           end
       | _ => (Raise AttributeError, h)
       end.

(** The conversions of a format string. *)
Inductive fmt_piece : Set :=
| FLit (s : string)      (* literal text *)
| FChar                  (* [%c] *)
| FFloat6.               (* [%.6f] *)

(** [%c]: a string of one character, or the code of a character.  On
    Python 2 the code is that of a byte; on Python 3 it is a code point,
    and those from 256 on have no place in the strings of the model. *)
Definition format_c (py : python) (v : pyval) : result string :=
  match v with
  | PStr s => if String.length s =? 1 then Ok s else Raise TypeError
  | PInt z =>
      if (0 <=? z)%Z && (z <? 256)%Z
      then Ok (String (Ascii.ascii_of_nat (Z.to_nat z)) "")
      else
        match py with
        | Python2 => Raise OverflowError
        | Python3 =>
            if (0 <=? z)%Z && (z <? 1114112)%Z then Raise Unmodelled
            else Raise OverflowError
        end
  | _ => Raise TypeError
  end.

Section ResColumns.

(** [%.6f] applied to one argument ([TypeError] unless it is a number),
    and [np.nan]: the digits of a float and the value NaN are outside
    the rationals of the model. *)
Variable py : python.
Variable format_f6 : pyval → result string.
Variable np_nan : pyval.

(** [fmt % args]: the conversions take the arguments from left to
    right; it is an error when an argument is missing and when one is
    left over. *)
Fixpoint py_format (fmt : list fmt_piece) (args : list pyval) : result string :=
  match fmt with
  | [] =>
      match args with
      | [] => Ok ""
      | _ :: _ => Raise TypeError   (* not all arguments converted *)
      end
  | FLit s :: fmt' =>
      let* rest := py_format fmt' args in Ok (String.append s rest)
  | FChar :: fmt' =>
      match args with
      | [] => Raise TypeError       (* not enough arguments *)
      | v :: args' =>
          let* c := format_c py v in
          let* rest := py_format fmt' args' in Ok (String.append c rest)
      end
  | FFloat6 :: fmt' =>
      match args with
      | [] => Raise TypeError
      | v :: args' =>
          let* f := format_f6 v in
          let* rest := py_format fmt' args' in Ok (String.append f rest)
      end
  end.

(** The format string of [res_columns]. *)
Definition res_columns_format : list fmt_piece :=
  [FChar; FFloat6; FLit "   |"; FChar; FFloat6; FLit "     |";
   FChar; FFloat6; FLit "   |"; FChar; FFloat6; FLit "   |";
   FChar; FFloat6; FLit "    |"; FChar; FFloat6; FLit "  |";
   FChar; FFloat6; FLit "   "].

(** [mres[self.<split>][key]] *)
Definition metric (self : dict) (mres : pyval) (split key : string) : M pyval :=
  do* fname := getattr self split in
  do* m := py_subscript mres fname in
  py_subscript m (PStr key).

(** [mres[self.<split>].get(key, np.nan)] *)
Definition metric_or_nan (self : dict) (mres : pyval) (split key : string)
  : M pyval :=
  do* fname := getattr self split in
  do* m := py_subscript mres fname in
  py_get m key np_nan.

Definition res_columns (self : dict) (mres pfx : pyval) : M string :=
  do* a1 := metric self mres "trainf" "MRR" in
  do* a2 := metric self mres "trainf" "2R_1" in
  do* a3 := metric self mres "valf" "MRR" in
  do* a4 := metric self mres "valf" "R2_1" in
  do* a5 := metric self mres "valf" "R10_2" in
  do* a6 := metric_or_nan self mres "testf" "MAP" in
  do* a7 := metric_or_nan self mres "testf" "R2_1" in
  do* a8 := metric_or_nan self mres "testf" "R10_2" in
  lift (py_format res_columns_format
          [pfx; a1; pfx; a2; pfx; a3; pfx; a4; pfx; a5; pfx; a6; pfx; a7;
           pfx; a8]).

End ResColumns.

(** ** Auxiliary definitions for the statements *)

(** The content of one block of [m] rows of width [w] that
    [pad_3d_sequence] computes for the item [s]: the truncated rows,
    then zeros. *)
Definition padded_block (m w : nat) (d : dtype) (s : pyval) : result (list Q) :=
  let* sl := py_getslice s (Some (- Z.of_nat m)%Z) None in
  let* trunc := np_array sl (Some d) in
  let* k := nd_shape0 trunc in
  let* bd := broadcast_to trunc [Nat.min k m; w] in
  Ok ((cast d <$> bd) ++ replicate ((m - Nat.min k m) * w) zeroQ).

(** The content of one row of length [m] that [pad_sequences] computes
    for the item [s]. *)
Definition padded_row (m : nat) (s : pyval) : result (list Q) :=
  let* n := py_len s in
  if n =? 0 then Ok (replicate m zeroQ) else
  let* trunc := py_getslice s (Some (- Z.of_nat m)%Z) None in
  let* k := py_len trunc in
  let* v := np_array trunc (Some int32) in
  let* bd := broadcast_to v [Nat.min k m] in
  Ok ((cast int32 <$> bd) ++ replicate (m - Nat.min k m) zeroQ).

(** The rows of a two-dimensional array. *)
Definition nd_rows (a : ndarray) : list (list Q) :=
  match nd_shape a with
  | m :: w :: _ => (λ j, chunk w (nd_data a) j) <$> seq 0 m
  | _ => []
  end.

(** An integer that an array of dtype [d] holds as it is: one in the range
    of an integer dtype, one of at most 53 bits for float64. *)
Definition fits (d : dtype) (z : Z) : Prop :=
  match d with
  | int32 => (- 2 ^ 31 ≤ z < 2 ^ 31)%Z
  | int64 => (- 2 ^ 63 ≤ z < 2 ^ 63)%Z
  | float64 => (- 2 ^ 53 ≤ z ≤ 2 ^ 53)%Z
  end.

(** [d[k] = f(d[k])] on the dictionary itself. *)
Definition upd (d : dict) (k : string) (f : pyval → result ndarray)
  : result dict :=
  match d !! k with
  | Some v => let* a := f v in Ok (<[k := PArr a]> d)
  | None => Raise KeyError
  end.

(** The five assignments of [pad_graph], on the dictionary itself. *)
Definition pad_dict (flagsdim s0pad s1pad : nat) (d : dict) : result dict :=
  let* d := upd d "si0" (λ v, pad_sequences v s0pad) in
  let* d := upd d "si1" (λ v, pad_sequences v s1pad) in
  let* d := upd d "f0" (λ v, pad_3d_sequence v s0pad flagsdim) in
  let* d := upd d "f1" (λ v, pad_3d_sequence v s1pad flagsdim) in
  upd d "score" (λ v, np_array v None).

(** The keys that [pad_graph] assigns. *)
Definition padded_keys : list string := ["si0"; "si1"; "f0"; "f1"; "score"].

(** [d'] agrees with [d] outside the keys [ks]. *)
Definition same_outside (ks : list string) (d d' : dict) : Prop :=
  ∀ k, k ∉ ks → d' !! k = d !! k.

(** [d'] is [d] with the five entries replaced by their padded tensors. *)
Definition padded_graph (flagsdim s0pad s1pad : nat) (d d' : dict) : Prop :=
  ∃ v0 v1 w0 w1 sc a0 a1 b0 b1 y,
    d !! "si0" = Some v0 ∧ pad_sequences v0 s0pad = Ok a0 ∧
    d !! "si1" = Some v1 ∧ pad_sequences v1 s1pad = Ok a1 ∧
    d !! "f0" = Some w0 ∧ pad_3d_sequence w0 s0pad flagsdim = Ok b0 ∧
    d !! "f1" = Some w1 ∧ pad_3d_sequence w1 s1pad flagsdim = Ok b1 ∧
    d !! "score" = Some sc ∧ np_array sc None = Ok y ∧
    d' = <["score" := PArr y]> (<["f1" := PArr b1]> (<["f0" := PArr b0]>
           (<["si1" := PArr a1]> (<["si0" := PArr a0]> d)))).

(** The batch of block [i]: the entries of the dataset sliced to the
    indices [i * batch_size .. (i+1) * batch_size), then padded. *)
Definition batch_dict (flagsdim : nat) (d : dict) (batch_size : Z)
    (s0pad s1pad : nat) (i : nat) : result dict :=
  let* d1 := slice_dict d (Z.of_nat i * batch_size)
                          ((Z.of_nat i + 1) * batch_size) in
  pad_dict flagsdim s0pad s1pad d1.

(** The number of blocks of a dataset of [n] samples. *)
Definition num_blocks (n : nat) (batch_size : Z) : nat :=
  Z.to_nat (Z.of_nat n / batch_size).

(** [ogr] refers to the batch of block [i] in the heap [h]; its padded
    index tensor has [batch_size] rows. *)
Definition is_batch (flagsdim : nat) (d : dict) (batch_size : Z)
    (s0pad s1pad : nat) (h : heap) (i : nat) (ogr : pyval) : Prop :=
  ∃ r' d' a,
    ogr = PRef r' ∧ h !! r' = Some d' ∧
    batch_dict flagsdim d batch_size s0pad s1pad i = Ok d' ∧
    d' !! "si0" = Some (PArr a) ∧ nd_shape a = [Z.to_nat batch_size; s0pad].

(** [random.shuffle] can shuffle [range(k)]: always on Python 2, and on
    Python 3 only when there is nothing to exchange. *)
Definition shuffle_accepts (py : python) (k : nat) : Prop :=
  py = Python2 ∨ k ≤ 1.

(** The states of the generator with [k] blocks that a call of [next()]
    can start from: not started, or inside a pass over a permutation of
    the blocks. *)
Definition gen_inv (k : nat) (st : gen_state) : Prop :=
  st = GStart ∨
  ∃ ids todo, st = GLoop ids todo ∧ ids ≡ₚ seq 0 k ∧ Forall (λ i, i < k) todo.

(** ** Example data *)

(** A dataset of two samples, with one entry that [pad_graph] does not
    touch. *)
Definition ex_graph : dict :=
  <["si0" := py_seq [[1; 2; 3]; [4; 5]]%Z]>
  (<["si1" := py_seq [[6]; [7; 8]]%Z]>
  (<["f0" := py_seqs [[[1; 0]; [0; 1]; [1; 1]]; [[0; 0]; [1; 0]]]%Z]>
  (<["f1" := py_seqs [[[1; 1]]; [[0; 1]; [1; 0]]]%Z]>
  (<["score" := PList [PInt 1; PInt 0]]>
  (<["s0" := PList [PStr "hello"; PStr "hi"]]> ∅))))).

Definition ex_heap : heap := <[0 := ex_graph]> ∅.

(** The pickled training set and a task whose three splits are set by
    hand: only the training graph is loaded. *)
Definition ex_files : files :=
  <["train.pickle" :=
      PTuple [py_seq [[1; 2; 3]; [4; 5]]%Z; py_seq [[6]; [7; 8]]%Z;
              py_seqs [[[1; 0]; [0; 1]; [1; 1]]; [[0; 0]; [1; 0]]]%Z;
              py_seqs [[[1; 1]]; [[0; 1]; [1; 0]]]%Z;
              PList [PInt 1; PInt 0]]]> ∅.


(** A model that scores every sample 1/2 and metrics that count the
    predictions. *)
Definition ex_predict (gr : pyval) : M pyval :=
  do* si0 := py_getitem gr "si0" in
  do* n := lift (py_len si0) in
  new_dict (<["score" := PArr (NdArray float64 [n; 1]
                                 (replicate n (1 # 2)%Q))]> ∅).

Definition ex_eval_ubuntu (ypred s0 y fname : pyval) : M pyval :=
  do* n := lift (py_len ypred) in
  new_dict (<["MRR" := PFloat (1 # 1)%Q]> (<["N" := PInt (Z.of_nat n)]> ∅)).

(** A dataset of five samples and a deterministic stand-in for
    [random.shuffle] that reverses the list. *)
Definition ex_dataset : dict :=
  <["si0" := py_seq [[1; 2; 3]; [4; 5]; [6]; [7; 8]; [9]]%Z]>
  (<["si1" := py_seq [[6]; [7; 8]; [1]; [2; 3]; [4]]%Z]>
  (<["f0" := py_seqs [[[1; 0]; [0; 1]; [1; 1]]; [[0; 0]; [1; 0]]; [[1; 1]];
                       [[0; 1]; [0; 0]]; [[1; 0]]]%Z]>
  (<["f1" := py_seqs [[[1; 1]]; [[0; 1]; [1; 0]]; [[0; 0]];
                       [[1; 0]; [1; 1]]; [[0; 1]]]%Z]>
  (<["score" := PList [PInt 1; PInt 0; PInt 0; PInt 1; PInt 0]]> ∅)))).

Definition ex_shuffle (u : unit) (ids : list nat) : list nat * unit :=
  (rev ids, u).

(** ** Auxiliary definitions for the further properties *)

(** A two-dimensional array of [k] rows of width [w], with its data. *)
Definition has_rows (w k : nat) (a : ndarray) : Prop :=
  nd_shape a = [k; w] ∧ length (nd_data a) = k * w.

(** [out] is an int32 tensor of shape [len(v) :: tail] with all its
    elements. *)
Definition padded_to (v : pyval) (tail : list nat) (out : pyval) : Prop :=
  ∃ n a, py_len v = Ok n ∧ out = PArr a ∧ nd_dtype a = int32 ∧
         nd_shape a = n :: tail ∧ length (nd_data a) = n * size_of tail.

(** The last [m] items of a list of integers as int32, then zeros up to
    length [m]: the padded row of an index sequence. *)
Definition index_row (m : nat) (s : list Z) : list Q :=
  (cast int32 <$> qs (drop (length s - m) s))
    ++ replicate (m - Nat.min (length s) m) zeroQ.


(** The dictionary [c] after [config]. *)
Definition configured (c : dict) : dict :=
  <["epoch_fract" := PFloat (1 # 4)%Q]> (<["batch_size" := PInt 192]>
    (<["nb_epoch" := PInt 16]> (<["loss" := PStr "binary_crossentropy"]> c))).

Definition config_keys : list string :=
  ["loss"; "nb_epoch"; "batch_size"; "epoch_fract"].

(** The attributes that [eval] reads. *)
Definition eval_attributes : list string :=
  ["gr"; "trainf"; "grv"; "valf"; "grt"; "testf"].

(** The number of conversions of a format string. *)
Fixpoint conversions (fmt : list fmt_piece) : nat :=
  match fmt with
  | [] => 0
  | FLit _ :: fmt' => conversions fmt'
  | (FChar | FFloat6) :: fmt' => S (conversions fmt')
  end.

(** A computation that leaves the heap as it is. *)
Definition readonly {A} (m : M A) : Prop := ∀ h, (m h).2 = h.

(** * Properties *)

(** ** Elements and blocks *)

Lemma wrap_idem bits z : (0 < bits)%Z → wrap bits (wrap bits z) = wrap bits z.
Proof.
  intros Hb. unfold wrap.
  replace ((z + 2 ^ (bits - 1)) `mod` 2 ^ bits - 2 ^ (bits - 1) + 2 ^ (bits - 1))%Z
    with ((z + 2 ^ (bits - 1)) `mod` 2 ^ bits)%Z by lia.
  rewrite Z.mod_mod; [done|]. apply Z.pow_nonzero; lia.
Qed.

Lemma Qtrunc_inject_Z z : Qtrunc (inject_Z z) = z.
Proof. unfold Qtrunc. simpl. apply Z.quot_1_r. Qed.

Lemma cast_idem d q : cast d (cast d q) = cast d q.
Proof.
  destruct d; simpl; [| |done];
    rewrite Qtrunc_inject_Z, wrap_idem; done.
Qed.

Lemma cast_zeroQ d : cast d zeroQ = zeroQ.
Proof. by destruct d. Qed.

Lemma cast_fixed_fmap d (l : list Q) :
  Forall (λ q, cast d q = q) l → cast d <$> l = l.
Proof.
  induction 1 as [|q l Hq _ IH]; [done|]. rewrite fmap_cons. by f_equal.
Qed.

Lemma Forall_cast_fixed_fmap d (l : list Q) :
  Forall (λ q, cast d q = q) (cast d <$> l).
Proof. apply Forall_fmap, Forall_true. intros q. apply cast_idem. Qed.

Lemma Forall_cast_fixed_zeros d n :
  Forall (λ q, cast d q = q) (replicate n zeroQ).
Proof. apply Forall_replicate, cast_zeroQ. Qed.

Lemma wrap_in_range bits z :
  (0 < bits)%Z → (- 2 ^ (bits - 1) ≤ z < 2 ^ (bits - 1))%Z → wrap bits z = z.
Proof.
  intros Hb Hz. unfold wrap.
  assert (2 ^ bits = 2 * 2 ^ (bits - 1))%Z as Hp.
  { rewrite <- Z.pow_succ_r by lia. f_equal. lia. }
  rewrite Z.mod_small; lia.
Qed.

Lemma float_to_int_in_range bits q :
  (0 < bits)%Z →
  (- 2 ^ (bits - 1) ≤ float_to_int bits q < 2 ^ (bits - 1))%Z.
Proof.
  intros Hb. unfold float_to_int.
  assert (0 < 2 ^ (bits - 1))%Z by (apply Z.pow_pos_nonneg; lia).
  destruct (_ && _) eqn:Hr; [|lia].
  apply andb_true_iff in Hr as [H1 H2]. lia.
Qed.

Lemma cast_from_same d q : cast_from d d q = cast d q.
Proof. by destruct d. Qed.

Lemma cast_from_zeroQ s d : cast_from s d zeroQ = zeroQ.
Proof. by destruct s, d. Qed.

(** A converted element is an element of the dtype. *)
Lemma cast_cast_from s d q : cast d (cast_from s d q) = cast_from s d q.
Proof.
  destruct s, d; cbn [cast_from]; try apply cast_idem; try done;
    cbn [cast]; rewrite Qtrunc_inject_Z, wrap_in_range;
    done || apply float_to_int_in_range; done.
Qed.

Lemma to_binary64_fits z : fits float64 z → to_binary64 z = z.
Proof.
  cbn [fits]. intros Hz. unfold to_binary64.
  destruct (Z.leb_spec (Z.abs z) (2 ^ 53)); [done|lia].
Qed.

Lemma cast_fits d z : fits d z → cast d (inject_Z z) = inject_Z z.
Proof.
  destruct d; cbn [fits cast]; intros Hz; [| |done];
    rewrite Qtrunc_inject_Z, wrap_in_range; done.
Qed.

Lemma fits_in_long d z : d ≠ float64 → fits d z → in_long z = true.
Proof.
  unfold in_long. destruct d; cbn [fits]; intros Hd Hz; [| |done];
    apply andb_true_iff; split; (apply Z.leb_le || apply Z.ltb_lt); lia.
Qed.

(** An integer that fits is stored as it is. *)
Lemma conv_int_fits d z : fits d z → conv_int d z = Ok (inject_Z z).
Proof.
  intros Hz. destruct d; cbn [conv_int].
  - by rewrite (fits_in_long int32), cast_fits.
  - by rewrite (fits_in_long int64), cast_fits.
  - rewrite to_binary64_fits by done. cbn [fits] in Hz.
    destruct (Z.ltb_spec (Z.abs z) (2 ^ 1024)); [done|].
    assert (2 ^ 53 < 2 ^ 1024)%Z by (apply Z.pow_lt_mono_r; lia). lia.
Qed.

Lemma conv_int_fixed d z q : conv_int d z = Ok q → cast d q = q.
Proof.
  destruct d; cbn [conv_int]; intros H.
  - destruct (in_long z); simplify_eq. exact (cast_idem int32 (inject_Z z)).
  - destruct (in_long z); simplify_eq. exact (cast_idem int64 (inject_Z z)).
  - done.
Qed.

Lemma conv_float_fixed d x q : conv_float d x = Ok q → cast d q = q.
Proof.
  destruct d; cbn [conv_float]; intros H.
  - destruct (in_long _); simplify_eq.
    exact (cast_idem int32 (inject_Z (Qtrunc x))).
  - destruct (in_long _); simplify_eq.
    exact (cast_idem int64 (inject_Z (Qtrunc x))).
  - done.
Qed.

Lemma length_flat_map_const {A B} (f : A → list B) (l : list A) c :
  (∀ x, x ∈ l → length (f x) = c) → length (flat_map f l) = length l * c.
Proof.
  induction l as [|x l IH]; intros Hf; [done|]. simpl.
  rewrite length_app, Hf, IH; [done| |left].
  intros y Hy. apply Hf. by right.
Qed.

Lemma flat_map_ext_elem {A B} (f g : A → list B) (l : list A) :
  (∀ x, x ∈ l → f x = g x) → flat_map f l = flat_map g l.
Proof.
  induction l as [|x l IH]; intros Hf; [done|]. simpl.
  rewrite Hf, IH; [done| |left]. intros y Hy. apply Hf. by right.
Qed.

Lemma flat_map_seq_S {B} (f : nat → list B) n :
  flat_map f (seq 1 n) = flat_map (λ j, f (S j)) (seq 0 n).
Proof.
  rewrite <- fmap_S_seq. generalize (seq 0 n). intros l.
  induction l as [|x l IH]; [done|]. rewrite fmap_cons. simpl flat_map. by rewrite IH.
Qed.

Lemma chunk_S w (l : list Q) j : chunk w l (S j) = chunk w (drop w l) j.
Proof. unfold chunk. by rewrite drop_drop. Qed.

Lemma chunk_0 w (l : list Q) : chunk w l 0 = take w l.
Proof. done. Qed.

Lemma length_chunk w (l : list Q) j :
  (S j) * w ≤ length l → length (chunk w l j) = w.
Proof. intros H. unfold chunk. rewrite length_take, length_drop. lia. Qed.

(** Cutting a list into blocks and gluing them again. *)
Lemma flat_map_chunk (l : list Q) n w :
  length l = n * w → flat_map (chunk w l) (seq 0 n) = l.
Proof.
  revert l. induction n as [|n IH]; intros l Hl.
  - destruct l; [done|]. simpl in Hl. lia.
  - change (seq 0 (S n)) with (0 :: seq 1 n). simpl flat_map.
    rewrite flat_map_seq_S.
    rewrite (flat_map_ext_elem _ (chunk w (drop w l))).
    2:{ intros j _. apply chunk_S. }
    rewrite IH, chunk_0, take_drop; [done|].
    rewrite length_drop. lia.
Qed.

Lemma chunk_app_l w (l k : list Q) j :
  (S j) * w ≤ length l → chunk w (l ++ k) j = chunk w l j.
Proof.
  intros H. unfold chunk. rewrite drop_app_le by lia.
  rewrite take_app_le; [done|]. rewrite length_drop. lia.
Qed.

Lemma chunk_app_r w (l k : list Q) i j :
  length l = i * w → chunk w (l ++ k) (i + j) = chunk w k j.
Proof.
  intros H. unfold chunk.
  replace ((i + j) * w) with (length l + j * w) by lia.
  by rewrite drop_app_add.
Qed.

Lemma size_of_cons n sh : size_of (n :: sh) = n * size_of sh.
Proof. done. Qed.

(** ** Broadcasting *)

Lemma length_broadcast_data src dst data :
  length src = length dst →
  length (broadcast_data src dst data) = size_of dst.
Proof.
  revert dst data. induction src as [|s src IH]; intros [|d dst] data Hlen;
    simplify_eq/=; [done|].
  rewrite (length_flat_map_const _ _ (size_of dst)).
  - by rewrite length_seq.
  - intros j _. by apply IH.
Qed.

Lemma broadcast_data_same sh data :
  length data = size_of sh → broadcast_data sh sh data = data.
Proof.
  revert data. induction sh as [|s sh IH]; intros data Hlen.
  - destruct data as [|q [|??]]; simplify_eq/=. done.
  - simpl. rewrite size_of_cons in Hlen.
    rewrite (flat_map_ext_elem _ (chunk (size_of sh) data)).
    + by apply flat_map_chunk.
    + intros j Hj. apply elem_of_seq in Hj.
      assert ((if s =? 1 then 0 else j) = j) as ->.
      { destruct (Nat.eqb_spec s 1); lia. }
      apply IH, length_chunk. nia.
Qed.

Lemma strip_unit_dims_le ndim s :
  length s ≤ ndim → strip_unit_dims ndim s = s.
Proof.
  intros H. destruct s as [|d s]; [done|]. simpl.
  destruct (Nat.ltb_spec ndim (S (length s))); [simpl in *; lia|done].
Qed.

Lemma dims_compatible_refl sh : dims_compatible sh sh = true.
Proof.
  induction sh as [|s sh IH]; [done|]. simpl.
  by rewrite Nat.eqb_refl, orb_true_r, IH.
Qed.

Lemma broadcast_to_same a dst :
  nd_shape a = dst → length (nd_data a) = size_of dst →
  broadcast_to a dst = Ok (nd_data a).
Proof.
  intros Hs Hl. unfold broadcast_to. rewrite Hs.
  rewrite strip_unit_dims_le by done.
  rewrite Nat.ltb_irrefl, Nat.sub_diag. simpl.
  by rewrite dims_compatible_refl, broadcast_data_same.
Qed.

Lemma length_strip_unit_dims ndim s :
  length (strip_unit_dims ndim s) ≤ length s.
Proof.
  induction s as [|d s IH]; [done|]. simpl.
  destruct ((ndim <? S (length s)) && (d =? 1)); simpl; lia.
Qed.

Lemma length_broadcast_to a dst bd :
  broadcast_to a dst = Ok bd → length bd = size_of dst.
Proof.
  unfold broadcast_to. intros H.
  destruct (Nat.ltb_spec (length dst) (length (strip_unit_dims (length dst) (nd_shape a))));
    [done|].
  destruct (dims_compatible _ _); simplify_eq.
  apply length_broadcast_data. rewrite length_app, length_replicate. lia.
Qed.

(** ** Assignment to a block of rows *)

Lemma rbind_Ok {A B} (m : result A) (k : A → result B) b :
  rbind m k = Ok b ↔ ∃ a, m = Ok a ∧ k a = Ok b.
Proof.
  destruct m; simpl; split.
  - eauto.
  - by intros (? & [= <-] & ?).
  - done.
  - by intros (? & ? & ?).
Qed.

Lemma nd_setitem_rows_zero_tail d n m rest i k v done :
  i < n → length done = i * (m * size_of rest) →
  nd_setitem_rows
    (NdArray d (n :: m :: rest)
       (done ++ replicate ((n - i) * (m * size_of rest)) zeroQ)) i k v
  = let* bd := broadcast_to v (Nat.min k m :: rest) in
    Ok (NdArray d (n :: m :: rest)
          ((done ++ ((cast_from (nd_dtype v) d <$> bd)
                       ++ replicate ((m - Nat.min k m) * size_of rest) zeroQ))
             ++ replicate ((n - S i) * (m * size_of rest)) zeroQ)).
Proof.
  intros Hi Hdone. unfold nd_setitem_rows. simpl.
  destruct (Nat.leb_spec n i) as [Hle|_]; [by apply Nat.lt_nge in Hi|].
  destruct (broadcast_to v _) as [bd|e] eqn:Hbd; [|done]. simpl.
  apply length_broadcast_to in Hbd. rewrite size_of_cons in Hbd.
  do 2 f_equal. set (W := size_of rest) in *.
  rewrite <- Hdone, take_app_length.
  rewrite <- !(assoc_L (++)). do 2 f_equal.
  rewrite drop_app_add, drop_replicate, <- replicate_add.
  f_equal. replace (n - i) with (S (n - S i)) by (clear -Hi; lia).
  rewrite Nat.mul_sub_distr_r. simpl (S _ * _).
  apply Nat.add_sub_swap, Nat.mul_le_mono_r. lia.
Qed.

(** ** The loop over the items *)

Lemma for_enumerate_inv {St} (P : St → Prop)
    (body : nat → pyval → St → result St) items i st st' :
  (∀ i s a a', P a → body i s a = Ok a' → P a') →
  P st → for_enumerate body items i st = Ok st' → P st'.
Proof.
  intros Hbody. revert i st.
  induction items as [|s items IH]; intros i st HP Hrun; simplify_eq/=; [done|].
  apply rbind_Ok in Hrun as (a & Ha & Hrun). eauto.
Qed.

Lemma length_rmapM {A B} (f : A → result B) l l' :
  rmapM f l = Ok l' → length l' = length l.
Proof.
  revert l'. induction l as [|x l IH]; intros l' H; simplify_eq/=; [done|].
  apply rbind_Ok in H as (y & _ & H).
  apply rbind_Ok in H as (ys & Hys & H). simplify_eq/=. f_equal. eauto.
Qed.

Lemma rmapM_Ok_lookup {A B} (f : A → result B) l l' i x :
  rmapM f l = Ok l' → l !! i = Some x → ∃ y, f x = Ok y ∧ l' !! i = Some y.
Proof.
  revert l' i. induction l as [|x' l IH]; intros l' i H Hi; simplify_eq/=.
  apply rbind_Ok in H as (y & Hy & H).
  apply rbind_Ok in H as (ys & Hys & H). simplify_eq/=.
  destruct i as [|i]; simplify_eq/=; eauto.
Qed.

Lemma rmapM_ext {A B} (f g : A → result B) l :
  (∀ x, x ∈ l → f x = g x) → rmapM f l = rmapM g l.
Proof.
  induction l as [|x l IH]; intros H; [done|]. simpl.
  rewrite H, IH; [done| |left]. intros y Hy. apply H. by right.
Qed.

Lemma rmapM_fmap {A B C} (f : B → result C) (g : A → B) l :
  rmapM f (g <$> l) = rmapM (f ∘ g) l.
Proof.
  induction l as [|x l IH]; [done|]. rewrite fmap_cons. simpl. by rewrite IH.
Qed.

Lemma rmapM_all_Ok {A B} (f : A → result B) (g : A → B) l :
  (∀ x, x ∈ l → f x = Ok (g x)) → rmapM f l = Ok (g <$> l).
Proof.
  induction l as [|x l IH]; intros H; [done|]. simpl.
  rewrite H, IH; [done| |left]. intros y Hy. apply H. by right.
Qed.

Lemma rmapM_raises {A B} (f : A → result B) l x :
  x ∈ l → raises (f x) → raises (rmapM f l).
Proof.
  intros Hx [e He]. induction l as [|y l IH]; [by apply elem_of_nil in Hx|].
  simpl. apply elem_of_cons in Hx as [->|Hx].
  - rewrite He. by eexists.
  - destruct (f y); simpl; [|by eexists].
    destruct (IH Hx) as [e' ->]. by eexists.
Qed.

Lemma rmapM_Forall {A B} (f : A → result B) (P : B → Prop) l l' :
  rmapM f l = Ok l' → (∀ x y, f x = Ok y → P y) → Forall P l'.
Proof.
  intros H HP. revert l' H. induction l as [|x l IH]; intros l' H.
  - injection H as <-. constructor.
  - cbn [rmapM] in H. apply rbind_Ok in H as (y & Hy & H).
    apply rbind_Ok in H as (ys & Hys & H). injection H as <-.
    constructor; eauto.
Qed.

Lemma Forall_concat {A} (P : A → Prop) (ls : list (list A)) :
  Forall (Forall P) ls → Forall P (concat ls).
Proof.
  induction 1 as [|l ls Hl _ IH]; [constructor|]. cbn [concat].
  by apply Forall_app.
Qed.

(** Building an array block by block: when the body of the loop writes
    the block [f s] at index [i] of an array whose blocks from [i] on are
    still zero, the loop writes the blocks of all items. *)
Lemma for_enumerate_blocks body (f : pyval → result (list Q)) d sh W n :
  (∀ i s done, i < n → length done = i * W →
     body i s (NdArray d sh (done ++ replicate ((n - i) * W) zeroQ))
     = let* blk := f s in
       Ok (NdArray d sh ((done ++ blk) ++ replicate ((n - S i) * W) zeroQ))) →
  (∀ s blk, f s = Ok blk → length blk = W) →
  ∀ items i done, length done = i * W → i + length items ≤ n →
    for_enumerate body items i
      (NdArray d sh (done ++ replicate ((n - i) * W) zeroQ))
    = let* blks := rmapM f items in
      Ok (NdArray d sh ((done ++ concat blks)
                          ++ replicate ((n - (i + length items)) * W) zeroQ)).
Proof.
  intros Hbody Hlen. induction items as [|s items IH]; intros i done Hdone Hn.
  - simpl. by rewrite app_nil_r, Nat.add_0_r.
  - simpl in *. rewrite Hbody by lia.
    destruct (f s) as [blk|e] eqn:Hf; [|done]. simpl.
    rewrite IH; [|rewrite length_app, (Hlen _ _ Hf); lia|lia].
    destruct (rmapM f items) as [blks|e]; [|done]. simpl.
    rewrite <- !(assoc_L (++)). by rewrite Nat.add_succ_r.
Qed.

Lemma np_array_dtype v d a : np_array v (Some d) = Ok a → nd_dtype a = d.
Proof.
  unfold np_array. intros H. apply rbind_Ok in H as ([[d0 sh] data] & _ & H).
  by injection H as <-.
Qed.

Lemma fmap_cast_from_same d (l : list Q) : cast_from d d <$> l = cast d <$> l.
Proof. apply list_fmap_ext. intros ? q _. apply cast_from_same. Qed.

Lemma length_py_iter v n items :
  py_len v = Ok n → py_iter v = Ok items → length items = n.
Proof.
  destruct v as [| | |s|l|l|a|]; intros; simplify_eq/=; try done.
  - unfold chars. by rewrite length_fmap, length_seq.
  - destruct (nd_shape a); simplify_eq/=. by rewrite length_fmap, length_seq.
Qed.

Lemma length_padded_block m w d s blk :
  padded_block m w d s = Ok blk → length blk = m * w.
Proof.
  unfold padded_block. intros H.
  apply rbind_Ok in H as (sl & _ & H). apply rbind_Ok in H as (v & _ & H).
  apply rbind_Ok in H as (k & _ & H). apply rbind_Ok in H as (bd & Hbd & H).
  simplify_eq. apply length_broadcast_to in Hbd.
  rewrite length_app, length_fmap, length_replicate, Hbd. simpl. nia.
Qed.

Lemma length_padded_row m s blk :
  padded_row m s = Ok blk → length blk = m.
Proof.
  unfold padded_row. intros H.
  apply rbind_Ok in H as (n & _ & H).
  destruct (n =? 0); [simplify_eq; by rewrite length_replicate|].
  apply rbind_Ok in H as (sl & _ & H). apply rbind_Ok in H as (k & _ & H).
  apply rbind_Ok in H as (v & _ & H). apply rbind_Ok in H as (bd & Hbd & H).
  simplify_eq. apply length_broadcast_to in Hbd.
  rewrite length_app, length_fmap, length_replicate, Hbd. simpl. nia.
Qed.

(** [pad_3d_sequence] as a function of its items: the output is the
    concatenation of the padded blocks. *)
Lemma pad_3d_sequence_blocks seqs m w d :
  pad_3d_sequence_dtype seqs m w d
  = let* n := py_len seqs in
    let* items := py_iter seqs in
    let* blks := rmapM (padded_block m w d) items in
    Ok (NdArray d [n; m; w] (concat blks)).
Proof.
  unfold pad_3d_sequence_dtype.
  destruct (py_len seqs) as [n|e] eqn:Hn; [|done]. simpl.
  destruct (py_iter seqs) as [items|e] eqn:Hit; [|done]. simpl.
  pose proof (length_py_iter _ _ _ Hn Hit) as Hlen.
  unfold nd_astype, np_zeros. simpl. rewrite fmap_replicate, cast_from_zeroQ.
  pose proof (for_enumerate_blocks (pad_3d_step m d) (padded_block m w d)
                d [n; m; w] (m * w) n) as Hloop.
  specialize (Hloop) with (items := items) (i := 0) (done := []).
  simpl in Hloop. rewrite Nat.sub_0_r in Hloop.
  replace (n * (m * (w * 1))) with (n * (m * w)) by lia.
  rewrite Hloop; [| |apply length_padded_block|done|lia].
  - destruct (rmapM _ items); [|done]. simpl.
    rewrite Hlen, Nat.sub_diag. simpl. by rewrite app_nil_r.
  - intros i s done Hi Hdone. unfold pad_3d_step, padded_block.
    destruct (py_getslice s _ _) as [sl|]; [|done]. simpl.
    destruct (np_array sl _) as [v|] eqn:Hv; [|done]. simpl.
    apply np_array_dtype in Hv.
    destruct (nd_shape0 v) as [k|]; [|done]. simpl.
    pose proof (nd_setitem_rows_zero_tail d n m [w] i k v done Hi) as Hset.
    simpl in Hset. rewrite !Nat.mul_1_r in Hset. rewrite Hset by done.
    destruct (broadcast_to v _); [|done]. simpl.
    by rewrite Hv, fmap_cast_from_same, <- !(assoc_L (++)).
Qed.

(** [pad_sequences] as a function of its items. *)
Lemma pad_sequences_rows seqs m :
  pad_sequences seqs m
  = let* items := py_iter seqs in
    let* lengths := rmapM py_len items in
    let* n := py_len seqs in
    let* rows := rmapM (padded_row m) items in
    Ok (NdArray int32 [n; m] (concat rows)).
Proof.
  unfold pad_sequences.
  destruct (py_iter seqs) as [items|e] eqn:Hit; [|done]. simpl.
  destruct (rmapM py_len items) as [lens|e]; [|done]. simpl.
  destruct (py_len seqs) as [n|e] eqn:Hn; [|done]. simpl.
  pose proof (length_py_iter _ _ _ Hn Hit) as Hlen.
  unfold nd_astype, np_zeros. simpl. rewrite fmap_replicate.
  change (cast_from float64 int32 zeroQ) with zeroQ.
  pose proof (for_enumerate_blocks (pad_sequences_step m) (padded_row m)
                int32 [n; m] m n) as Hloop.
  specialize (Hloop) with (items := items) (i := 0) (done := []).
  simpl in Hloop. rewrite Nat.sub_0_r in Hloop.
  replace (n * (m * 1)) with (n * m) by lia.
  rewrite Hloop; [| |apply length_padded_row|done|lia].
  - destruct (rmapM _ items); [|done]. simpl.
    rewrite Hlen, Nat.sub_diag. simpl. by rewrite app_nil_r.
  - intros i s done Hi Hdone. unfold pad_sequences_step, padded_row.
    destruct (py_len s) as [l|]; [|done]. simpl.
    destruct (l =? 0).
    { simpl. do 2 f_equal. rewrite <- (assoc_L (++)), <- replicate_add.
      do 2 f_equal. nia. }
    destruct (py_getslice s _ _) as [sl|]; [|done]. simpl.
    destruct (py_len sl) as [k|]; [|done]. simpl.
    destruct (np_array sl _) as [v|] eqn:Hv; [|done]. simpl.
    apply np_array_dtype in Hv.
    pose proof (nd_setitem_rows_zero_tail int32 n m [] i k v done Hi) as Hset.
    simpl in Hset. rewrite !Nat.mul_1_r in Hset. rewrite Hset by done.
    destruct (broadcast_to v _); [|done]. simpl.
    by rewrite Hv, fmap_cast_from_same, <- !(assoc_L (++)).
Qed.

(** ** Nested lists of integers as input *)

Lemma np_discover_list t l :
  np_discover t (PList l) = let* ps := rmapM (np_discover t) l in stack t ps.
Proof.
  simpl. f_equal. induction l as [|x l IH]; [done|]. simpl. by rewrite IH.
Qed.

(** Under an explicit dtype all parts have that dtype. *)
Lemma stack_Some d parts sh :
  parts ≠ [] → Forall (λ p, p.1.1 = d ∧ p.1.2 = sh) parts →
  stack (Some d) parts
  = Ok (d, length parts :: sh, concat ((λ p, p.2) <$> parts)).
Proof.
  intros Hne Hsh. destruct parts as [|[[d0 sh0] data0] rest]; [done|].
  apply Forall_cons in Hsh as [[Hd0 Hsh0] Hsh]. simpl in Hd0, Hsh0. subst d0 sh0.
  cbn [stack]. rewrite (proj2 (forallb_forall _ _)).
  - do 3 f_equal. clear -Hsh.
    induction Hsh as [|p rest [Hp _] _ IH]; [done|].
    cbn [foldr]. rewrite IH, Hp. by destruct d.
  - intros p Hp. apply bool_decide_eq_true.
    rewrite Forall_forall in Hsh. by apply Hsh, list_elem_of_In.
Qed.

Lemma concat_singletons {A B} (g : A → B) (l : list A) :
  concat ((λ x, [g x]) <$> l) = g <$> l.
Proof.
  induction l as [|x l IH]; [done|]. rewrite !fmap_cons. simpl. by rewrite IH.
Qed.

(** A list of Python integers under the dtype [d]. *)
Lemma np_discover_vec d r :
  np_discover (Some d) (py_vec r)
  = let* data := rmapM (conv_int d) r in Ok (d, [length r], data).
Proof.
  unfold py_vec. rewrite np_discover_list, rmapM_fmap.
  assert (rmapM (np_discover (Some d) ∘ PInt) r
          = let* data := rmapM (conv_int d) r in
            Ok ((λ q, (d, @nil nat, [q])) <$> data)) as ->.
  { induction r as [|z r IH]; [done|]. cbn [rmapM].
    change ((np_discover (Some d) ∘ PInt) z)
      with (let* q := conv_int d z in Ok (d, @nil nat, [q])).
    destruct (conv_int d z) as [q|e]; [|done]. cbn [rbind]. rewrite IH.
    by destruct (rmapM (conv_int d) r). }
  destruct (rmapM (conv_int d) r) as [data|e] eqn:Hdata; [|done]. cbn [rbind].
  apply length_rmapM in Hdata.
  destruct data as [|q data].
  { destruct r; [done|]. cbn in Hdata. lia. }
  rewrite (stack_Some d _ []).
  - rewrite length_fmap, Hdata, <- list_fmap_compose. do 3 f_equal.
    change (concat ((λ q0 : Q, [id q0]) <$> (q :: data)) = q :: data).
    by rewrite concat_singletons, list_fmap_id.
  - done.
  - by apply Forall_fmap, Forall_true.
Qed.

(** A list of vectors of width [w] under the dtype [d]. *)
Lemma np_discover_seq d w s :
  Forall (λ r, length r = w) s → s ≠ [] →
  np_discover (Some d) (py_seq s)
  = let* rows := rmapM (rmapM (conv_int d)) s in
    Ok (d, [length s; w], concat rows).
Proof.
  intros Hw Hne. unfold py_seq. rewrite np_discover_list, rmapM_fmap.
  assert (rmapM (np_discover (Some d) ∘ py_vec) s
          = let* rows := rmapM (rmapM (conv_int d)) s in
            Ok ((λ row, (d, [w], row)) <$> rows)) as ->.
  { clear Hne. induction Hw as [|r s Hr _ IH]; [done|]. cbn [rmapM].
    change ((np_discover (Some d) ∘ py_vec) r)
      with (np_discover (Some d) (py_vec r)).
    rewrite np_discover_vec, Hr.
    destruct (rmapM (conv_int d) r) as [row|e]; [|done]. cbn [rbind].
    rewrite IH. by destruct (rmapM (rmapM (conv_int d)) s). }
  destruct (rmapM (rmapM (conv_int d)) s) as [rows|e] eqn:Hrows; [|done].
  cbn [rbind]. apply length_rmapM in Hrows.
  rewrite (stack_Some d _ [w]).
  - rewrite length_fmap, Hrows, <- list_fmap_compose.
    do 3 f_equal. by rewrite list_fmap_id.
  - intros Hnil. apply fmap_nil_inv in Hnil. subst rows.
    destruct s; [done|]. cbn in Hrows. lia.
  - by apply Forall_fmap, Forall_true.
Qed.

Lemma np_array_seq d w s :
  Forall (λ r, length r = w) s → s ≠ [] →
  np_array (py_seq s) (Some d)
  = let* rows := rmapM (rmapM (conv_int d)) s in
    Ok (NdArray d [length s; w] (concat rows)).
Proof.
  intros Hw Hne. unfold np_array. rewrite (np_discover_seq d w) by done.
  by destruct (rmapM _ s).
Qed.

(** Integers that fit the dtype are stored as they are. *)
Lemma conv_rows_fits d s :
  Forall (Forall (fits d)) s → rmapM (rmapM (conv_int d)) s = Ok (qs <$> s).
Proof.
  intros H. apply rmapM_all_Ok. intros r Hr.
  rewrite Forall_forall in H. specialize (H r Hr).
  apply rmapM_all_Ok. intros z Hz. apply conv_int_fits.
  rewrite Forall_forall in H. by apply H.
Qed.

Lemma conv_rows_widths d w s rows :
  Forall (λ r, length r = w) s → rmapM (rmapM (conv_int d)) s = Ok rows →
  Forall (λ row : list Q, length row = w) rows.
Proof.
  intros Hw. revert rows. induction Hw as [|r s Hr _ IH]; intros rows H.
  - injection H as <-. constructor.
  - cbn [rmapM] in H. apply rbind_Ok in H as (row & Hrow & H).
    apply rbind_Ok in H as (rows' & Hrows & H). injection H as <-.
    constructor; [|by apply IH]. apply length_rmapM in Hrow. congruence.
Qed.

Lemma conv_rows_fixed d s rows :
  rmapM (rmapM (conv_int d)) s = Ok rows →
  Forall (Forall (λ q, cast d q = q)) rows.
Proof.
  intros H. eapply rmapM_Forall; [exact H|]. intros r row Hrow.
  eapply rmapM_Forall; [exact Hrow|]. intros z q. apply conv_int_fixed.
Qed.

Lemma slice_list_last {A} (l : list A) m :
  slice_list l (Some (- Z.of_nat m)%Z) None
  = if m =? 0 then l else drop (length l - m) l.
Proof.
  unfold slice_list, slice_bounds, slice_clip. simpl.
  destruct (Nat.eqb_spec m 0) as [->|Hm]; simpl.
  - rewrite drop_0, Nat.sub_0_r. by rewrite take_ge.
  - destruct (Z.ltb_spec (- Z.of_nat m) 0); [|lia].
    replace (Z.to_nat (Z.max (Z.of_nat (length l) + - Z.of_nat m) 0))
      with (length l - m) by lia.
    rewrite take_ge; [done|]. rewrite length_drop. lia.
Qed.

Lemma concat_replicate_replicate {A} n w (x : A) :
  concat (replicate n (replicate w x)) = replicate (n * w) x.
Proof.
  induction n as [|n IH]; [done|]. simpl. by rewrite IH, replicate_add.
Qed.

Lemma length_concat_uniform {A} (ls : list (list A)) w :
  Forall (λ r, length r = w) ls → length (concat ls) = length ls * w.
Proof.
  induction 1 as [|r ls Hr _ IH]; [done|]. simpl.
  rewrite length_app, Hr, IH. done.
Qed.

Lemma chunk_concat_lookup (ls : list (list Q)) w i r :
  Forall (λ r, length r = w) ls → ls !! i = Some r →
  chunk w (concat ls) i = r.
Proof.
  intros Hw. revert i. induction Hw as [|r' ls Hr Hw IH]; intros i Hi; [done|].
  cbn [concat]. destruct i as [|i]; cbn [lookup list_lookup] in Hi.
  - injection Hi as ->. rewrite chunk_0, <- Hr. apply take_app_length.
  - rewrite chunk_S, <- Hr, drop_app_length. rewrite Hr. by apply IH.
Qed.

Lemma chunks_concat_rows (rows : list (list Q)) w :
  Forall (λ r, length r = w) rows →
  (λ j, chunk w (concat rows) j) <$> seq 0 (length rows) = rows.
Proof.
  intros Hw. apply list_eq. intros j. rewrite list_lookup_fmap.
  destruct (rows !! j) as [r|] eqn:Hj.
  - rewrite (lookup_seq_lt _ _ _ ) by (by eapply lookup_lt_Some). simpl.
    f_equal. by eapply chunk_concat_lookup.
  - apply lookup_ge_None in Hj. by rewrite lookup_seq_ge.
Qed.

Lemma length_concat_qs w (t : list (list Z)) :
  Forall (λ r, length r = w) t → length (concat (qs <$> t)) = length t * w.
Proof.
  intros H. rewrite (length_concat_uniform _ w), length_fmap; [done|].
  apply Forall_fmap. eapply Forall_impl; [exact H|].
  intros r Hr. simpl. unfold qs. by rewrite length_fmap.
Qed.

Lemma qs_widths w (t : list (list Z)) :
  Forall (λ r, length r = w) t → Forall (λ r : list Q, length r = w) (qs <$> t).
Proof.
  intros H. apply Forall_fmap. eapply Forall_impl; [exact H|].
  intros r Hr. simpl. unfold qs. by rewrite length_fmap.
Qed.

Lemma qs_fixed d (t : list (list Z)) :
  Forall (Forall (fits d)) t → Forall (λ q, cast d q = q) (concat (qs <$> t)).
Proof.
  intros H. apply Forall_concat, Forall_fmap.
  eapply Forall_impl; [exact H|]. intros r Hr. simpl. unfold qs.
  apply Forall_fmap. eapply Forall_impl; [exact Hr|].
  intros z Hz. simpl. by apply cast_fits.
Qed.

(** The block of a sequence given as a list of vectors of width [w]:
    the general form, with the conversion of the integers. *)
Lemma padded_block_list_conv m w d s :
  Forall (λ r, length r = w) s → s ≠ [] → 0 < m →
  padded_block m w d (py_seq s)
  = let* rows := rmapM (rmapM (conv_int d)) (drop (length s - m) s) in
    Ok (concat (rows ++ replicate (m - Nat.min (length s) m)
                          (replicate w zeroQ))).
Proof.
  intros Hw Hne Hm. unfold padded_block, py_seq. cbn [py_getslice rbind].
  rewrite slice_list_last, length_fmap.
  destruct (Nat.eqb_spec m 0) as [->|_]; [lia|].
  rewrite <- fmap_drop. fold (py_seq (drop (length s - m) s)).
  set (t := drop (length s - m) s).
  assert (Forall (λ r, length r = w) t) as Hwt by (by apply Forall_drop).
  assert (length t = Nat.min (length s) m) as Hlt.
  { unfold t. rewrite length_drop. lia. }
  assert (t ≠ []) as Hnt.
  { assert (0 < length t) as Hpos.
    { rewrite Hlt. destruct s; [done|]. cbn [length]. lia. }
    intros Ht. rewrite Ht in Hpos. cbn [length] in Hpos. lia. }
  rewrite (np_array_seq d w) by done.
  destruct (rmapM (rmapM (conv_int d)) t) as [rows|e] eqn:Hrows; [|done].
  cbn [rbind nd_shape0 nd_shape].
  pose proof (conv_rows_widths _ _ _ _ Hwt Hrows) as Hwr.
  pose proof (conv_rows_fixed _ _ _ Hrows) as Hfix.
  pose proof (length_rmapM _ _ _ Hrows) as Hlr.
  replace (Nat.min (length t) m) with (length t) by lia.
  rewrite broadcast_to_same.
  - cbn [rbind nd_data]. rewrite <- Hlt.
    rewrite concat_app, concat_replicate_replicate.
    do 2 f_equal. apply cast_fixed_fmap. by apply Forall_concat.
  - done.
  - cbn. by rewrite Nat.mul_1_r, (length_concat_uniform _ w), Hlr.
Qed.

(** With [m = 0] the slice [seq[-0:]] is the whole sequence: only a
    sequence of one vector can be assigned to the zero rows. *)
Lemma padded_block_list_0 w d s :
  Forall (λ r, length r = w) s → s ≠ [] →
  Forall (Forall (fits d)) s →
  is_Ok (padded_block 0 w d (py_seq s)) ↔ length s ≤ 1.
Proof.
  intros Hw Hne Hfit. unfold padded_block, py_seq. cbn [py_getslice rbind].
  rewrite slice_list_last. cbn [Nat.eqb]. fold (py_seq s).
  rewrite (np_array_seq d w), conv_rows_fits by done.
  cbn. destruct (length s) as [|[|k]] eqn:Hk; cbn.
  - by destruct s.
  - rewrite Nat.eqb_refl, orb_true_r. cbn. split; [lia|by eexists].
  - split; [by intros [? ?]|lia].
Qed.

(** The block of a sequence of integers that fit the dtype. *)
Lemma padded_block_list m w d s blk :
  Forall (λ r, length r = w) s → Forall (Forall (fits d)) s →
  padded_block m w d (py_seq s) = Ok blk →
  blk = concat ((qs <$> drop (length s - m) s)
                  ++ replicate (m - Nat.min (length s) m) (replicate w zeroQ)).
Proof.
  intros Hw Hfit. destruct s as [|r0 s'] eqn:Hs.
  { (* the empty list has shape (0,) *)
    unfold padded_block, py_seq. cbn [py_getslice rbind fmap list_fmap].
    rewrite slice_list_last.
    replace (if m =? 0 then _ else _) with (@nil pyval) by (by destruct (m =? 0)).
    rewrite concat_app, concat_replicate_replicate.
    cbn. destruct w as [|w]; [|done]. cbn. intros [= <-].
    by rewrite Nat.mul_0_r. }
  rewrite <- Hs in *. assert (s ≠ []) as Hne by (by subst).
  clear Hs r0 s'.
  destruct (Nat.eqb_spec m 0) as [->|Hm].
  - intros Hblk.
    assert (length s ≤ 1) as Hlen.
    { apply (padded_block_list_0 w d s); [done..|by eexists]. }
    revert Hblk. unfold padded_block, py_seq. cbn [py_getslice rbind].
    rewrite slice_list_last. cbn [Nat.eqb]. fold (py_seq s).
    rewrite (np_array_seq d w), conv_rows_fits by done.
    rewrite Nat.min_0_r, !Nat.sub_0_r, drop_all. cbn.
    destruct (length s) as [|[|k]] eqn:Hk; cbn; [by destruct s| |lia].
    rewrite Nat.eqb_refl, orb_true_r. cbn. by intros [= <-].
  - rewrite padded_block_list_conv by (done || lia).
    rewrite conv_rows_fits by (by apply Forall_drop). cbn [rbind].
    by intros [= <-].
Qed.

(** A non-empty sequence of vectors of width [w] that fit the dtype
    always has a block when [m] is positive. *)
Lemma padded_block_list_Ok m w d s :
  Forall (λ r, length r = w) s → Forall (Forall (fits d)) s →
  s ≠ [] → 0 < m →
  is_Ok (padded_block m w d (py_seq s)).
Proof.
  intros Hw Hfit Hne Hm. rewrite padded_block_list_conv by done.
  rewrite conv_rows_fits by (by apply Forall_drop). by eexists.
Qed.

(** An empty Python list has shape [(0,)], which does not broadcast to
    [(0, w)] for a positive [w]. *)
Lemma padded_block_empty_list m w d :
  0 < w → padded_block m w d (PList []) = Raise ValueError.
Proof.
  intros Hw. unfold padded_block. cbn [py_getslice rbind].
  rewrite slice_list_last.
  replace (if m =? 0 then _ else _) with (@nil pyval) by (by destruct (m =? 0)).
  cbn. destruct w; [lia|done].
Qed.

Lemma rmapM_is_Ok {A B} (f : A → result B) l :
  (∀ x, x ∈ l → is_Ok (f x)) → is_Ok (rmapM f l).
Proof.
  induction l as [|x l IH]; intros H; [by eexists|]. cbn [rmapM].
  destruct (H x) as [y ->]; [left|]. destruct IH as [ys ->].
  - intros z Hz. apply H. by right.
  - by eexists.
Qed.

Lemma padded_block_fixed m w d s blk :
  padded_block m w d s = Ok blk → Forall (λ q, cast d q = q) blk.
Proof.
  unfold padded_block. intros H.
  apply rbind_Ok in H as (sl & _ & H). apply rbind_Ok in H as (v & _ & H).
  apply rbind_Ok in H as (k & _ & H). apply rbind_Ok in H as (bd & _ & H).
  injection H as <-. apply Forall_app. split.
  - apply Forall_cast_fixed_fmap.
  - apply Forall_cast_fixed_zeros.
Qed.

Lemma padded_row_fixed m s row :
  padded_row m s = Ok row → Forall (λ q, cast int32 q = q) row.
Proof.
  unfold padded_row. intros H. apply rbind_Ok in H as (n & _ & H).
  destruct (n =? 0).
  { injection H as <-. apply Forall_cast_fixed_zeros. }
  apply rbind_Ok in H as (sl & _ & H). apply rbind_Ok in H as (k & _ & H).
  apply rbind_Ok in H as (v & _ & H). apply rbind_Ok in H as (bd & _ & H).
  injection H as <-. apply Forall_app. split.
  - apply Forall_cast_fixed_fmap.
  - apply Forall_cast_fixed_zeros.
Qed.

(** What a successful call of [pad_3d_sequence] returns. *)
Lemma pad_3d_sequence_Ok_inv seqs m w d out :
  pad_3d_sequence_dtype seqs m w d = Ok out →
  ∃ n items blks,
    py_len seqs = Ok n ∧ py_iter seqs = Ok items ∧ length items = n ∧
    rmapM (padded_block m w d) items = Ok blks ∧
    Forall (λ blk, length blk = m * w) blks ∧
    Forall (Forall (λ q, cast d q = q)) blks ∧
    out = NdArray d [n; m; w] (concat blks).
Proof.
  rewrite pad_3d_sequence_blocks. intros H.
  apply rbind_Ok in H as (n & Hn & H). apply rbind_Ok in H as (items & Hit & H).
  apply rbind_Ok in H as (blks & Hblks & H). injection H as <-.
  exists n, items, blks. repeat split; try done.
  - by eapply length_py_iter.
  - eapply rmapM_Forall; [done|]. apply length_padded_block.
  - eapply rmapM_Forall; [done|]. apply padded_block_fixed.
Qed.

Lemma pad_sequences_Ok_inv seqs m out :
  pad_sequences seqs m = Ok out →
  ∃ n items rows,
    py_len seqs = Ok n ∧ py_iter seqs = Ok items ∧ length items = n ∧
    rmapM (padded_row m) items = Ok rows ∧
    Forall (λ row, length row = m) rows ∧
    Forall (Forall (λ q, cast int32 q = q)) rows ∧
    out = NdArray int32 [n; m] (concat rows).
Proof.
  rewrite pad_sequences_rows. intros H.
  apply rbind_Ok in H as (items & Hit & H). apply rbind_Ok in H as (lens & _ & H).
  apply rbind_Ok in H as (n & Hn & H).
  apply rbind_Ok in H as (rows & Hrows & H). injection H as <-.
  exists n, items, rows. repeat split; try done.
  - by eapply length_py_iter.
  - eapply rmapM_Forall; [done|]. apply length_padded_row.
  - eapply rmapM_Forall; [done|]. apply padded_row_fixed.
Qed.

(** The rows that [pad_3d_sequence] writes for a list of vectors. *)
Lemma pad_3d_sequence_list_rows ss m w d out i s :
  Forall (Forall (λ r, length r = w)) ss →
  Forall (Forall (Forall (fits d))) ss →
  pad_3d_sequence_dtype (py_seqs ss) m w d = Ok out →
  ss !! i = Some s →
  nd_rows (nd_sub out i)
  = (qs <$> drop (length s - m) s)
      ++ replicate (m - Nat.min (length s) m) (replicate w zeroQ).
Proof.
  intros Hw Hfit Hout Hi.
  apply pad_3d_sequence_Ok_inv in Hout
    as (n & items & blks & Hn & Hit & Hlen & Hblks & Hbl & _ & ->).
  injection Hit as <-.
  assert ((py_seq <$> ss) !! i = Some (py_seq s)) as Hi'.
  { by rewrite list_lookup_fmap, Hi. }
  destruct (rmapM_Ok_lookup _ _ _ _ _ Hblks Hi') as (blk & Hblk & Hbi).
  rewrite Forall_forall in Hw, Hfit.
  assert (Forall (λ r, length r = w) s) as Hws.
  { apply Hw. by eapply list_elem_of_lookup_2. }
  assert (Forall (Forall (fits d)) s) as Hfs.
  { apply Hfit. by eapply list_elem_of_lookup_2. }
  apply padded_block_list in Hblk; [|done..].
  unfold nd_sub, nd_rows. cbn [nd_shape nd_data nd_dtype tail size_of foldr].
  rewrite Nat.mul_1_r, (chunk_concat_lookup _ _ _ _ Hbl Hbi), Hblk.
  set (rows := (qs <$> _) ++ _).
  assert (length rows = m) as Hrows.
  { unfold rows.
    rewrite length_app, length_fmap, length_drop, length_replicate. lia. }
  rewrite <- Hrows at 1. apply chunks_concat_rows.
  unfold rows. apply Forall_app. split.
  - by apply qs_widths, Forall_drop.
  - apply Forall_replicate, length_replicate.
Qed.

Lemma pad_3d_sequence_list_Ok ss m w d :
  Forall (Forall (λ r, length r = w)) ss →
  Forall (Forall (Forall (fits d))) ss →
  Forall (λ s, s ≠ []) ss → 0 < m →
  is_Ok (pad_3d_sequence_dtype (py_seqs ss) m w d).
Proof.
  intros Hw Hfit Hne Hm. rewrite pad_3d_sequence_blocks. cbn [py_seqs py_len py_iter rbind].
  destruct (rmapM_is_Ok (padded_block m w d) (py_seq <$> ss)) as [blks ->];
    [|by eexists].
  intros x Hx. apply list_elem_of_fmap in Hx as (s & -> & Hs).
  rewrite Forall_forall in Hw, Hfit, Hne.
  apply padded_block_list_Ok; auto.
Qed.


(** ** Padding what is already padded *)

Lemma nd_slice_last_all d m rest data :
  length data = m * size_of rest →
  nd_slice (NdArray d (m :: rest) data) (Some (- Z.of_nat m)%Z) None
  = Ok (NdArray d (m :: rest) data).
Proof.
  intros Hlen. unfold nd_slice, slice_bounds, slice_clip.
  cbn [nd_shape nd_dtype nd_data from_option].
  assert ((if (- Z.of_nat m <? 0)%Z
           then Z.to_nat (Z.max (Z.of_nat m + - Z.of_nat m) 0)
           else Nat.min (Z.to_nat (- Z.of_nat m)) m) = 0) as ->.
  { destruct (Z.ltb_spec (- Z.of_nat m) 0); lia. }
  rewrite Nat.sub_0_r, drop_0, take_ge; [done|]. by rewrite Hlen.
Qed.

(** A block that [pad_3d_sequence] wrote is padded to itself. *)
Lemma padded_block_array m w d blk :
  length blk = m * w → Forall (λ q, cast d q = q) blk →
  padded_block m w d (PArr (NdArray d [m; w] blk)) = Ok blk.
Proof.
  intros Hlen Hfix. unfold padded_block. cbn [py_getslice].
  rewrite nd_slice_last_all by (cbn; lia). cbn [rbind].
  unfold np_array. cbn [np_discover rbind default nd_dtype nd_shape nd_data nd_shape0].
  rewrite Nat.min_id, Nat.sub_diag, broadcast_to_same.
  - cbn. unfold id.
    by rewrite app_nil_r, fmap_cast_from_same, !(cast_fixed_fmap _ blk).
  - done.
  - cbn. unfold id. rewrite length_fmap. lia.
Qed.

(** A row that [pad_sequences] wrote is padded to itself. *)
Lemma padded_row_array m row :
  length row = m → Forall (λ q, cast int32 q = q) row →
  padded_row m (PArr (NdArray int32 [m] row)) = Ok row.
Proof.
  intros Hlen Hfix. unfold padded_row. cbn [py_len nd_shape rbind].
  destruct (Nat.eqb_spec m 0) as [->|Hm].
  { by destruct row. }
  cbn [py_getslice].
  rewrite nd_slice_last_all by (cbn; lia). cbn [rbind py_len nd_shape].
  unfold np_array. cbn [np_discover rbind default nd_dtype nd_shape nd_data].
  rewrite Nat.min_id, Nat.sub_diag, broadcast_to_same.
  - cbn. unfold id.
    change (cast_from int32 int32 <$> row) with (cast int32 <$> row).
    by rewrite app_nil_r, !(cast_fixed_fmap _ row).
  - done.
  - cbn. unfold id. rewrite length_fmap. lia.
Qed.

Lemma Forall_chunk (P : Q → Prop) w data j :
  Forall P data → Forall P (chunk w data j).
Proof. intros H. unfold chunk. by apply Forall_take, Forall_drop. Qed.

Lemma concat_chunks w n (data : list Q) :
  length data = n * w → concat (chunk w data <$> seq 0 n) = data.
Proof.
  intros H. rewrite <- (flat_map_chunk data n w H) at 2.
  by rewrite flat_map_concat_map.
Qed.

Lemma pad_3d_sequence_array n m w d data :
  length data = n * (m * w) → Forall (λ q, cast d q = q) data →
  pad_3d_sequence_dtype (PArr (NdArray d [n; m; w] data)) m w d
  = Ok (NdArray d [n; m; w] data).
Proof.
  intros Hlen Hfix. rewrite pad_3d_sequence_blocks.
  cbn [py_len py_iter nd_shape rbind]. rewrite rmapM_fmap.
  rewrite (rmapM_all_Ok _ (chunk (m * w) data)).
  - cbn [rbind]. by rewrite concat_chunks.
  - intros j Hj. apply elem_of_seq in Hj. unfold compose, nd_sub.
    cbn [nd_shape nd_dtype nd_data tail size_of foldr].
    rewrite Nat.mul_1_r. apply padded_block_array.
    + apply length_chunk. rewrite Hlen. apply Nat.mul_le_mono_r. lia.
    + by apply Forall_chunk.
Qed.

(** [pad_3d_sequence] is idempotent. *)
Lemma pad_3d_sequence_idem v m w out :
  pad_3d_sequence v m w = Ok out → pad_3d_sequence (PArr out) m w = Ok out.
Proof.
  unfold pad_3d_sequence. intros H.
  apply pad_3d_sequence_Ok_inv in H
    as (n & items & blks & _ & _ & Hn & Hblks & Hlen & Hfix & ->).
  apply length_rmapM in Hblks.
  apply pad_3d_sequence_array.
  - rewrite (length_concat_uniform _ _ Hlen). congruence.
  - by apply Forall_concat.
Qed.

Lemma pad_sequences_array n m data :
  length data = n * m → Forall (λ q, cast int32 q = q) data →
  pad_sequences (PArr (NdArray int32 [n; m] data)) m
  = Ok (NdArray int32 [n; m] data).
Proof.
  intros Hlen Hfix. rewrite pad_sequences_rows.
  cbn [py_len py_iter nd_shape rbind]. rewrite !rmapM_fmap.
  rewrite (rmapM_all_Ok (py_len ∘ _) (λ _, m)) by done. cbn [rbind].
  rewrite (rmapM_all_Ok _ (chunk m data)).
  - cbn [rbind]. by rewrite concat_chunks.
  - intros j Hj. apply elem_of_seq in Hj. unfold compose, nd_sub.
    cbn [nd_shape nd_dtype nd_data tail size_of foldr].
    rewrite Nat.mul_1_r. apply padded_row_array.
    + apply length_chunk. rewrite Hlen. apply Nat.mul_le_mono_r. lia.
    + by apply Forall_chunk.
Qed.

(** [pad_sequences] is idempotent. *)
Lemma pad_sequences_idem v m out :
  pad_sequences v m = Ok out → pad_sequences (PArr out) m = Ok out.
Proof.
  intros H.
  apply pad_sequences_Ok_inv in H
    as (n & items & rows & _ & _ & Hn & Hrows & Hlen & Hfix & ->).
  apply length_rmapM in Hrows.
  apply pad_sequences_array.
  - rewrite (length_concat_uniform _ _ Hlen). congruence.
  - by apply Forall_concat.
Qed.

(** [np.array] of an array is a copy of it. *)
Lemma np_array_idem v out :
  np_array v None = Ok out → np_array (PArr out) None = Ok out.
Proof.
  unfold np_array. intros H. apply rbind_Ok in H as ([[d0 sh] data] & _ & H).
  by injection H as <-.
Qed.

(** ** [pad_graph] on a dictionary object *)

Lemma upd_Ok d k f d' :
  upd d k f = Ok d' ↔ ∃ v a, d !! k = Some v ∧ f v = Ok a ∧ d' = <[k := PArr a]> d.
Proof.
  unfold upd. destruct (d !! k) as [v|].
  - destruct (f v) as [a|e] eqn:Hf; cbn; split.
    + intros [= <-]. eauto.
    + intros (v' & a' & [= <-] & Hf' & ->). congruence.
    + done.
    + intros (v' & a' & [= <-] & Hf' & _). congruence.
  - split; [done|]. by intros (? & ? & ? & _).
Qed.

Lemma upd_same_outside ks d k f d' :
  upd d k f = Ok d' → k ∈ ks → same_outside ks d d'.
Proof.
  intros (v & a & _ & _ & ->)%upd_Ok Hk k' Hk'.
  apply lookup_insert_ne. intros ->. done.
Qed.

Lemma same_outside_refl ks d : same_outside ks d d.
Proof. by intros k _. Qed.

Lemma same_outside_trans ks d1 d2 d3 :
  same_outside ks d1 d2 → same_outside ks d2 d3 → same_outside ks d1 d3.
Proof. intros H12 H23 k Hk. by rewrite H23, H12. Qed.

(** A dictionary whose entry is already the result is left as it is. *)
Lemma upd_fixed d k f a :
  d !! k = Some (PArr a) → f (PArr a) = Ok a → upd d k f = Ok d.
Proof.
  intros Hk Hf. unfold upd. rewrite Hk, Hf. cbn. by rewrite insert_id.
Qed.

Lemma bind_update_entry r k f (m : M unit) (h : heap) d :
  h !! r = Some d →
  (do* _ := update_entry (PRef r) k f in m) h
  = match upd d k f with
    | Ok d' => m (<[r := d']> h)
    | Raise e => (Raise e, h)
    end.
Proof.
  intros Hr. unfold mbind', update_entry, mbind', py_getitem, py_setitem, lift, upd.
  rewrite Hr. destruct (d !! k) as [v|]; [|done].
  destruct (f v) as [a|e]; cbn; [|done]. by rewrite Hr.
Qed.

Lemma update_entry_ref r k f (h : heap) d :
  h !! r = Some d →
  update_entry (PRef r) k f h
  = match upd d k f with
    | Ok d' => (Ok (), <[r := d']> h)
    | Raise e => (Raise e, h)
    end.
Proof.
  intros Hr. unfold update_entry, mbind', py_getitem, py_setitem, lift, upd.
  rewrite Hr. destruct (d !! k) as [v|]; [|done].
  destruct (f v) as [a|e]; cbn; [|done]. by rewrite Hr.
Qed.

Lemma update_entry_Ok_ref gr k f (h : heap) :
  update_entry gr k f h = (Raise TypeError, h)
  ∨ ∃ r d, gr = PRef r ∧ h !! r = Some d.
Proof.
  destruct gr as [| | | | | | |r]; try (by left).
  destruct (h !! r) as [d|] eqn:Hr; [right; eauto|left].
  unfold update_entry, mbind', py_getitem. by rewrite Hr.
Qed.

Section PadGraph.

Variable flagsdim : nat.

(** [pad_graph] runs [pad_dict] on the dictionary that [gr] refers to and
    stores every intermediate dictionary under the same reference. *)
Lemma pad_graph_ref r (h : heap) d s0pad s1pad :
  h !! r = Some d →
  ∃ d', same_outside padded_keys d d' ∧
    pad_graph flagsdim (PRef r) s0pad s1pad h
    = (match pad_dict flagsdim s0pad s1pad d with
       | Ok _ => Ok ()
       | Raise e => Raise e
       end, <[r := d']> h) ∧
    (∀ d'', pad_dict flagsdim s0pad s1pad d = Ok d'' → d'' = d').
Proof.
  intros Hr. unfold pad_graph, pad_dict.
  assert (∀ k : string, k ∈ padded_keys ↔
            k = "si0" ∨ k = "si1" ∨ k = "f0" ∨ k = "f1" ∨ k = "score") as Hkeys.
  { intros k. unfold padded_keys. rewrite !elem_of_cons, elem_of_nil. tauto. }
  rewrite (bind_update_entry _ _ _ _ _ _ Hr).
  destruct (upd d "si0" _) as [d1|e] eqn:H1; cbn [rbind].
  2:{ exists d. rewrite insert_id by done.
      split; [apply same_outside_refl|by split]. }
  assert (same_outside padded_keys d d1) as S1.
  { eapply upd_same_outside; [done|]. apply Hkeys. tauto. }
  rewrite (bind_update_entry _ _ _ _ _ d1) by apply lookup_insert_eq.
  destruct (upd d1 "si1" _) as [d2|e] eqn:H2; cbn [rbind].
  2:{ exists d1. by repeat split. }
  rewrite insert_insert_eq.
  assert (same_outside padded_keys d d2) as S2.
  { eapply same_outside_trans; [done|].
    eapply upd_same_outside; [done|]. apply Hkeys. tauto. }
  rewrite (bind_update_entry _ _ _ _ _ d2) by apply lookup_insert_eq.
  destruct (upd d2 "f0" _) as [d3|e] eqn:H3; cbn [rbind].
  2:{ exists d2. by repeat split. }
  rewrite insert_insert_eq.
  assert (same_outside padded_keys d d3) as S3.
  { eapply same_outside_trans; [done|].
    eapply upd_same_outside; [done|]. apply Hkeys. tauto. }
  rewrite (bind_update_entry _ _ _ _ _ d3) by apply lookup_insert_eq.
  destruct (upd d3 "f1" _) as [d4|e] eqn:H4; cbn [rbind].
  2:{ exists d3. by repeat split. }
  rewrite insert_insert_eq.
  assert (same_outside padded_keys d d4) as S4.
  { eapply same_outside_trans; [done|].
    eapply upd_same_outside; [done|]. apply Hkeys. tauto. }
  rewrite (update_entry_ref _ _ _ _ d4) by apply lookup_insert_eq.
  destruct (upd d4 "score" _) as [d5|e] eqn:H5.
  2:{ exists d4. by repeat split. }
  rewrite insert_insert_eq.
  exists d5. split; [|split; [done|by intros ? [= <-]]].
  eapply same_outside_trans; [done|].
  eapply upd_same_outside; [done|]. apply Hkeys. tauto.
Qed.

(** A successful [pad_graph] was given a reference to a dictionary. *)
Lemma pad_graph_Ok_ref gr s0pad s1pad (h h' : heap) u :
  pad_graph flagsdim gr s0pad s1pad h = (Ok u, h') →
  ∃ r d, gr = PRef r ∧ h !! r = Some d.
Proof.
  intros H. unfold pad_graph in H. unfold mbind' at 1 in H.
  destruct (update_entry_Ok_ref gr "si0" (λ v, pad_sequences v s0pad) h)
    as [He|Hr]; [|done].
  by rewrite He in H.
Qed.

Lemma pad_graph_Ok r (h h' : heap) d s0pad s1pad u :
  h !! r = Some d →
  pad_graph flagsdim (PRef r) s0pad s1pad h = (Ok u, h') →
  ∃ d', pad_dict flagsdim s0pad s1pad d = Ok d' ∧ h' = <[r := d']> h.
Proof.
  intros Hr Hrun.
  destruct (pad_graph_ref r h d s0pad s1pad Hr) as (d' & _ & Heq & Hd').
  rewrite Heq in Hrun.
  destruct (pad_dict flagsdim s0pad s1pad d) as [d''|e] eqn:Hpd; [|done].
  injection Hrun as _ <-. exists d''. by rewrite (Hd' d'').
Qed.

Lemma pad_graph_of_pad_dict r (h : heap) d d' s0pad s1pad :
  h !! r = Some d → pad_dict flagsdim s0pad s1pad d = Ok d' →
  pad_graph flagsdim (PRef r) s0pad s1pad h = (Ok (), <[r := d']> h).
Proof.
  intros Hr Hpd.
  destruct (pad_graph_ref r h d s0pad s1pad Hr) as (d'' & _ & Heq & Hd').
  by rewrite Heq, Hpd, (Hd' d').
Qed.

(** The result of [pad_dict], entry by entry: every entry is computed
    from the entry of the dictionary before the call. *)
Lemma pad_dict_Ok d d' s0pad s1pad :
  pad_dict flagsdim s0pad s1pad d = Ok d' ↔ padded_graph flagsdim s0pad s1pad d d'.
Proof.
  unfold pad_dict, padded_graph. split.
  - intros H.
    apply rbind_Ok in H as (d1 & (v0 & a0 & L0 & P0 & ->)%upd_Ok & H).
    apply rbind_Ok in H as (d2 & (v1 & a1 & L1 & P1 & ->)%upd_Ok & H).
    apply rbind_Ok in H as (d3 & (w0 & b0 & L2 & P2 & ->)%upd_Ok & H).
    apply rbind_Ok in H as (d4 & (w1 & b1 & L3 & P3 & ->)%upd_Ok & H).
    apply upd_Ok in H as (sc & y & L4 & P4 & ->).
    repeat (rewrite lookup_insert_ne in L1 by done).
    repeat (rewrite lookup_insert_ne in L2 by done).
    repeat (rewrite lookup_insert_ne in L3 by done).
    repeat (rewrite lookup_insert_ne in L4 by done).
    exists v0, v1, w0, w1, sc, a0, a1, b0, b1, y.
    repeat (split; [assumption|]). done.
  - intros (v0 & v1 & w0 & w1 & sc & a0 & a1 & b0 & b1 & y
            & H0 & P0 & H1 & P1 & H2 & P2 & H3 & P3 & H4 & P4 & ->).
    unfold upd. rewrite H0, P0. cbn [rbind].
    rewrite lookup_insert_ne, H1, P1 by done. cbn [rbind].
    rewrite !lookup_insert_ne, H2, P2 by done. cbn [rbind].
    rewrite !lookup_insert_ne, H3, P3 by done. cbn [rbind].
    rewrite !lookup_insert_ne, H4, P4 by done. done.
Qed.

(** [pad_dict] is idempotent. *)
Lemma pad_dict_idem d d' s0pad s1pad :
  pad_dict flagsdim s0pad s1pad d = Ok d' →
  pad_dict flagsdim s0pad s1pad d' = Ok d'.
Proof.
  intros (v0 & v1 & w0 & w1 & sc & a0 & a1 & b0 & b1 & y
          & H0 & P0 & H1 & P1 & H2 & P2 & H3 & P3 & H4 & P4 & ->)%pad_dict_Ok.
  unfold pad_dict.
  rewrite (upd_fixed _ "si0" _ a0);
    [|by simplify_map_eq|by eapply pad_sequences_idem]. cbn [rbind].
  rewrite (upd_fixed _ "si1" _ a1);
    [|by simplify_map_eq|by eapply pad_sequences_idem]. cbn [rbind].
  rewrite (upd_fixed _ "f0" _ b0);
    [|by simplify_map_eq|by eapply pad_3d_sequence_idem]. cbn [rbind].
  rewrite (upd_fixed _ "f1" _ b1);
    [|by simplify_map_eq|by eapply pad_3d_sequence_idem]. cbn [rbind].
  apply (upd_fixed _ "score" _ y);
    [by simplify_map_eq|by eapply np_array_idem].
Qed.

End PadGraph.

(** ** Slices of the dataset *)

Lemma length_substring s lo n :
  lo + n ≤ String.length s → String.length (String.substring lo n s) = n.
Proof.
  revert lo n. induction s as [|c s IH]; intros lo n H; cbn in H.
  - assert (lo = 0 ∧ n = 0) as [-> ->] by lia. done.
  - destruct lo as [|lo]; cbn.
    + destruct n as [|n]; [done|]. cbn. f_equal. apply IH. lia.
    + apply IH. lia.
Qed.

Lemma slice_bounds_inside n lo hi :
  (0 ≤ lo)%Z → (lo ≤ hi)%Z → (hi ≤ Z.of_nat n)%Z →
  slice_bounds n (Some lo) (Some hi) = (Z.to_nat lo, Z.to_nat hi).
Proof.
  intros H0 H1 H2. unfold slice_bounds, slice_clip. cbn.
  destruct (Z.ltb_spec lo 0); [lia|]. destruct (Z.ltb_spec hi 0); [lia|].
  f_equal; lia.
Qed.

(** The slice of block [i] of a list: [batch_size] consecutive items from
    index [i * batch_size]. *)
Lemma slice_list_block {A} (l : list A) (batch_size : Z) (i : nat) :
  (0 < batch_size)%Z →
  ((Z.of_nat i + 1) * batch_size ≤ Z.of_nat (length l))%Z →
  slice_list l (Some (Z.of_nat i * batch_size)%Z)
               (Some ((Z.of_nat i + 1) * batch_size)%Z)
  = take (Z.to_nat batch_size) (drop (i * Z.to_nat batch_size) l).
Proof.
  intros Hbs Hhi. unfold slice_list.
  rewrite slice_bounds_inside by lia. f_equal; [lia|]. f_equal. lia.
Qed.

(** A slice inside the bounds has [hi - lo] items. *)
Lemma py_len_getslice v n lo hi v' :
  py_len v = Ok n → (0 ≤ lo)%Z → (lo ≤ hi)%Z → (hi ≤ Z.of_nat n)%Z →
  py_getslice v (Some lo) (Some hi) = Ok v' →
  py_len v' = Ok (Z.to_nat (hi - lo)).
Proof.
  intros Hn H0 H1 H2 Hs.
  destruct v as [| | |s|l|l|a|]; cbn [py_len py_getslice] in Hn, Hs; try done.
  - injection Hn as <-. rewrite slice_bounds_inside in Hs by done.
    injection Hs as <-. cbn. f_equal. rewrite length_substring; lia.
  - injection Hn as <-. unfold slice_list in Hs.
    rewrite slice_bounds_inside in Hs by done.
    injection Hs as <-. cbn. f_equal. rewrite length_take, length_drop. lia.
  - injection Hn as <-. unfold slice_list in Hs.
    rewrite slice_bounds_inside in Hs by done.
    injection Hs as <-. cbn. f_equal. rewrite length_take, length_drop. lia.
  - unfold nd_slice in Hs. destruct (nd_shape a) as [|n' rest]; [done|].
    injection Hn as ->. rewrite slice_bounds_inside in Hs by done.
    cbn [rbind] in Hs. injection Hs as <-. cbn. f_equal. lia.
Qed.

Lemma slice_dict_lookup d lo hi d' k v :
  slice_dict d lo hi = Ok d' → d !! k = Some v →
  ∃ v', py_getslice v (Some lo) (Some hi) = Ok v' ∧ d' !! k = Some v'.
Proof.
  unfold slice_dict. intros H Hk. case_bool_decide as Hdom; [|done].
  injection H as <-.
  assert (k ∈ dom d) as Hin by (apply elem_of_dom; eauto).
  rewrite <- Hdom in Hin. apply elem_of_dom in Hin as [v' Hv'].
  rewrite lookup_omap, Hk in Hv'. cbn in Hv'.
  destruct (py_getslice v (Some lo) (Some hi)) as [v''|e] eqn:Hg; [|done].
  injection Hv' as ->.
  exists v'. split; [done|]. rewrite lookup_omap, Hk. cbn. by rewrite Hg.
Qed.

(** ** The batch generator *)

Lemma fresh_heap_None (h : heap) : h !! fresh (dom h) = None.
Proof. apply not_elem_of_dom, is_fresh. Qed.

Section GeneratorProps.

Context {R : Type}.
Variable py : python.
Variable shuffle : R → list nat → list nat * R.
Variable shuffle_fails : R → nat → R.
Variable flagsdim : nat.
Variables (r : loc) (d : dict) (batch_size : Z) (s0pad s1pad : nat).
Variables (si0 : pyval) (n : nat).

Hypothesis shuffle_perm : ∀ rng ids, (shuffle rng ids).1 ≡ₚ ids.
Hypothesis Hsi0 : d !! "si0" = Some si0.
Hypothesis Hn : py_len si0 = Ok n.
Hypothesis Hbs : (0 < batch_size)%Z.
Hypothesis Hblocks :
  ∀ i, i < num_blocks n batch_size →
       is_Ok (batch_dict flagsdim d batch_size s0pad s1pad i).

Local Abbreviation K := (num_blocks n batch_size).
Local Abbreviation next := (sample_pairs_next flagsdim py shuffle shuffle_fails (PRef r) batch_size s0pad s1pad).
Local Abbreviation batches := (take_batches flagsdim py shuffle shuffle_fails (PRef r) batch_size s0pad s1pad).
Local Abbreviation enter := (enter_pass flagsdim py shuffle shuffle_fails (PRef r) batch_size s0pad s1pad).
Local Abbreviation rshuffle := (random_shuffle py shuffle shuffle_fails).
Local Abbreviation batch := (is_batch flagsdim d batch_size s0pad s1pad).

Lemma sample_pairs_body_Ok (h : heap) i d2 :
  h !! r = Some d →
  batch_dict flagsdim d batch_size s0pad s1pad i = Ok d2 →
  sample_pairs_body flagsdim (PRef r) batch_size s0pad s1pad i h
  = (Ok (PRef (fresh (dom h))), <[fresh (dom h) := d2]> h).
Proof.
  intros Hr Hb. unfold batch_dict in Hb.
  apply rbind_Ok in Hb as (d1 & Hd1 & Hd2).
  unfold sample_pairs_body, mbind', graph_input_slice.
  rewrite Hr, Hd1. unfold new_dict.
  rewrite (pad_graph_of_pad_dict flagsdim _ _ d1 d2) by (done || apply lookup_insert_eq).
  by rewrite insert_insert_eq.
Qed.

(** The blocks lie inside the dataset. *)
Lemma block_bounds i :
  i < K →
  (0 ≤ Z.of_nat i * batch_size)%Z ∧
  (Z.of_nat i * batch_size ≤ (Z.of_nat i + 1) * batch_size)%Z ∧
  ((Z.of_nat i + 1) * batch_size ≤ Z.of_nat n - Z.of_nat n `mod` batch_size)%Z.
Proof.
  unfold num_blocks. intros Hi.
  assert (Z.of_nat i + 1 ≤ Z.of_nat n / batch_size)%Z as Hle by lia.
  pose proof (Z.div_mod (Z.of_nat n) batch_size ltac:(lia)) as Hdm.
  repeat split; [nia|nia|].
  replace (Z.of_nat n - Z.of_nat n `mod` batch_size)%Z
    with (batch_size * (Z.of_nat n / batch_size))%Z by lia.
  rewrite (Z.mul_comm _ batch_size). apply Z.mul_le_mono_nonneg_l; lia.
Qed.

(** The padded index tensor of a batch has [batch_size] rows. *)
Lemma batch_dict_si0 i d2 :
  i < K → batch_dict flagsdim d batch_size s0pad s1pad i = Ok d2 →
  ∃ a, d2 !! "si0" = Some (PArr a) ∧ nd_shape a = [Z.to_nat batch_size; s0pad].
Proof.
  intros Hi Hb. unfold batch_dict in Hb.
  apply rbind_Ok in Hb as (d1 & Hd1 & Hd2).
  destruct (slice_dict_lookup _ _ _ _ _ _ Hd1 Hsi0) as (v' & Hv' & Hk).
  destruct (block_bounds i Hi) as (B0 & B1 & B2).
  pose proof (Z.mod_pos_bound (Z.of_nat n) batch_size Hbs) as Hmod.
  apply (py_len_getslice _ n) in Hv'; [|done|done|done|lia].
  apply pad_dict_Ok in Hd2
    as (v0 & v1 & w0 & w1 & sc & a0 & a1 & b0 & b1 & y
        & H0 & P0 & _ & _ & _ & _ & _ & _ & _ & _ & ->).
  exists a0. split; [by simplify_map_eq|].
  rewrite Hk in H0. injection H0 as <-.
  apply pad_sequences_Ok_inv in P0 as (n' & ? & ? & Hn' & _ & _ & _ & _ & _ & ->).
  rewrite Hv' in Hn'. injection Hn' as <-. cbn. do 2 f_equal. lia.
Qed.

Lemma is_batch_weaken (h h' : heap) i ogr :
  h ⊆ h' → batch h i ogr → batch h' i ogr.
Proof.
  intros Hsub (r' & d' & a & -> & Hr' & ?). exists r', d', a.
  split; [done|]. split; [|done]. by eapply lookup_weaken.
Qed.

Lemma yield_body_Ok ids i todo (rng : R) (h : heap) :
  h !! r = Some d → i < K →
  ∃ ogr h',
    yield_body flagsdim (PRef r) batch_size s0pad s1pad ids i todo rng h
    = Yield ogr (GLoop ids todo) rng h'
    ∧ h ⊆ h' ∧ h' !! r = Some d ∧ batch h' i ogr.
Proof.
  intros Hr Hi. destruct (Hblocks i Hi) as [d2 Hd2].
  unfold yield_body. rewrite (sample_pairs_body_Ok h i d2) by done.
  pose proof (fresh_heap_None h) as Hfresh.
  eexists _, _. split; [done|]. split; [by apply insert_subseteq|].
  split.
  - rewrite lookup_insert_ne; [done|]. intros Heq. by rewrite Heq, Hr in Hfresh.
  - destruct (batch_dict_si0 i d2 Hi Hd2) as (a & Ha & Hsh).
    exists (fresh (dom h)), d2, a. by rewrite lookup_insert_eq.
Qed.


Lemma next_start once (rng : R) (h : heap) :
  h !! r = Some d →
  next once GStart rng h = enter once (seq 0 K) rng h.
Proof.
  intros Hr. cbn [sample_pairs_next].
  unfold mbind', py_getitem, lift, int_div. rewrite Hr, Hsi0, Hn.
  destruct (Z.eqb_spec batch_size 0); [lia|].
  unfold py_range, num_blocks. by rewrite Z.quot_div_nonneg by lia.
Qed.

(** Where [random.shuffle] accepts [ids] it leaves a permutation. *)
Lemma random_shuffle_Ok (rng : R) ids :
  shuffle_accepts py (length ids) →
  ∃ ids' rng', rshuffle ids rng = (Ok ids', rng') ∧ ids' ≡ₚ ids.
Proof.
  intros Hacc. unfold random_shuffle. destruct py.
  - pose proof (shuffle_perm rng ids) as Hp.
    destruct (shuffle rng ids) as [ids' rng']. by exists ids', rng'.
  - destruct Hacc as [?|Hlen]; [done|].
    destruct (Nat.leb_spec 2 (length ids)); [lia|]. by exists ids, rng.
Qed.

(** On Python 3 [random.shuffle] fails on a range of two or more. *)
Lemma random_shuffle_python3 (rng : R) ids :
  py = Python3 → 2 ≤ length ids →
  rshuffle ids rng = (Raise TypeError, shuffle_fails rng (length ids)).
Proof.
  intros -> Hlen. unfold random_shuffle.
  destruct (Nat.leb_spec 2 (length ids)); [done|lia].
Qed.

Lemma shuffled_ids (rng : R) ids :
  shuffle_accepts py K → ids ≡ₚ seq 0 K →
  ∃ ids' rng', rshuffle ids rng = (Ok ids', rng')
    ∧ ids' ≡ₚ seq 0 K ∧ Forall (λ i, i < K) ids'.
Proof.
  intros Hacc Hp.
  destruct (random_shuffle_Ok rng ids) as (ids' & rng' & Hsh & Hp').
  { apply Permutation_length in Hp. by rewrite Hp, length_seq. }
  exists ids', rng'. split; [done|].
  assert (ids' ≡ₚ seq 0 K) as Hp'' by (by rewrite Hp').
  split; [done|]. apply Forall_forall. intros i Hi.
  rewrite Hp'' in Hi. apply elem_of_seq in Hi. lia.
Qed.


(** With [once=False] every call of [next()] yields the batch of a
    block, provided there is at least one block. *)
Lemma enter_pass_yields ids (rng : R) (h : heap) :
  shuffle_accepts py K → 0 < K → h !! r = Some d → ids ≡ₚ seq 0 K →
  ∃ i ogr st' rng' h',
    enter false ids rng h = Yield ogr st' rng' h'
    ∧ gen_inv K st' ∧ h ⊆ h' ∧ h' !! r = Some d
    ∧ i < K ∧ batch h' i ogr.
Proof.
  intros Hacc HK Hr Hids.
  destruct (shuffled_ids rng ids Hacc Hids) as (ids' & rng1 & Hsh & Hp & Hlt).
  pose proof (Permutation_length Hp) as Hlen. rewrite length_seq in Hlen.
  unfold enter_pass. rewrite Hsh.
  destruct ids' as [|i todo]; [cbn in Hlen; lia|].
  apply Forall_cons in Hlt as [Hi Htodo].
  destruct (yield_body_Ok (i :: todo) i todo rng1 h Hr Hi)
    as (ogr & h1 & Hy & Hsub & Hr1 & Hb).
  exists i, ogr, (GLoop (i :: todo) todo), rng1, h1.
  split; [done|]. split; [|done]. right. by exists (i :: todo), todo.
Qed.

Lemma next_yields st (rng : R) (h : heap) :
  shuffle_accepts py K → 0 < K → h !! r = Some d → gen_inv K st →
  ∃ i ogr st' rng' h',
    next false st rng h = Yield ogr st' rng' h'
    ∧ gen_inv K st' ∧ h ⊆ h' ∧ h' !! r = Some d
    ∧ i < K ∧ batch h' i ogr.
Proof.
  intros Hacc HK Hr [->|(ids & todo & -> & Hids & Htodo)].
  - rewrite next_start by done. by apply enter_pass_yields.
  - destruct todo as [|i todo]; cbn [sample_pairs_next].
    + by apply enter_pass_yields.
    + apply Forall_cons in Htodo as [Hi Htodo].
      destruct (yield_body_Ok ids i todo rng h Hr Hi)
        as (ogr & h1 & Hy & Hsub & Hr1 & Hb).
      exists i, ogr, (GLoop ids todo), rng, h1.
      split; [done|]. split; [|done]. right. by exists ids, todo.
Qed.


(** The first [k] calls of [next()] yield [k] batches, each the batch of
    a block. *)
Lemma endless_batches k st (rng : R) (h : heap) :
  shuffle_accepts py K → 0 < K → h !! r = Some d → gen_inv K st →
  ∃ ids bs st' rng' h',
    batches false k st rng h = Some (bs, st', rng', h')
    ∧ h ⊆ h' ∧ Forall (λ i, i < K) ids ∧ Forall2 (batch h') ids bs.
Proof.
  intros Hacc HK. revert st rng h.
  induction k as [|k IH]; intros st rng h Hr Hinv.
  - exists [], [], st, rng, h. by repeat split.
  - destruct (next_yields st rng h Hacc HK Hr Hinv)
      as (i & ogr & st1 & rng1 & h1 & Hy & Hinv1 & Hsub1 & Hr1 & Hi & Hb).
    destruct (IH st1 rng1 h1 Hr1 Hinv1)
      as (ids & bs & st' & rng' & h' & Hrun & Hsub & Hlt & Hbs').
    exists (i :: ids), (ogr :: bs), st', rng', h'. cbn [take_batches].
    rewrite Hy, Hrun. split; [done|]. split; [by etrans|].
    split; [by constructor|].
    constructor; [by eapply is_batch_weaken|done].
Qed.

Lemma length_take_batches once k st (rng : R) (h : heap) bs st' rng' h' :
  batches once k st rng h = Some (bs, st', rng', h') → length bs = k.
Proof.
  revert st rng h bs. induction k as [|k IH]; intros st rng h bs H.
  - by injection H as <- _ _ _.
  - cbn [take_batches] in H.
    destruct (next once st rng h) as [ogr st1 rng1 h1| | |]; try done.
    destruct (batches once k st1 rng1 h1) as [[[[bs1 st2] rng2] h2]|] eqn:Hk;
      [|done].
    injection H as <- <- <- <-. cbn [length]. f_equal. by eapply IH.
Qed.

(** On Python 3, with two blocks or more, the first call of [next()]
    raises before any batch is made. *)
Lemma next_start_python3 once (rng : R) (h : heap) :
  py = Python3 → 2 ≤ K → h !! r = Some d →
  next once GStart rng h = Raised TypeError (shuffle_fails rng K) h.
Proof.
  intros Hpy HK Hr. rewrite next_start by done. unfold enter_pass.
  rewrite random_shuffle_python3; rewrite ?length_seq; done.
Qed.

End GeneratorProps.

(** * The claims about padding *)

(** ** Worked calls *)

Example pad_3d_sequence_truncates_and_pads :
  pad_3d_sequence (py_seqs [[[1; 2]; [3; 4]; [5; 6]]; [[7; 8]]]%Z) 2 2
  = Ok (NdArray int32 [2; 2; 2] (qs [3; 4; 5; 6; 7; 8; 0; 0]%Z)).
Proof. vm_compute. reflexivity. Qed.

(** [seq[-0:]] is the whole sequence, which does not fit into no rows. *)
Example pad_3d_sequence_maxlen_0 :
  pad_3d_sequence (py_seqs [[[1; 2]; [3; 4]]]%Z) 0 2 = Raise ValueError.
Proof. vm_compute. reflexivity. Qed.

(** [pad_sequences] skips an empty sequence. *)
Example pad_sequences_skips_empty :
  pad_sequences (py_seq [[1; 2; 3]; []; [4]]%Z) 2
  = Ok (NdArray int32 [3; 2] (qs [2; 3; 0; 0; 4; 0]%Z)).
Proof. vm_compute. reflexivity. Qed.

(** C1.  The claim reads: when some element of [seqs] is an empty
    sequence, [pad_3d_sequence] raises no exception and the row of that
    element is all zeros.  The code does otherwise: for an element that
    is an empty Python list, [np.array([])] has shape [(0,)], which cannot
    be assigned to the slice [pseqs[i, :0]] of shape [(0, nd)] when
    [nd > 0]; the call raises, whatever the other elements are. *)
Theorem pad_3d_sequence_empty_list_raises
    (items : list pyval) (maxlen nd : nat) (d : dtype) :
  PList [] ∈ items → 0 < nd →
  raises (pad_3d_sequence_dtype (PList items) maxlen nd d).
Proof.
  intros Hin Hnd. rewrite pad_3d_sequence_blocks. cbn [py_len py_iter rbind].
  destruct (rmapM_raises (padded_block maxlen nd d) items (PList []) Hin)
    as [e ->]; [|by exists e].
  exists ValueError. by apply padded_block_empty_list.
Qed.

Lemma pad_3d_sequence_empty_list_raises_witness :
  PList [] ∈ [py_seq [[1; 2]]%Z; PList []] ∧ 0 < 2 ∧
  raises (pad_3d_sequence (PList [py_seq [[1; 2]]%Z; PList []]) 3 2).
Proof.
  assert (PList [] ∈ [py_seq [[1; 2]]%Z; PList []]) as Hin.
  { apply list_elem_of_further, list_elem_of_here. }
  assert (0 < 2) as Hnd by lia.
  split; [exact Hin|]. split; [exact Hnd|].
  exact (pad_3d_sequence_empty_list_raises _ 3 2 int32 Hin Hnd).
Defined.

(** The same call, evaluated. *)
Example pad_3d_sequence_empty_list_ValueError :
  pad_3d_sequence (PList [py_seq [[1; 2]]%Z; PList []]) 3 2 = Raise ValueError.
Proof. vm_compute. reflexivity. Qed.

(** An empty element that carries its width, an array of shape [(0, nd)],
    is padded to a row of zeros. *)
Example pad_3d_sequence_empty_array :
  pad_3d_sequence (PList [py_seq [[1; 2]]%Z; PArr (NdArray int32 [0; 2] [])]) 3 2
  = Ok (NdArray int32 [2; 3; 2] (qs [1;2;0;0;0;0; 0;0;0;0;0;0]%Z)).
Proof. vm_compute. reflexivity. Qed.




(** C5.  For a sequence longer than [maxlen], the first [maxlen] rows
    of its block, which are all its rows, are the last [maxlen] vectors
    of the sequence.  This is for sequences given as lists of vectors of
    integers that the dtype holds ([fits]: in the range of an integer
    dtype, of at most 53 bits for float64); the call returns whenever
    [maxlen] is positive and no sequence is empty. *)
Theorem pad_3d_sequence_keeps_last
    (ss : list (list (list Z))) (maxlen nd : nat) (d : dtype) :
  Forall (Forall (λ r, length r = nd)) ss →
  Forall (Forall (Forall (fits d))) ss →
  (Forall (λ s, s ≠ []) ss → 0 < maxlen →
   is_Ok (pad_3d_sequence_dtype (py_seqs ss) maxlen nd d)) ∧
  (∀ out i s,
     pad_3d_sequence_dtype (py_seqs ss) maxlen nd d = Ok out →
     ss !! i = Some s → maxlen < length s →
     take maxlen (nd_rows (nd_sub out i))
     = qs <$> drop (length s - maxlen) s).
Proof.
  intros Hw Hfit. split; [by apply pad_3d_sequence_list_Ok|].
  intros out i s Hout Hi Hlen.
  rewrite (pad_3d_sequence_list_rows ss maxlen nd d out i s Hw Hfit Hout Hi).
  replace (maxlen - Nat.min (length s) maxlen) with 0 by lia.
  cbn [replicate]. rewrite app_nil_r.
  rewrite take_ge; [done|]. rewrite length_fmap, length_drop. lia.
Qed.

Lemma pad_3d_sequence_keeps_last_witness :
  Forall (Forall (λ r : list Z, length r = 2))
    [[[1; 2]; [3; 4]; [5; 6]]; [[7; 8]]]%Z
  ∧ take 2 (nd_rows (nd_sub (NdArray int32 [2; 2; 2]
                               (qs [3; 4; 5; 6; 7; 8; 0; 0]%Z)) 0))
    = qs <$> [[3; 4]; [5; 6]]%Z.
Proof.
  assert (Forall (Forall (λ r : list Z, length r = 2))
            [[[1; 2]; [3; 4]; [5; 6]]; [[7; 8]]]%Z) as Hw.
  { repeat constructor. }
  assert (Forall (Forall (Forall (fits int32)))
            [[[1; 2]; [3; 4]; [5; 6]]; [[7; 8]]]%Z) as Hfit.
  { repeat constructor; cbn [fits]; lia. }
  split; [exact Hw|].
  refine (proj2 (pad_3d_sequence_keeps_last _ 2 2 int32 Hw Hfit)
            _ 0 [[1; 2]; [3; 4]; [5; 6]]%Z _ _ _).
  - vm_compute. reflexivity.
  - reflexivity.
  - cbn. lia.
Defined.



(** * The claims about [pad_graph] *)

(** C9.  [pad_graph] writes to the dictionary object that [gr] refers to
    and to nothing else; in that dictionary only the entries ['si0'],
    ['si1'], ['f0'], ['f1'] and ['score'] change, and when the call
    returns these five hold the padded tensors of the entries they had
    before.  The call returns exactly when the five entries exist and
    their padding succeeds. *)
Theorem pad_graph_in_place flagsdim r (h h' : heap) (d : dict)
    s0pad s1pad (res : result ()) :
  h !! r = Some d →
  pad_graph flagsdim (PRef r) s0pad s1pad h = (res, h') →
  ∃ d', h' = <[r := d']> h
        ∧ same_outside padded_keys d d'
        ∧ (res = Ok () ↔ padded_graph flagsdim s0pad s1pad d d')
        ∧ (is_Ok res ↔ ∃ d'', padded_graph flagsdim s0pad s1pad d d'').
Proof.
  intros Hr Hrun.
  destruct (pad_graph_ref flagsdim r h d s0pad s1pad Hr)
    as (d' & Hsame & Heq & Hd').
  rewrite Heq in Hrun. injection Hrun as <- <-.
  exists d'. split; [done|]. split; [done|].
  destruct (pad_dict flagsdim s0pad s1pad d) as [d''|e] eqn:Hpd.
  - rewrite <- (Hd' d'' eq_refl). apply pad_dict_Ok in Hpd.
    split; [done|]. split; [by exists d''|by exists ()].
  - split; split.
    + done.
    + intros Hp%pad_dict_Ok. congruence.
    + by intros [? ?].
    + intros [d'' Hp%pad_dict_Ok]. congruence.
Qed.

Lemma pad_graph_in_place_witness :
  ex_heap !! 0 = Some ex_graph ∧
  ∃ d', (pad_graph 2 (PRef 0) 2 2 ex_heap).2 = <[0 := d']> ex_heap
        ∧ d' !! "s0" = ex_graph !! "s0"
        ∧ padded_graph 2 2 2 ex_graph d'.
Proof.
  assert (ex_heap !! 0 = Some ex_graph) as Hr by reflexivity.
  assert (pad_graph 2 (PRef 0) 2 2 ex_heap
          = (Ok (), (pad_graph 2 (PRef 0) 2 2 ex_heap).2)) as Hrun.
  { vm_compute. reflexivity. }
  split; [exact Hr|].
  destruct (pad_graph_in_place 2 0 ex_heap _ ex_graph 2 2 _ Hr Hrun)
    as (d' & Hh & Hsame & Hok & _).
  exists d'. split; [exact Hh|]. split.
  - apply Hsame. unfold padded_keys. intros Hin.
    repeat (apply elem_of_cons in Hin as [Hin|Hin]; [discriminate Hin|]).
    by apply elem_of_nil in Hin.
  - by apply Hok.
Defined.

(** C10.  [pad_graph] is idempotent: after a call that returned, a second
    call with the same pad lengths returns and leaves the heap, and so
    the graph, as the first call left it. *)
Theorem pad_graph_idempotent flagsdim gr s0pad s1pad (h h1 : heap) :
  pad_graph flagsdim gr s0pad s1pad h = (Ok (), h1) →
  pad_graph flagsdim gr s0pad s1pad h1 = (Ok (), h1).
Proof.
  intros Hrun.
  destruct (pad_graph_Ok_ref _ _ _ _ _ _ _ Hrun) as (r & d & -> & Hr).
  destruct (pad_graph_Ok _ _ _ _ _ _ _ _ Hr Hrun) as (d' & Hpd & ->).
  apply pad_dict_idem in Hpd.
  rewrite (pad_graph_of_pad_dict flagsdim r _ d' d') by (done || apply lookup_insert_eq).
  by rewrite insert_insert_eq.
Qed.

Lemma pad_graph_idempotent_witness :
  pad_graph 2 (PRef 0) 2 2 ex_heap
  = (Ok (), (pad_graph 2 (PRef 0) 2 2 ex_heap).2)
  ∧ pad_graph 2 (PRef 0) 2 2 (pad_graph 2 (PRef 0) 2 2 ex_heap).2
    = (Ok (), (pad_graph 2 (PRef 0) 2 2 ex_heap).2).
Proof.
  assert (pad_graph 2 (PRef 0) 2 2 ex_heap
          = (Ok (), (pad_graph 2 (PRef 0) 2 2 ex_heap).2)) as Hrun.
  { vm_compute. reflexivity. }
  split; [exact Hrun|].
  exact (pad_graph_idempotent 2 (PRef 0) 2 2 ex_heap _ Hrun).
Defined.

(** * The claims about the task *)

(** C3, as amended.  [load_set] does not look at the vocabulary: on a
    readable file that holds five sequences it returns normally, and the
    third element of its result is [self.vocab] as it is, which is [None]
    when [load_vocab] has not been called. *)
Theorem load_set_without_vocab (fs : files) (self : dict) fname (h : heap)
    v si0 si1 f0 f1 labels :
  fs !! fname = Some v →
  py_iter v = Ok [si0; si1; f0; f1; labels] →
  self !! "vocab" = Some PNone →
  ∃ r g,
    load_set fs self fname h
    = (Ok (PTuple [PRef r; labels; PNone]), <[r := g]> h)
    ∧ h !! r = None
    ∧ g !! "si0" = Some si0 ∧ g !! "si1" = Some si1
    ∧ g !! "f0" = Some f0 ∧ g !! "f1" = Some f1 ∧ g !! "score" = Some labels.
Proof.
  intros Hf Hv Hvoc. eexists (fresh (dom h)), _.
  split; [|split; [apply fresh_heap_None|]].
  - unfold load_set, mbind', pickle_load, lift. rewrite Hf, Hv.
    unfold graph_input_anssel, new_dict, getattr. rewrite Hvoc. reflexivity.
  - by simplify_map_eq.
Qed.

(** A task fresh from [task()] loads the training set. *)
Lemma load_set_before_load_vocab :
  task !! "vocab" = Some PNone ∧
  (load_set ex_files task "train.pickle" ∅).1
  = Ok (PTuple [PRef 0; PList [PInt 1; PInt 0]; PNone]).
Proof. split; vm_compute; reflexivity. Qed.

Lemma load_set_without_vocab_witness :
  ex_files !! "train.pickle" = Some (PTuple
     [py_seq [[1; 2; 3]; [4; 5]]%Z; py_seq [[6]; [7; 8]]%Z;
      py_seqs [[[1; 0]; [0; 1]; [1; 1]]; [[0; 0]; [1; 0]]]%Z;
      py_seqs [[[1; 1]]; [[0; 1]; [1; 0]]]%Z;
      PList [PInt 1; PInt 0]])
  ∧ task !! "vocab" = Some PNone
  ∧ ∃ r g, load_set ex_files task "train.pickle" ∅
           = (Ok (PTuple [PRef r; PList [PInt 1; PInt 0]; PNone]), <[r := g]> ∅).
Proof.
  assert (ex_files !! "train.pickle" = Some (PTuple
     [py_seq [[1; 2; 3]; [4; 5]]%Z; py_seq [[6]; [7; 8]]%Z;
      py_seqs [[[1; 0]; [0; 1]; [1; 1]]; [[0; 0]; [1; 0]]]%Z;
      py_seqs [[[1; 1]]; [[0; 1]; [1; 0]]]%Z;
      PList [PInt 1; PInt 0]])) as Hf by reflexivity.
  assert (task !! "vocab" = Some PNone) as Hvoc by reflexivity.
  split; [exact Hf|]. split; [exact Hvoc|].
  destruct (load_set_without_vocab ex_files task "train.pickle" ∅
              _ _ _ _ _ _ Hf eq_refl Hvoc) as (r & g & Hrun & _).
  exists r, g. exact Hrun.
Defined.




(** * The claims about [sample_pairs] *)


Lemma ex_shuffle_perm (u : unit) (ids : list nat) :
  (ex_shuffle u ids).1 ≡ₚ ids.
Proof. unfold ex_shuffle. cbn. symmetry. apply Permutation_rev. Defined.


Lemma num_blocks_ge_2 n batch_size :
  (0 < batch_size)%Z → (2 * batch_size ≤ Z.of_nat n)%Z →
  2 ≤ num_blocks n batch_size.
Proof.
  intros Hbs Hn. unfold num_blocks.
  assert (2 ≤ Z.of_nat n / batch_size)%Z; [|lia].
  apply Z.div_le_lower_bound; lia.
Qed.

(** C4.  The claim reads: with [once=True] the generator yields
    [floor(N / batch_size)] batches, one for each block.  On Python 3 the
    code does otherwise as soon as there are two blocks: [ids] is a range
    object, [random.shuffle(ids)] raises [TypeError] at the first call
    of [next()], and not one batch is yielded.  (On Python 2, where
    [range] returns a list, the claim holds.) *)
Theorem sample_pairs_once_python3 {R}
    (shuffle : R → list nat → list nat * R) (shuffle_fails : R → nat → R)
    flagsdim r (d : dict) batch_size s0pad s1pad si0 n (rng : R) (h : heap) :
  h !! r = Some d → d !! "si0" = Some si0 → py_len si0 = Ok n →
  (0 < batch_size)%Z → (2 * batch_size ≤ Z.of_nat n)%Z →
  let k := num_blocks n batch_size in
  2 ≤ k
  ∧ sample_pairs_next flagsdim Python3 shuffle shuffle_fails (PRef r)
      batch_size s0pad s1pad true GStart rng h
    = Raised TypeError (shuffle_fails rng k) h
  ∧ take_batches flagsdim Python3 shuffle shuffle_fails (PRef r)
      batch_size s0pad s1pad true k GStart rng h = None.
Proof.
  intros Hr Hsi0 Hn Hbs Hle k.
  pose proof (num_blocks_ge_2 n batch_size Hbs Hle) as Hk. fold k in Hk.
  pose proof (next_start_python3 Python3 shuffle shuffle_fails flagsdim r d
                batch_size s0pad s1pad si0 n Hsi0 Hn Hbs true rng h
                eq_refl Hk Hr) as Hnext.
  split; [done|]. split; [done|].
  destruct k as [|k']; [lia|]. cbn [take_batches]. by rewrite Hnext.
Qed.

Lemma sample_pairs_once_python3_witness :
  (2 * 2 ≤ Z.of_nat 5)%Z
  ∧ sample_pairs_next 2 Python3 ex_shuffle (λ u _, u) (PRef 0) 2 3 3 true
      GStart () (<[0 := ex_dataset]> ∅)
    = Raised TypeError () (<[0 := ex_dataset]> ∅)
  ∧ take_batches 2 Python3 ex_shuffle (λ u _, u) (PRef 0) 2 3 3 true 2
      GStart () (<[0 := ex_dataset]> ∅) = None.
Proof.
  assert ((<[0 := ex_dataset]> ∅ : heap) !! 0 = Some ex_dataset) as Hr
    by reflexivity.
  assert (ex_dataset !! "si0"
          = Some (py_seq [[1; 2; 3]; [4; 5]; [6]; [7; 8]; [9]]%Z)) as Hsi0
    by reflexivity.
  assert (0 < 2)%Z as Hbs by lia.
  assert (2 * 2 ≤ Z.of_nat 5)%Z as Hle by lia.
  split; [exact Hle|].
  exact (proj2 (sample_pairs_once_python3 ex_shuffle (λ u _, u) 2 0
                  ex_dataset 2 3 3 _ 5 () _ Hr Hsi0 eq_refl Hbs Hle)).
Defined.

(** C7.  The claim reads: with [once=False] the generator is infinite,
    and with [once=True] it stops after one pass over all blocks.  On
    Python 3 the code does otherwise as soon as there are two blocks:
    whatever [once] is, the first call of [next()] raises the
    [TypeError] of [random.shuffle] on a range object, so the generator
    ends without a batch; it does not yield [k] batches for any positive
    [k].  (On Python 2, where [range] returns a list, the claim holds.) *)
Theorem sample_pairs_python3_ends {R}
    (shuffle : R → list nat → list nat * R) (shuffle_fails : R → nat → R)
    flagsdim r (d : dict) batch_size s0pad s1pad si0 n (rng : R) (h : heap) :
  h !! r = Some d → d !! "si0" = Some si0 → py_len si0 = Ok n →
  (0 < batch_size)%Z → (2 * batch_size ≤ Z.of_nat n)%Z →
  (∀ once,
     sample_pairs_next flagsdim Python3 shuffle shuffle_fails (PRef r)
       batch_size s0pad s1pad once GStart rng h
     = Raised TypeError (shuffle_fails rng (num_blocks n batch_size)) h)
  ∧ (∀ once k, 0 < k →
       take_batches flagsdim Python3 shuffle shuffle_fails (PRef r)
         batch_size s0pad s1pad once k GStart rng h = None).
Proof.
  intros Hr Hsi0 Hn Hbs Hle.
  pose proof (num_blocks_ge_2 n batch_size Hbs Hle) as Hk.
  assert (∀ once,
     sample_pairs_next flagsdim Python3 shuffle shuffle_fails (PRef r)
       batch_size s0pad s1pad once GStart rng h
     = Raised TypeError (shuffle_fails rng (num_blocks n batch_size)) h)
    as Hnext.
  { intros once.
    exact (next_start_python3 Python3 shuffle shuffle_fails flagsdim r d
             batch_size s0pad s1pad si0 n Hsi0 Hn Hbs once rng h
             eq_refl Hk Hr). }
  split; [done|]. intros once k Hpos.
  destruct k as [|k']; [lia|]. cbn [take_batches]. by rewrite Hnext.
Qed.

Lemma sample_pairs_python3_ends_witness :
  (2 * 2 ≤ Z.of_nat 5)%Z
  ∧ sample_pairs_next 2 Python3 ex_shuffle (λ u _, u) (PRef 0) 2 3 3 false
      GStart () (<[0 := ex_dataset]> ∅)
    = Raised TypeError () (<[0 := ex_dataset]> ∅)
  ∧ take_batches 2 Python3 ex_shuffle (λ u _, u) (PRef 0) 2 3 3 false 1
      GStart () (<[0 := ex_dataset]> ∅) = None.
Proof.
  assert ((<[0 := ex_dataset]> ∅ : heap) !! 0 = Some ex_dataset) as Hr
    by reflexivity.
  assert (ex_dataset !! "si0"
          = Some (py_seq [[1; 2; 3]; [4; 5]; [6]; [7; 8]; [9]]%Z)) as Hsi0
    by reflexivity.
  assert (0 < 2)%Z as Hbs by lia.
  assert (2 * 2 ≤ Z.of_nat 5)%Z as Hle by lia.
  assert (0 < 1) as Hpos by lia.
  split; [exact Hle|].
  destruct (sample_pairs_python3_ends ex_shuffle (λ u _, u) 2 0
              ex_dataset 2 3 3 _ 5 () _ Hr Hsi0 eq_refl Hbs Hle)
    as [Hnext Hnone].
  split; [exact (Hnext false)|exact (Hnone false 1 Hpos)].
Defined.

(** * Further properties of [pad_3d_sequence] *)

(** X1.  Whatever the input is, a call of [pad_3d_sequence] that returns
    gives a dense tensor: its shape is [(len(seqs), maxlen, nd)] and it
    holds exactly [len(seqs) * maxlen * nd] elements. *)
Theorem pad_3d_sequence_dense seqs maxlen nd d out :
  pad_3d_sequence_dtype seqs maxlen nd d = Ok out →
  ∃ n, py_len seqs = Ok n ∧ nd_shape out = [n; maxlen; nd] ∧
       length (nd_data out) = n * (maxlen * nd).
Proof.
  intros H. apply pad_3d_sequence_Ok_inv in H
    as (n & items & blks & Hn & _ & Hlen & Hblks & Hbl & _ & ->).
  exists n. split; [done|]. split; [done|]. cbn [nd_data].
  apply length_rmapM in Hblks.
  rewrite (length_concat_uniform _ _ Hbl). congruence.
Qed.

Lemma pad_3d_sequence_dense_witness :
  pad_3d_sequence_dtype
    (PList [py_seq [[1; 2]; [3; 4]]%Z; PArr (NdArray float64 [0; 2] [])])
    3 2 int32
  = Ok (NdArray int32 [2; 3; 2] (qs [1;2;3;4;0;0; 0;0;0;0;0;0]%Z))
  ∧ length (qs [1;2;3;4;0;0; 0;0;0;0;0;0]%Z) = 2 * (3 * 2).
Proof.
  assert (pad_3d_sequence_dtype
            (PList [py_seq [[1; 2]; [3; 4]]%Z; PArr (NdArray float64 [0; 2] [])])
            3 2 int32
          = Ok (NdArray int32 [2; 3; 2] (qs [1;2;3;4;0;0; 0;0;0;0;0;0]%Z))) as H.
  { vm_compute. reflexivity. }
  split; [exact H|].
  destruct (pad_3d_sequence_dense _ _ _ _ _ H) as (n & Hn & _ & Hlen).
  injection Hn as <-. exact Hlen.
Defined.

(** The block of a sequence given as an array of [k] rows. *)
Lemma padded_block_rows m w d d0 k data :
  0 < m → length data = k * w →
  padded_block m w d (PArr (NdArray d0 [k; w] data))
  = Ok ((cast_from d0 d <$> drop ((k - m) * w) data)
          ++ replicate ((m - Nat.min k m) * w) zeroQ).
Proof.
  intros Hm Hlen. unfold padded_block. cbn [py_getslice].
  unfold nd_slice, slice_bounds, slice_clip.
  cbn [nd_shape nd_dtype nd_data from_option size_of foldr].
  assert ((if (- Z.of_nat m <? 0)%Z
           then Z.to_nat (Z.max (Z.of_nat k + - Z.of_nat m) 0)
           else Nat.min (Z.to_nat (- Z.of_nat m)) k) = k - m) as ->.
  { destruct (Z.ltb_spec (- Z.of_nat m) 0); lia. }
  rewrite Nat.mul_1_r.
  assert (k - (k - m) = Nat.min k m) as -> by lia.
  assert (length (drop ((k - m) * w) data) = Nat.min k m * w) as Hd.
  { rewrite length_drop, Hlen, <- Nat.mul_sub_distr_r. f_equal. lia. }
  rewrite take_ge by (by rewrite Hd).
  cbn [rbind]. unfold np_array.
  cbn [np_discover rbind default nd_dtype nd_shape nd_data nd_shape0].
  unfold id. rewrite (Nat.min_l (Nat.min k m) m) by apply Nat.le_min_r.
  rewrite broadcast_to_same.
  - cbn [rbind nd_data]. do 2 f_equal.
    rewrite <- list_fmap_compose. apply list_fmap_ext.
    intros ? q _. apply cast_cast_from.
  - done.
  - cbn. by rewrite length_fmap, Hd, Nat.mul_1_r.
Qed.

(** X2.  Sequences given as arrays of shape [(k, nd)] are always padded
    when [maxlen] is positive: the block of each holds its last
    [min(k, maxlen)] rows, converted from the dtype of the array to the
    output dtype by the C cast ([cast_from]: between integer dtypes the
    value wraps, a float is rounded towards zero and gives the smallest
    integer when it is out of range, an integer is rounded to the nearest
    binary64 value), followed by zeros.  An array without rows gives a
    block of zeros. *)
Theorem pad_3d_sequence_arrays (arrs : list ndarray) (maxlen nd : nat) (d : dtype) :
  Forall (λ a, ∃ k, has_rows nd k a) arrs → 0 < maxlen →
  ∃ out,
    pad_3d_sequence_dtype (PList (PArr <$> arrs)) maxlen nd d = Ok out
    ∧ nd_shape out = [length arrs; maxlen; nd]
    ∧ ∀ i a k, arrs !! i = Some a → has_rows nd k a →
        nd_data (nd_sub out i)
        = (cast_from (nd_dtype a) d <$> drop ((k - maxlen) * nd) (nd_data a))
            ++ replicate ((maxlen - Nat.min k maxlen) * nd) zeroQ.
Proof.
  intros Hwf Hm. rewrite pad_3d_sequence_blocks.
  cbn [py_len py_iter rbind]. rewrite rmapM_fmap, length_fmap.
  set (blk := λ a : ndarray,
         (cast_from (nd_dtype a) d
            <$> drop ((default 0 (head (nd_shape a)) - maxlen) * nd) (nd_data a))
           ++ replicate ((maxlen - Nat.min (default 0 (head (nd_shape a))) maxlen) * nd)
                zeroQ).
  assert (∀ a k, has_rows nd k a →
            padded_block maxlen nd d (PArr a) = Ok (blk a)) as Hblk.
  { intros [d0 sh data] k [Hsh Hlen]. cbn in Hsh, Hlen. subst sh.
    unfold blk. cbn [nd_shape nd_data nd_dtype head default].
    by apply padded_block_rows. }
  rewrite (rmapM_all_Ok _ blk).
  2:{ intros a Ha. rewrite Forall_forall in Hwf.
      destruct (Hwf a Ha) as [k Hk]. by apply (Hblk a k). }
  cbn [rbind]. eexists. split; [done|]. split; [done|].
  intros i a k Hi [Hsh Hlen].
  unfold nd_sub. cbn [nd_shape nd_data nd_dtype tail size_of foldr].
  rewrite Nat.mul_1_r. rewrite (chunk_concat_lookup _ _ i (blk a)).
  - unfold blk. by rewrite Hsh.
  - apply Forall_fmap, Forall_forall. intros a' Ha'. cbn.
    rewrite Forall_forall in Hwf. destruct (Hwf a' Ha') as [k' Hk'].
    apply (length_padded_block maxlen nd d (PArr a')). by apply (Hblk a' k').
  - by rewrite list_lookup_fmap, Hi.
Qed.

Lemma pad_3d_sequence_arrays_witness :
  Forall (λ a, ∃ k, has_rows 2 k a)
    [NdArray float64 [3; 2]
       [inject_Z 1; inject_Z 2; (7 # 2)%Q; (- 3 # 2)%Q;
        inject_Z (10 ^ 10); inject_Z 6];
     NdArray int32 [0; 2] []]
  ∧ 0 < 2
  ∧ ∃ out,
      pad_3d_sequence
        (PList [PArr (NdArray float64 [3; 2]
                        [inject_Z 1; inject_Z 2; (7 # 2)%Q; (- 3 # 2)%Q;
                         inject_Z (10 ^ 10); inject_Z 6]);
                PArr (NdArray int32 [0; 2] [])]) 2 2 = Ok out
      ∧ nd_data (nd_sub out 0) = qs [3; -1; - 2 ^ 31; 6]%Z
      ∧ nd_data (nd_sub out 1) = replicate 4 zeroQ.
Proof.
  set (a0 := NdArray float64 [3; 2]
               [inject_Z 1; inject_Z 2; (7 # 2)%Q; (- 3 # 2)%Q;
                inject_Z (10 ^ 10); inject_Z 6]).
  assert (has_rows 2 3 a0) as H0 by (split; reflexivity).
  assert (has_rows 2 0 (NdArray int32 [0; 2] [])) as H1.
  { split; reflexivity. }
  assert (Forall (λ a, ∃ k, has_rows 2 k a) [a0; NdArray int32 [0; 2] []])
    as Hwf.
  { constructor; [by exists 3|]. constructor; [by exists 0|]. constructor. }
  assert (0 < 2) as Hm by lia.
  split; [exact Hwf|]. split; [exact Hm|].
  destruct (pad_3d_sequence_arrays _ 2 2 int32 Hwf Hm) as (out & Hout & _ & Hrows).
  exists out. split; [exact Hout|]. split.
  - rewrite (Hrows 0 _ 3 eq_refl H0). vm_compute. reflexivity.
  - exact (Hrows 1 _ 0 eq_refl H1).
Defined.

Lemma rmapM_is_Ok_iff {A B} (f : A → result B) l :
  is_Ok (rmapM f l) ↔ Forall (λ x, is_Ok (f x)) l.
Proof.
  split.
  - intros [l' H]. revert l' H. induction l as [|x l IH]; intros l' H.
    + constructor.
    + cbn [rmapM] in H. apply rbind_Ok in H as (y & Hy & H).
      apply rbind_Ok in H as (ys & Hys & _).
      constructor; [by exists y|by eapply IH].
  - intros H. apply rmapM_is_Ok. by apply Forall_forall.
Qed.

Lemma not_is_Ok_Raise {A} (e : exn) : ¬ is_Ok (@Raise A e).
Proof. by intros [a Ha]. Qed.

(** When the block of a list of vectors of width [w] exists. *)
Lemma padded_block_list_returns m w d s :
  Forall (λ r, length r = w) s → Forall (Forall (fits d)) s →
  is_Ok (padded_block m w d (py_seq s))
  ↔ (s = [] → w = 0) ∧ (m = 0 → length s ≤ 1).
Proof.
  intros Hw Hfit. destruct (decide (s = [])) as [->|Hne].
  - destruct (Nat.eq_dec w 0) as [->|Hw0].
    + split; [by split; [|cbn; lia]|]. intros _.
      unfold padded_block, py_seq. cbn [fmap list_fmap py_getslice rbind].
      rewrite slice_list_last.
      replace (if m =? 0 then _ else _) with (@nil pyval) by (by destruct (m =? 0)).
      cbn. by eexists.
    + change (py_seq []) with (PList []).
      rewrite padded_block_empty_list by lia. split.
      * by intros ?%not_is_Ok_Raise.
      * intros [H _]. by specialize (H eq_refl).
  - destruct (Nat.eq_dec m 0) as [->|Hm].
    + rewrite (padded_block_list_0 w d s) by done. split.
      * intros H. split; [done|]. by intros _.
      * intros [_ H]. by apply H.
    + split.
      * intros _. split; [done|]. intros ->. done.
      * intros _. apply padded_block_list_Ok; [done|done|done|lia].
Qed.

(** X3.  For sequences given as lists of vectors of width [nd], of
    integers that the dtype holds ([fits]), the call returns exactly when
    no sequence is an empty list (unless [nd] is 0) and, for
    [maxlen = 0], no sequence has more than one vector: with [maxlen = 0]
    the slice [seq[-0:]] is the whole sequence, not its last zero
    vectors. *)
Theorem pad_3d_sequence_returns_iff
    (ss : list (list (list Z))) (maxlen nd : nat) (d : dtype) :
  Forall (Forall (λ r, length r = nd)) ss →
  Forall (Forall (Forall (fits d))) ss →
  is_Ok (pad_3d_sequence_dtype (py_seqs ss) maxlen nd d)
  ↔ Forall (λ s, (s = [] → nd = 0) ∧ (maxlen = 0 → length s ≤ 1)) ss.
Proof.
  intros Hw Hfit. rewrite pad_3d_sequence_blocks.
  cbn [py_seqs py_len py_iter rbind].
  assert (is_Ok (let* blks := rmapM (padded_block maxlen nd d) (py_seq <$> ss)
                 in Ok (NdArray d [length (py_seq <$> ss); maxlen; nd] (concat blks)))
          ↔ is_Ok (rmapM (padded_block maxlen nd d) (py_seq <$> ss))) as ->.
  { destruct (rmapM _ _) as [blks|e]; cbn.
    - split; intros _; by eexists.
    - split; intros [? ?]; done. }
  rewrite rmapM_is_Ok_iff, Forall_fmap.
  rewrite !Forall_forall. rewrite Forall_forall in Hw, Hfit.
  split; intros H s Hs.
  - apply (proj1 (padded_block_list_returns maxlen nd d s (Hw s Hs)
                    (Hfit s Hs))).
    exact (H s Hs).
  - apply (proj2 (padded_block_list_returns maxlen nd d s (Hw s Hs)
                    (Hfit s Hs))).
    exact (H s Hs).
Qed.

Lemma pad_3d_sequence_returns_iff_witness :
  Forall (Forall (λ r : list Z, length r = 2)) [[[1; 2]; [3; 4]]]%Z
  ∧ ¬ is_Ok (pad_3d_sequence (py_seqs [[[1; 2]; [3; 4]]]%Z) 0 2)
  ∧ is_Ok (pad_3d_sequence (py_seqs [[[1; 2]; [3; 4]]]%Z) 1 2).
Proof.
  assert (Forall (Forall (λ r : list Z, length r = 2)) [[[1; 2]; [3; 4]]]%Z)
    as Hw by (repeat constructor).
  assert (Forall (Forall (Forall (fits int32))) [[[1; 2]; [3; 4]]]%Z) as Hfit.
  { repeat constructor; cbn [fits]; lia. }
  split; [exact Hw|]. split.
  - intros H.
    apply (proj1 (pad_3d_sequence_returns_iff _ 0 2 int32 Hw Hfit)) in H.
    apply Forall_cons in H as [[_ H] _]. specialize (H eq_refl).
    cbn in H. lia.
  - apply (proj2 (pad_3d_sequence_returns_iff _ 1 2 int32 Hw Hfit)).
    constructor; [|constructor]. split; [discriminate|]. intros H. lia.
Defined.

(** The block of vectors of a width that is neither 1 nor [nd]. *)
Lemma padded_block_wrong_width m nd d w s :
  Forall (λ r, length r = w) s → s ≠ [] → w ≠ 1 → w ≠ nd →
  raises (padded_block m nd d (py_seq s)).
Proof.
  intros Hw Hne Hw1 Hwn. unfold padded_block, py_seq. cbn [py_getslice rbind].
  rewrite slice_list_last, length_fmap.
  set (t := if m =? 0 then py_vec <$> s else drop (length s - m) (py_vec <$> s)).
  assert (∃ t', t = py_vec <$> t' ∧ Forall (λ r, length r = w) t' ∧ t' ≠ [])
    as (t' & -> & Hwt & Hnt).
  { unfold t. destruct (Nat.eqb_spec m 0) as [->|Hm]; [by exists s|].
    exists (drop (length s - m) s). split; [by rewrite fmap_drop|].
    split; [by apply Forall_drop|]. intros Hd.
    apply (f_equal length) in Hd. rewrite length_drop in Hd. cbn in Hd.
    destruct s; [done|]. cbn in Hd. lia. }
  fold (py_seq t'). rewrite (np_array_seq d w) by done.
  destruct (rmapM (rmapM (conv_int d)) t') as [rows|e]; [|by exists e].
  cbn [rbind nd_shape0 nd_shape]. exists ValueError.
  assert (dims_compatible [length t'; w] [Nat.min (length t') m; nd] = false)
    as Hdc.
  { cbn [dims_compatible].
    destruct (Nat.eqb_spec w 1); [done|]. destruct (Nat.eqb_spec w nd); [done|].
    cbn. apply andb_false_r. }
  unfold broadcast_to. cbn [nd_shape].
  rewrite strip_unit_dims_le by done. cbn [length].
  rewrite Nat.ltb_irrefl, Nat.sub_diag. cbn [replicate app].
  by rewrite Hdc.
Qed.

(** X4.  A sequence of vectors whose width is neither [nd] nor 1 makes
    the call raise, wherever it stands in [seqs].  (Vectors of width 1
    are accepted: numpy repeats their value [nd] times.) *)
Theorem pad_3d_sequence_wrong_width
    (items : list pyval) (s : list (list Z)) (w maxlen nd : nat) (d : dtype) :
  py_seq s ∈ items → s ≠ [] → Forall (λ r, length r = w) s →
  w ≠ 1 → w ≠ nd →
  raises (pad_3d_sequence_dtype (PList items) maxlen nd d).
Proof.
  intros Hin Hne Hw Hw1 Hwn. rewrite pad_3d_sequence_blocks.
  cbn [py_len py_iter rbind].
  destruct (rmapM_raises (padded_block maxlen nd d) items (py_seq s) Hin)
    as [e ->]; [|by exists e].
  by apply (padded_block_wrong_width _ _ _ w).
Qed.

Lemma pad_3d_sequence_wrong_width_witness :
  py_seq [[1; 2; 3]]%Z ∈ [py_seq [[1; 2]]%Z; py_seq [[1; 2; 3]]%Z]
  ∧ raises (pad_3d_sequence
              (PList [py_seq [[1; 2]]%Z; py_seq [[1; 2; 3]]%Z]) 4 2).
Proof.
  assert (py_seq [[1; 2; 3]]%Z ∈ [py_seq [[1; 2]]%Z; py_seq [[1; 2; 3]]%Z])
    as Hin by (apply list_elem_of_further, list_elem_of_here).
  split; [exact Hin|].
  refine (pad_3d_sequence_wrong_width _ [[1; 2; 3]]%Z 3 4 2 int32 Hin _ _ _ _).
  - discriminate.
  - repeat constructor.
  - lia.
  - lia.
Defined.

(** Vectors of width 1 are repeated. *)
Example pad_3d_sequence_width_1_broadcast :
  pad_3d_sequence (py_seqs [[[7]; [8]]]%Z) 3 2
  = Ok (NdArray int32 [1; 3; 2] (qs [7; 7; 8; 8; 0; 0]%Z)).
Proof. vm_compute. reflexivity. Qed.

(** X5.  Padding is idempotent: padding the output tensor again, with the
    same [maxlen], [nd] and [dtype], returns it unchanged. *)
Theorem pad_3d_sequence_idempotent seqs maxlen nd d out :
  pad_3d_sequence_dtype seqs maxlen nd d = Ok out →
  pad_3d_sequence_dtype (PArr out) maxlen nd d = Ok out.
Proof.
  intros H. apply pad_3d_sequence_Ok_inv in H
    as (n & items & blks & _ & _ & Hn & Hblks & Hlen & Hfix & ->).
  apply length_rmapM in Hblks. apply pad_3d_sequence_array.
  - rewrite (length_concat_uniform _ _ Hlen). congruence.
  - by apply Forall_concat.
Qed.

Lemma pad_3d_sequence_idempotent_witness :
  pad_3d_sequence_dtype (py_seqs [[[1; 2]; [3; 4]; [5; 6]]; [[7; 8]]]%Z)
    2 2 float64
  = Ok (NdArray float64 [2; 2; 2] (qs [3; 4; 5; 6; 7; 8; 0; 0]%Z))
  ∧ pad_3d_sequence_dtype
      (PArr (NdArray float64 [2; 2; 2] (qs [3; 4; 5; 6; 7; 8; 0; 0]%Z)))
      2 2 float64
    = Ok (NdArray float64 [2; 2; 2] (qs [3; 4; 5; 6; 7; 8; 0; 0]%Z)).
Proof.
  assert (pad_3d_sequence_dtype
            (py_seqs [[[1; 2]; [3; 4]; [5; 6]]; [[7; 8]]]%Z) 2 2 float64
          = Ok (NdArray float64 [2; 2; 2] (qs [3; 4; 5; 6; 7; 8; 0; 0]%Z))) as H.
  { vm_compute. reflexivity. }
  split; [exact H|]. exact (pad_3d_sequence_idempotent _ _ _ _ _ H).
Defined.

(** * Further properties of [pad_graph] *)

Lemma conv_int32_data (t : list Z) data :
  rmapM (conv_int int32) t = Ok data → data = cast int32 <$> qs t.
Proof.
  revert data. induction t as [|z t IH]; intros data H.
  - by injection H as <-.
  - cbn [rmapM] in H. apply rbind_Ok in H as (q & Hq & H).
    apply rbind_Ok in H as (data' & Hdata & H). injection H as <-.
    unfold qs. rewrite !fmap_cons. f_equal; [|by apply IH].
    cbn [conv_int] in Hq. destruct (in_long z); [|done]. by injection Hq as <-.
Qed.

(** The row that [pad_sequences] writes for a list of integers. *)
Lemma padded_row_vec m (s : list Z) row :
  0 < m → padded_row m (py_vec s) = Ok row → row = index_row m s.
Proof.
  intros Hm. unfold padded_row, index_row, py_vec. cbn [py_len rbind].
  rewrite length_fmap. destruct (Nat.eqb_spec (length s) 0) as [Hs|Hs].
  { destruct s; [|done]. cbn. rewrite Nat.sub_0_r. by intros [= <-]. }
  cbn [py_getslice rbind]. rewrite slice_list_last, length_fmap.
  destruct (Nat.eqb_spec m 0) as [->|_]; [lia|].
  rewrite <- fmap_drop. set (t := drop (length s - m) s).
  cbn [py_len rbind]. rewrite length_fmap.
  assert (length t = Nat.min (length s) m) as Hlt.
  { unfold t. rewrite length_drop. lia. }
  fold (py_vec t). unfold np_array. rewrite np_discover_vec.
  destruct (rmapM (conv_int int32) t) as [data|e] eqn:Hdata; [|done].
  pose proof (length_rmapM _ _ _ Hdata) as Hld.
  apply conv_int32_data in Hdata. subst data.
  cbn [rbind default].
  rewrite (Nat.min_l (length t) m) by lia.
  rewrite broadcast_to_same.
  - cbn [rbind nd_data]. rewrite <- Hlt. intros [= <-]. f_equal.
    apply cast_fixed_fmap, Forall_cast_fixed_fmap.
  - done.
  - cbn. rewrite Hld. lia.
Qed.

Lemma length_index_row m s : length (index_row m s) = m.
Proof.
  unfold index_row, qs.
  rewrite length_app, !length_fmap, length_drop, length_replicate. lia.
Qed.

(** [pad_sequences] on lists of integers. *)
Lemma pad_sequences_int_lists (ss : list (list Z)) m a :
  0 < m → pad_sequences (py_seq ss) m = Ok a →
  nd_dtype a = int32 ∧ nd_shape a = [length ss; m]
  ∧ ∀ i s, ss !! i = Some s → chunk m (nd_data a) i = index_row m s.
Proof.
  intros Hm Ha. apply pad_sequences_Ok_inv in Ha
    as (n & items & rows & Hn & Hit & Hlen & Hrows & Hrl & _ & ->).
  unfold py_seq in Hn, Hit. cbn [py_len py_iter] in Hn, Hit.
  injection Hn as <-. injection Hit as <-. rewrite length_fmap.
  split; [done|]. split; [done|]. intros i s Hi. cbn [nd_data].
  assert ((py_vec <$> ss) !! i = Some (py_vec s)) as Hi'.
  { by rewrite list_lookup_fmap, Hi. }
  destruct (rmapM_Ok_lookup _ _ _ _ _ Hrows Hi') as (row & Hrow & Hri).
  apply padded_row_vec in Hrow; [|done]. subst row.
  by apply chunk_concat_lookup.
Qed.

Section PadGraphProps.

Variable flagsdim : nat.

(** X6.  For index sequences given as lists of integers, [pad_graph]
    keeps the last [s0pad] (for ['si1']: [s1pad]) indices of every
    sentence and fills the row with zeros at the end; the row of an empty
    sentence is all zeros. *)
Theorem pad_graph_index_rows r (h h' : heap) (d : dict)
    (ss0 ss1 : list (list Z)) s0pad s1pad :
  h !! r = Some d →
  d !! "si0" = Some (py_seq ss0) → d !! "si1" = Some (py_seq ss1) →
  0 < s0pad → 0 < s1pad →
  pad_graph flagsdim (PRef r) s0pad s1pad h = (Ok (), h') →
  ∃ d' a0 a1,
    h' !! r = Some d'
    ∧ d' !! "si0" = Some (PArr a0) ∧ nd_shape a0 = [length ss0; s0pad]
    ∧ (∀ i s, ss0 !! i = Some s → chunk s0pad (nd_data a0) i = index_row s0pad s)
    ∧ d' !! "si1" = Some (PArr a1) ∧ nd_shape a1 = [length ss1; s1pad]
    ∧ (∀ i s, ss1 !! i = Some s → chunk s1pad (nd_data a1) i = index_row s1pad s).
Proof.
  intros Hr H0 H1 Hs0 Hs1 Hrun.
  destruct (pad_graph_Ok flagsdim _ _ _ _ _ _ _ Hr Hrun) as (d' & Hpd & ->).
  apply pad_dict_Ok in Hpd
    as (v0 & v1 & w0 & w1 & sc & a0 & a1 & b0 & b1 & y
        & L0 & P0 & L1 & P1 & _ & _ & _ & _ & _ & _ & ->).
  rewrite H0 in L0. injection L0 as <-. rewrite H1 in L1. injection L1 as <-.
  destruct (pad_sequences_int_lists ss0 s0pad a0 Hs0 P0) as (_ & Sh0 & R0).
  destruct (pad_sequences_int_lists ss1 s1pad a1 Hs1 P1) as (_ & Sh1 & R1).
  eexists _, a0, a1. split; [apply lookup_insert_eq|].
  split; [by simplify_map_eq|]. split; [done|]. split; [done|].
  split; [by simplify_map_eq|]. by split.
Qed.

(** X7.  After a call of [pad_graph] that returns, each of the four
    padded entries is an int32 tensor with all its elements, of shape
    [(n, s0pad)] or [(n, s1pad)] for the index sequences and
    [(n, s0pad, flagsdim)] or [(n, s1pad, flagsdim)] for the features,
    where [n] is the length that entry had before the call. *)
Theorem pad_graph_shapes r (h h' : heap) (d : dict) s0pad s1pad :
  h !! r = Some d →
  pad_graph flagsdim (PRef r) s0pad s1pad h = (Ok (), h') →
  ∃ d', h' !! r = Some d' ∧
    ∀ k tail,
      (k, tail) ∈ [("si0", [s0pad]); ("si1", [s1pad]);
                   ("f0", [s0pad; flagsdim]); ("f1", [s1pad; flagsdim])] →
      ∃ v out, d !! k = Some v ∧ d' !! k = Some out ∧ padded_to v tail out.
Proof.
  intros Hr Hrun.
  destruct (pad_graph_Ok flagsdim _ _ _ _ _ _ _ Hr Hrun) as (d' & Hpd & ->).
  apply pad_dict_Ok in Hpd
    as (v0 & v1 & w0 & w1 & sc & a0 & a1 & b0 & b1 & y
        & L0 & P0 & L1 & P1 & L2 & P2 & L3 & P3 & _ & _ & ->).
  eexists. split; [apply lookup_insert_eq|].
  assert (∀ v m a, pad_sequences v m = Ok a → padded_to v [m] (PArr a)) as Hps.
  { intros v m a Ha. apply pad_sequences_Ok_inv in Ha
      as (n & items & rows & Hn & _ & Hlen & Hrows & Hrl & _ & ->).
    eexists n, _. split; [done|]. split; [done|]. split; [done|]. split; [done|].
    cbn. apply length_rmapM in Hrows.
    rewrite (length_concat_uniform _ _ Hrl), Nat.mul_1_r. congruence. }
  assert (∀ v m a, pad_3d_sequence v m flagsdim = Ok a →
                   padded_to v [m; flagsdim] (PArr a)) as Hp3.
  { intros v m a Ha. pose proof Ha as Ha'.
    apply pad_3d_sequence_Ok_inv in Ha'
      as (n & items & blks & Hn & _ & Hlen & Hblks & Hbl & _ & ->).
    eexists n, _. split; [done|]. split; [done|]. split; [done|]. split; [done|].
    cbn. apply length_rmapM in Hblks.
    rewrite (length_concat_uniform _ _ Hbl), Nat.mul_1_r. congruence. }
  intros k tail Hk.
  repeat (apply elem_of_cons in Hk as [[= -> ->]|Hk]);
    [| | | |by apply elem_of_nil in Hk].
  - exists v0, (PArr a0). split; [done|]. split; [by simplify_map_eq|by apply Hps].
  - exists v1, (PArr a1). split; [done|]. split; [by simplify_map_eq|by apply Hps].
  - exists w0, (PArr b0). split; [done|]. split; [by simplify_map_eq|by apply Hp3].
  - exists w1, (PArr b1). split; [done|]. split; [by simplify_map_eq|by apply Hp3].
Qed.

(** X8.  [pad_graph] is not atomic.  When the index sequences are padded
    and ['f0'] is missing or cannot be padded, the call raises after it
    has replaced ['si0'] and ['si1']: the graph is left half padded. *)
Theorem pad_graph_half_padded r (h : heap) (d : dict) s0pad s1pad v0 v1 a0 a1 :
  h !! r = Some d →
  d !! "si0" = Some v0 → pad_sequences v0 s0pad = Ok a0 →
  d !! "si1" = Some v1 → pad_sequences v1 s1pad = Ok a1 →
  (∀ w0, d !! "f0" = Some w0 → raises (pad_3d_sequence w0 s0pad flagsdim)) →
  ∃ e, pad_graph flagsdim (PRef r) s0pad s1pad h
       = (Raise e, <[r := <["si1" := PArr a1]> (<["si0" := PArr a0]> d)]> h).
Proof.
  intros Hr L0 P0 L1 P1 Hf0. unfold pad_graph.
  rewrite (bind_update_entry _ _ _ _ _ _ Hr).
  unfold upd at 1. rewrite L0, P0. cbn [rbind].
  rewrite (bind_update_entry _ _ _ _ _ (<["si0" := PArr a0]> d))
    by apply lookup_insert_eq.
  unfold upd at 1. rewrite lookup_insert_ne, L1, P1 by done. cbn [rbind].
  rewrite insert_insert_eq.
  rewrite (bind_update_entry _ _ _ _ _
             (<["si1" := PArr a1]> (<["si0" := PArr a0]> d)))
    by apply lookup_insert_eq.
  unfold upd. rewrite !lookup_insert_ne by done.
  destruct (d !! "f0") as [w0|] eqn:L2; [|by exists KeyError].
  destruct (Hf0 w0 eq_refl) as [e ->]. by exists e.
Qed.

(** X9.  When the first assignment fails, because [gr] is not a
    dictionary, has no ['si0'], or ['si0'] cannot be padded, [pad_graph]
    raises and has written nothing. *)
Theorem pad_graph_fails_untouched gr (h : heap) s0pad s1pad :
  (∀ r d v, gr = PRef r → h !! r = Some d → d !! "si0" = Some v →
            raises (pad_sequences v s0pad)) →
  ∃ e, pad_graph flagsdim gr s0pad s1pad h = (Raise e, h).
Proof.
  intros Hfail. unfold pad_graph. unfold mbind' at 1.
  destruct (update_entry_Ok_ref gr "si0" (λ v, pad_sequences v s0pad) h)
    as [->|(r & d & -> & Hr)]; [by exists TypeError|].
  rewrite (update_entry_ref _ _ _ _ _ Hr). unfold upd.
  destruct (d !! "si0") as [v|] eqn:L0; [|by exists KeyError].
  destruct (Hfail r d v eq_refl Hr L0) as [e ->]. by exists e.
Qed.

End PadGraphProps.

Lemma pad_graph_index_rows_witness :
  ex_heap !! 0 = Some ex_graph ∧
  ∃ d' a0,
    (pad_graph 2 (PRef 0) 2 2 ex_heap).2 !! 0 = Some d'
    ∧ d' !! "si0" = Some (PArr a0)
    ∧ chunk 2 (nd_data a0) 0 = qs [2; 3]%Z
    ∧ chunk 2 (nd_data a0) 1 = qs [4; 5]%Z.
Proof.
  assert (ex_heap !! 0 = Some ex_graph) as Hr by reflexivity.
  assert (ex_graph !! "si0" = Some (py_seq [[1; 2; 3]; [4; 5]]%Z)) as H0
    by reflexivity.
  assert (ex_graph !! "si1" = Some (py_seq [[6]; [7; 8]]%Z)) as H1
    by reflexivity.
  assert (0 < 2) as Hm by lia.
  assert (pad_graph 2 (PRef 0) 2 2 ex_heap
          = (Ok (), (pad_graph 2 (PRef 0) 2 2 ex_heap).2)) as Hrun.
  { vm_compute. reflexivity. }
  split; [exact Hr|].
  destruct (pad_graph_index_rows 2 0 ex_heap _ ex_graph _ _ 2 2
              Hr H0 H1 Hm Hm Hrun)
    as (d' & a0 & a1 & Hd' & Ha0 & _ & R0 & _).
  exists d', a0. split; [exact Hd'|]. split; [exact Ha0|]. split.
  - exact (R0 0 [1; 2; 3]%Z eq_refl).
  - exact (R0 1 [4; 5]%Z eq_refl).
Defined.

Lemma pad_graph_shapes_witness :
  ex_heap !! 0 = Some ex_graph ∧
  ∃ d' v out,
    (pad_graph 2 (PRef 0) 2 3 ex_heap).2 !! 0 = Some d'
    ∧ ex_graph !! "f1" = Some v ∧ d' !! "f1" = Some out
    ∧ padded_to v [3; 2] out.
Proof.
  assert (ex_heap !! 0 = Some ex_graph) as Hr by reflexivity.
  assert (pad_graph 2 (PRef 0) 2 3 ex_heap
          = (Ok (), (pad_graph 2 (PRef 0) 2 3 ex_heap).2)) as Hrun.
  { vm_compute. reflexivity. }
  split; [exact Hr|].
  destruct (pad_graph_shapes 2 0 ex_heap _ ex_graph 2 3 Hr Hrun)
    as (d' & Hd' & Hall).
  destruct (Hall "f1" [3; 2]) as (v & out & Hv & Hout & Hp).
  { do 3 apply list_elem_of_further. apply list_elem_of_here. }
  exists d', v, out. split; [exact Hd'|]. split; [exact Hv|].
  split; [exact Hout|exact Hp].
Defined.

(** A graph whose second sentence has no feature vectors: the index
    sequences are padded, then ['f0'] raises. *)
Lemma pad_graph_half_padded_witness :
  ∃ e d',
    pad_graph 2 (PRef 0) 2 2
      (<[0 := <["f0" := py_seqs [[[1; 0]]; []]%Z]> ex_graph]> ∅)
    = (Raise e, <[0 := d']> ∅)
    ∧ d' !! "si0"
      = Some (PArr (NdArray int32 [2; 2] (qs [2; 3; 4; 5]%Z)))
    ∧ d' !! "f0" = Some (py_seqs [[[1; 0]]; []]%Z).
Proof.
  set (d := <["f0" := py_seqs [[[1; 0]]; []]%Z]> ex_graph).
  assert ((<[0 := d]> ∅ : heap) !! 0 = Some d) as Hr by reflexivity.
  assert (d !! "si0" = Some (py_seq [[1; 2; 3]; [4; 5]]%Z)) as L0 by reflexivity.
  assert (d !! "si1" = Some (py_seq [[6]; [7; 8]]%Z)) as L1 by reflexivity.
  assert (pad_sequences (py_seq [[1; 2; 3]; [4; 5]]%Z) 2
          = Ok (NdArray int32 [2; 2] (qs [2; 3; 4; 5]%Z))) as P0.
  { vm_compute. reflexivity. }
  assert (pad_sequences (py_seq [[6]; [7; 8]]%Z) 2
          = Ok (NdArray int32 [2; 2] (qs [6; 0; 7; 8]%Z))) as P1.
  { vm_compute. reflexivity. }
  assert (∀ w0, d !! "f0" = Some w0 → raises (pad_3d_sequence w0 2 2)) as Hf0.
  { intros w0 Hw0. assert (w0 = py_seqs [[[1; 0]]; []]%Z) as ->.
    { change (d !! "f0") with (Some (py_seqs [[[1; 0]]; []]%Z)) in Hw0.
      by injection Hw0. }
    exists ValueError. vm_compute. reflexivity. }
  destruct (pad_graph_half_padded 2 0 _ d 2 2 _ _ _ _ Hr L0 P0 L1 P1 Hf0)
    as [e He].
  eexists e, _. split; [exact He|]. split; reflexivity.
Defined.

Lemma pad_graph_fails_untouched_witness :
  ∃ e, pad_graph 2 (PRef 0) 2 2 (<[0 := <["si0" := PInt 3]> ∅]> ∅)
       = (Raise e, <[0 := <["si0" := PInt 3]> ∅]> ∅).
Proof.
  apply (pad_graph_fails_untouched 2 (PRef 0) _ 2 2).
  intros r d v [= <-] Hr Hv.
  assert (Some (<["si0" := PInt 3]> ∅ : dict) = Some d) as [= <-] by exact Hr.
  assert (Some (PInt 3) = Some v) as [= <-] by exact Hv.
  eexists. vm_compute. reflexivity.
Defined.

(** * Further properties of [sample_pairs] *)

Lemma sample_pairs_body_grows flagsdim gr batch_size s0pad s1pad i (h : heap) :
  h ⊆ (sample_pairs_body flagsdim gr batch_size s0pad s1pad i h).2
  ∧ ∀ ogr, (sample_pairs_body flagsdim gr batch_size s0pad s1pad i h).1 = Ok ogr →
           ∃ r', ogr = PRef r' ∧ h !! r' = None.
Proof.
  unfold sample_pairs_body, mbind', graph_input_slice.
  destruct gr as [| | | | | | |r]; try (cbn; split; [reflexivity|intros ? ?; discriminate]).
  destruct (h !! r) as [d|] eqn:Hr; [|cbn; split; [reflexivity|intros ? ?; discriminate]].
  destruct (slice_dict d _ _) as [d1|e]; [|cbn; split; [reflexivity|intros ? ?; discriminate]].
  unfold new_dict. pose proof (fresh_heap_None h) as Hf.
  set (f := fresh (dom h)) in *.
  destruct (pad_graph_ref flagsdim f (<[f := d1]> h) d1 s0pad s1pad)
    as (d' & _ & -> & _); [apply lookup_insert_eq|].
  rewrite insert_insert_eq.
  destruct (pad_dict flagsdim s0pad s1pad d1) as [d2|e]; cbn.
  - split; [by apply insert_subseteq|]. intros ogr [= <-]. by exists f.
  - split; [by apply insert_subseteq|]. intros ? ?; discriminate.
Qed.

Lemma yield_body_grows {R} flagsdim gr batch_size s0pad s1pad
    ids i todo (rng : R) (h : heap) :
  match yield_body flagsdim gr batch_size s0pad s1pad ids i todo rng h with
  | Yield ogr _ _ h' => h ⊆ h' ∧ ∃ r', ogr = PRef r' ∧ h !! r' = None
  | Raised _ _ h' => h ⊆ h'
  | StopIteration _ h' => h' = h
  | Diverges => True
  end.
Proof.
  unfold yield_body.
  destruct (sample_pairs_body_grows flagsdim gr batch_size s0pad s1pad i h)
    as [Hsub Hfresh].
  destruct (sample_pairs_body _ _ _ _ _ _ h) as [[ogr|e] h']; cbn in *.
  - split; [done|]. by apply Hfresh.
  - done.
Qed.

Lemma first_yield_grows {R} flagsdim gr batch_size s0pad s1pad once
    ids (rng : R) (h : heap) :
  match first_yield flagsdim gr batch_size s0pad s1pad once ids rng h with
  | Yield ogr _ _ h' => h ⊆ h' ∧ ∃ r', ogr = PRef r' ∧ h !! r' = None
  | Raised _ _ h' => h ⊆ h'
  | StopIteration _ h' => h' = h
  | Diverges => True
  end.
Proof.
  destruct ids as [|i todo]; cbn [first_yield].
  - by destruct once.
  - apply yield_body_grows.
Qed.

Lemma enter_pass_grows {R} py (shuffle : R → list nat → list nat * R)
    (shuffle_fails : R → nat → R)
    flagsdim gr batch_size s0pad s1pad once ids (rng : R) (h : heap) :
  match enter_pass flagsdim py shuffle shuffle_fails gr batch_size s0pad s1pad
          once ids rng h with
  | Yield ogr _ _ h' => h ⊆ h' ∧ ∃ r', ogr = PRef r' ∧ h !! r' = None
  | Raised _ _ h' => h ⊆ h'
  | StopIteration _ h' => h' = h
  | Diverges => True
  end.
Proof.
  unfold enter_pass.
  destruct (random_shuffle py shuffle shuffle_fails ids rng) as [[ids'|e] rng'].
  - apply first_yield_grows.
  - done.
Qed.

(** X10.  A call of [next()] never changes a dictionary that exists: the
    dataset and the batches yielded before stay as they are.  A batch
    that is yielded is a new dictionary, and when the generator stops the
    heap is as it was.  This holds on Python 2 and on Python 3. *)
Theorem sample_pairs_next_grows {R} py (shuffle : R → list nat → list nat * R)
    (shuffle_fails : R → nat → R)
    flagsdim gr batch_size s0pad s1pad once st (rng : R) (h : heap) :
  match sample_pairs_next flagsdim py shuffle shuffle_fails gr batch_size
          s0pad s1pad once st rng h with
  | Yield ogr _ _ h' => h ⊆ h' ∧ ∃ r', ogr = PRef r' ∧ h !! r' = None
  | Raised _ _ h' => h ⊆ h'
  | StopIteration _ h' => h' = h
  | Diverges => True
  end.
Proof.
  destruct st as [|ids [|i todo]|]; cbn [sample_pairs_next].
  - assert (∃ res, (do* si0 := py_getitem gr "si0" in
                    do* n := lift (py_len si0) in
                    lift (int_div n batch_size)) h = (res, h)) as [res ->].
    { unfold mbind', py_getitem, lift.
      destruct gr as [| | | | | | |r]; try by eexists.
      destruct (h !! r) as [d|]; [|by eexists].
      destruct (d !! "si0") as [v|]; [|by eexists].
      destruct (py_len v); by eexists. }
    destruct res as [k|e]; [apply enter_pass_grows|done].
  - destruct once; [done|apply enter_pass_grows].
  - apply yield_body_grows.
  - done.
Qed.

Section GeneratorMore.

Context {R : Type}.
Variable py : python.
Variable shuffle : R → list nat → list nat * R.
Variable shuffle_fails : R → nat → R.
Variable flagsdim : nat.
Variables (r : loc) (d : dict) (batch_size : Z) (s0pad s1pad : nat).
Variables (si0 : pyval) (n : nat).

Hypothesis shuffle_perm : ∀ rng ids, (shuffle rng ids).1 ≡ₚ ids.
Hypothesis Hsi0 : d !! "si0" = Some si0.
Hypothesis Hn : py_len si0 = Ok n.

Local Abbreviation next := (sample_pairs_next flagsdim py shuffle shuffle_fails (PRef r) batch_size s0pad s1pad).
Local Abbreviation batches := (take_batches flagsdim py shuffle shuffle_fails (PRef r) batch_size s0pad s1pad).
Local Abbreviation enter := (enter_pass flagsdim py shuffle shuffle_fails (PRef r) batch_size s0pad s1pad).
Local Abbreviation batch := (is_batch flagsdim d batch_size s0pad s1pad).
Local Abbreviation K := (num_blocks n batch_size).

(** X11.  A batch size of 0 is found at the first call of [next()],
    which raises [ZeroDivisionError] before anything is shuffled or
    allocated. *)
Theorem sample_pairs_zero_batch_size once (rng : R) (h : heap) :
  h !! r = Some d → batch_size = 0%Z →
  sample_pairs_next flagsdim py shuffle shuffle_fails (PRef r) batch_size
    s0pad s1pad once GStart rng h
  = Raised ZeroDivisionError rng h.
Proof.
  intros Hr ->. cbn [sample_pairs_next].
  unfold mbind', py_getitem, lift, int_div. by rewrite Hr, Hsi0, Hn.
Qed.

(** X12.  When the dataset has no complete block, because it has fewer
    than [batch_size] samples or [batch_size] is negative, the generator
    with [once=True] stops at once, and with [once=False] the first
    [next()] never returns: [while True] turns without reaching a
    [yield]. *)
Theorem sample_pairs_no_block (rng : R) (h : heap) :
  h !! r = Some d →
  (batch_size < 0 ∨ Z.of_nat n < batch_size)%Z →
  sample_pairs_next flagsdim py shuffle shuffle_fails (PRef r) batch_size
    s0pad s1pad false GStart rng h = Diverges
  ∧ ∃ rng', sample_pairs_next flagsdim py shuffle shuffle_fails (PRef r)
              batch_size s0pad s1pad true GStart rng h
            = StopIteration rng' h.
Proof.
  intros Hr Hsmall.
  assert (py_range (Z.of_nat n ÷ batch_size) = []) as Hids.
  { unfold py_range. replace (Z.to_nat (Z.of_nat n ÷ batch_size)) with 0; [done|].
    destruct Hsmall as [Hneg|Hlt].
    - assert (Z.of_nat n ÷ batch_size ≤ 0)%Z; [|lia].
      rewrite <- (Z.opp_involutive batch_size), Z.quot_opp_r by lia.
      assert (0 ≤ Z.of_nat n ÷ - batch_size)%Z; [|lia].
      apply Z.quot_pos; lia.
    - rewrite Z.quot_small; lia. }
  assert (∀ once, next once GStart rng h = enter once [] rng h) as Hstart.
  { intros once. cbn [sample_pairs_next].
    unfold mbind', py_getitem, lift, int_div. rewrite Hr, Hsi0, Hn.
    destruct (Z.eqb_spec batch_size 0); [lia|]. by rewrite Hids. }
  rewrite !Hstart. unfold enter_pass.
  assert (∃ rng', random_shuffle py shuffle shuffle_fails [] rng
                  = (Ok [], rng')) as [rng' ->].
  { unfold random_shuffle. destruct py; [|by exists rng].
    pose proof (shuffle_perm rng []) as Hp. apply Permutation_nil_r in Hp.
    destruct (shuffle rng []) as [ids rng']. cbn in Hp. subst ids.
    by exists rng'. }
  split; [done|by exists rng'].
Qed.

Hypothesis Hbs : (0 < batch_size)%Z.
Hypothesis Hblocks :
  ∀ i, i < num_blocks n batch_size →
       is_Ok (batch_dict flagsdim d batch_size s0pad s1pad i).
Hypothesis Hacc : shuffle_accepts py (num_blocks n batch_size).






End GeneratorMore.

Lemma sample_pairs_zero_batch_size_witness :
  sample_pairs_next 2 Python3 ex_shuffle (λ u _, u) (PRef 0) 0 3 3 false
    GStart () (<[0 := ex_dataset]> ∅)
  = Raised ZeroDivisionError () (<[0 := ex_dataset]> ∅).
Proof.
  assert ((<[0 := ex_dataset]> ∅ : heap) !! 0 = Some ex_dataset) as Hr
    by reflexivity.
  assert (ex_dataset !! "si0"
          = Some (py_seq [[1; 2; 3]; [4; 5]; [6]; [7; 8]; [9]]%Z)) as Hsi0
    by reflexivity.
  exact (sample_pairs_zero_batch_size Python3 ex_shuffle (λ u _, u) 2 0
           ex_dataset 0 3 3 _ 5 Hsi0 eq_refl false () _ Hr eq_refl).
Defined.

Lemma sample_pairs_no_block_witness :
  sample_pairs_next 2 Python3 ex_shuffle (λ u _, u) (PRef 0) 7 3 3 false
    GStart () (<[0 := ex_dataset]> ∅) = Diverges
  ∧ ∃ rng', sample_pairs_next 2 Python3 ex_shuffle (λ u _, u) (PRef 0) 7 3 3
              true GStart () (<[0 := ex_dataset]> ∅)
            = StopIteration rng' (<[0 := ex_dataset]> ∅).
Proof.
  assert ((<[0 := ex_dataset]> ∅ : heap) !! 0 = Some ex_dataset) as Hr
    by reflexivity.
  assert (ex_dataset !! "si0"
          = Some (py_seq [[1; 2; 3]; [4; 5]; [6]; [7; 8]; [9]]%Z)) as Hsi0
    by reflexivity.
  assert (7 < 0 ∨ Z.of_nat 5 < 7)%Z as Hsmall by (right; lia).
  exact (sample_pairs_no_block Python3 ex_shuffle (λ u _, u) 2 0 ex_dataset
           7 3 3 _ 5 ex_shuffle_perm Hsi0 eq_refl () _ Hr Hsmall).
Defined.



(** * Further properties of [UbuntuTask] *)

(** X14.  [eval] reads the six attributes [gr], [trainf], [grv], [valf],
    [grt] and [testf] before it evaluates any split: when one of them was
    never assigned, as on a task fresh from [task()], it raises
    [AttributeError], and neither the model nor the evaluation is
    called on any split. *)
Theorem eval_missing_attribute (predict : pyval → M pyval)
    (eval_ubuntu : pyval → pyval → pyval → pyval → M pyval)
    (self : dict) (k : string) (h : heap) :
  k ∈ eval_attributes → self !! k = None →
  eval predict eval_ubuntu self h = (Raise AttributeError, h).
Proof.
  intros Hk Hnone. unfold eval, mbind', getattr.
  destruct (self !! "gr") eqn:H1; [|done].
  destruct (self !! "trainf") eqn:H2; [|done].
  destruct (self !! "grv") eqn:H3; [|done].
  destruct (self !! "valf") eqn:H4; [|done].
  destruct (self !! "grt") eqn:H5; [|done].
  destruct (self !! "testf") eqn:H6; [|done].
  unfold eval_attributes in Hk.
  repeat (apply elem_of_cons in Hk as [->|Hk]; [congruence|]).
  by apply elem_of_nil in Hk.
Qed.

Lemma eval_missing_attribute_witness :
  eval ex_predict ex_eval_ubuntu task ∅ = (Raise AttributeError, ∅).
Proof.
  assert ("gr" ∈ eval_attributes) as Hk by (vm_compute; left).
  assert (task !! "gr" = None) as Hnone by reflexivity.
  exact (eval_missing_attribute ex_predict ex_eval_ubuntu task "gr" ∅ Hk Hnone).
Defined.

(** X15.  [load_vocab] followed by [load_set]: the vocabulary that
    [load_vocab] reads from its file and returns is the third element of
    what [load_set] returns afterwards; [load_vocab] allocates nothing. *)
Theorem load_vocab_then_load_set (fs : files) (self self' : dict)
    vocabf fname v out (h h' h'' : heap) :
  load_vocab fs self vocabf h = (Ok (v, self'), h') →
  load_set fs self' fname h' = (Ok out, h'') →
  fs !! vocabf = Some v ∧ h' = h
  ∧ ∃ gr labels, out = PTuple [gr; labels; v].
Proof.
  unfold load_vocab, load_set, mbind', pickle_load, mret', lift.
  destruct (fs !! vocabf) as [v0|]; [|done]. intros [= -> <- <-].
  destruct (fs !! fname) as [t|]; [|done].
  destruct (py_iter t) as [items|]; [|done].
  destruct items as [|si0 [|si1 [|f0 [|f1 [|labels [|]]]]]]; try done.
  unfold graph_input_anssel, new_dict, getattr. rewrite lookup_insert_eq.
  intros [= <- <-]. split; [done|]. split; [done|]. by eexists _, _.
Qed.

(** X16.  [load_set] on a file that is missing raises [IOError], and on
    a pickled sequence that does not have exactly five items it raises
    [ValueError]; in both cases no graph has been allocated. *)
Theorem load_set_bad_file (fs : files) (self : dict) fname (h : heap) :
  (fs !! fname = None → load_set fs self fname h = (Raise IOError, h))
  ∧ (∀ v items, fs !! fname = Some v → py_iter v = Ok items →
                length items ≠ 5 →
                load_set fs self fname h = (Raise ValueError, h)).
Proof.
  unfold load_set, mbind', pickle_load, lift. split.
  - by intros ->.
  - intros v items -> -> Hlen.
    by destruct items as [|si0 [|si1 [|f0 [|f1 [|labels [|]]]]]].
Qed.

Lemma config_Ok r (d : dict) (h : heap) :
  h !! r = Some d → config (PRef r) h = (Ok (), <[r := configured d]> h).
Proof.
  intros Hr. unfold config, mbind', py_setitem. rewrite Hr.
  rewrite !lookup_insert_eq, !insert_insert_eq. reflexivity.
Qed.

Lemma configured_idemp (d : dict) : configured (configured d) = configured d.
Proof.
  unfold configured. apply map_eq. intros k.
  destruct (decide (k = "epoch_fract")) as [->|]; [by rewrite !lookup_insert_eq|].
  destruct (decide (k = "batch_size")) as [->|]; [by simplify_map_eq|].
  destruct (decide (k = "nb_epoch")) as [->|]; [by simplify_map_eq|].
  destruct (decide (k = "loss")) as [->|]; [by simplify_map_eq|].
  by rewrite !lookup_insert_ne by done.
Qed.

(** X17.  [config] writes in place: it overwrites the four settings
    [loss], [nb_epoch], [batch_size] and [epoch_fract] whatever they were,
    keeps every other setting of [c] and every other dictionary, and a
    second call changes nothing. *)
Theorem config_overrides r (d : dict) (h : heap) :
  h !! r = Some d →
  ∃ d', config (PRef r) h = (Ok (), <[r := d']> h)
    ∧ d' !! "loss" = Some (PStr "binary_crossentropy")
    ∧ d' !! "nb_epoch" = Some (PInt 16)
    ∧ d' !! "batch_size" = Some (PInt 192)
    ∧ d' !! "epoch_fract" = Some (PFloat (1 # 4)%Q)
    ∧ (∀ k, k ∉ config_keys → d' !! k = d !! k)
    ∧ config (PRef r) (<[r := d']> h) = (Ok (), <[r := d']> h).
Proof.
  intros Hr. exists (configured d). split; [by apply config_Ok|].
  do 4 (split; [unfold configured; by simplify_map_eq|]). split.
  - intros k Hk. unfold configured, config_keys in *.
    rewrite !lookup_insert_ne; [done|..]; intros <-; apply Hk;
      repeat (by left) || right.
  - rewrite (config_Ok r (configured d)) by apply lookup_insert_eq.
    by rewrite insert_insert_eq, configured_idemp.
Qed.

Lemma config_overrides_witness :
  ∃ d', config (PRef 0) (<[0 := <["batch_size" := PInt 32]> ∅]> ∅)
        = (Ok (), <[0 := d']> (<[0 := <["batch_size" := PInt 32]> ∅]> ∅))
    ∧ d' !! "batch_size" = Some (PInt 192).
Proof.
  assert ((<[0 := <["batch_size" := PInt 32]> ∅]> ∅ : heap) !! 0
          = Some (<["batch_size" := PInt 32]> ∅)) as Hr by reflexivity.
  destruct (config_overrides 0 _ _ Hr) as (d' & Hc & _ & _ & Hb & _).
  exists d'. split; [exact Hc|exact Hb].
Defined.

Lemma load_vocab_then_load_set_witness :
  ∃ gr labels,
    (load_set (<["vocab.pickle" := PList [PStr "ubuntu"]]> ex_files)
       (<["vocab" := PList [PStr "ubuntu"]]> task) "train.pickle" ∅).1
    = Ok (PTuple [gr; labels; PList [PStr "ubuntu"]]).
Proof.
  assert (load_vocab (<["vocab.pickle" := PList [PStr "ubuntu"]]> ex_files)
            task "vocab.pickle" ∅
          = (Ok (PList [PStr "ubuntu"],
                 <["vocab" := PList [PStr "ubuntu"]]> task), ∅)) as H1
    by reflexivity.
  assert (∃ out h'',
            load_set (<["vocab.pickle" := PList [PStr "ubuntu"]]> ex_files)
              (<["vocab" := PList [PStr "ubuntu"]]> task) "train.pickle" ∅
            = (Ok out, h'')) as (out & h'' & H2)
    by (eexists _, _; vm_compute; reflexivity).
  destruct (load_vocab_then_load_set _ _ _ _ _ _ _ _ _ _ H1 H2)
    as (_ & _ & gr & labels & ->).
  exists gr, labels. by rewrite H2.
Defined.

Lemma load_set_bad_file_witness :
  load_set ex_files task "valid.pickle" ∅ = (Raise IOError, ∅)
  ∧ load_set (<["short.pickle" := PTuple [PNone; PNone]]> ex_files) task
      "short.pickle" ∅ = (Raise ValueError, ∅).
Proof.
  split.
  - apply (proj1 (load_set_bad_file ex_files task "valid.pickle" ∅)).
    reflexivity.
  - apply (proj2 (load_set_bad_file
                    (<["short.pickle" := PTuple [PNone; PNone]]> ex_files)
                    task "short.pickle" ∅) (PTuple [PNone; PNone]) [PNone; PNone]).
    + reflexivity.
    + reflexivity.
    + cbn. lia.
Defined.

(** X18.  [fit_model] takes [batch_size] out of the keyword arguments
    and hands [model.fit_generator] the other keyword arguments and a
    generator over the training graph with the pad lengths of the task
    and [once=False].  Where [random.shuffle] accepts the block indices
    (on Python 2, or with a single block), on a training set of at least
    [batch_size] samples that generator yields a batch at every call,
    however many are asked for, and every batch is the padded batch of a
    block of the training set. *)
Theorem fit_model_endless {R} py (shuffle : R → list nat → list nat * R)
    (shuffle_fails : R → nat → R)
    flagsdim (fit_generator : generator → dict → M pyval)
    (self kwargs : dict) r (d : dict) batch_size s0pad s1pad si0 n (h : heap) :
  (∀ rng ids, (shuffle rng ids).1 ≡ₚ ids) →
  shuffle_accepts py (num_blocks n batch_size) →
  kwargs !! "batch_size" = Some (PInt batch_size) →
  self !! "gr" = Some (PRef r) →
  self !! "s0pad" = Some (PInt s0pad) → self !! "s1pad" = Some (PInt s1pad) →
  (0 ≤ s0pad)%Z → (0 ≤ s1pad)%Z →
  h !! r = Some d → d !! "si0" = Some si0 → py_len si0 = Ok n →
  (0 < batch_size)%Z → (batch_size ≤ Z.of_nat n)%Z →
  (∀ i, i < num_blocks n batch_size →
        is_Ok (batch_dict flagsdim d batch_size
                 (Z.to_nat s0pad) (Z.to_nat s1pad) i)) →
  ∃ g,
    fit_model fit_generator self kwargs h
    = fit_generator g (delete "batch_size" kwargs) h
    ∧ generator_next flagsdim py shuffle shuffle_fails g
      = Some (sample_pairs_next flagsdim py shuffle shuffle_fails (PRef r)
                batch_size (Z.to_nat s0pad) (Z.to_nat s1pad) false)
    ∧ ∀ k (rng : R), ∃ ids bs st rng' h',
        take_batches flagsdim py shuffle shuffle_fails (PRef r) batch_size
          (Z.to_nat s0pad) (Z.to_nat s1pad) false k GStart rng h
        = Some (bs, st, rng', h')
        ∧ length bs = k
        ∧ Forall (λ i, i < num_blocks n batch_size) ids
        ∧ Forall2 (is_batch flagsdim d batch_size
                     (Z.to_nat s0pad) (Z.to_nat s1pad) h') ids bs.
Proof.
  intros Hperm Hacc Hkw Hgr Hs0 Hs1 H0 H1 Hr Hsi0 Hn Hbs Hle Hblocks.
  exists (Generator (PRef r) (PInt batch_size) (PInt s0pad) (PInt s1pad) false).
  split; [|split].
  - unfold fit_model, mbind', getattr. by rewrite Hkw, Hgr, Hs0, Hs1.
  - unfold generator_next. cbn.
    by rewrite (proj2 (Z.leb_le 0 s0pad) H0), (proj2 (Z.leb_le 0 s1pad) H1).
  - intros k rng.
    destruct (endless_batches py shuffle shuffle_fails flagsdim r d batch_size
                _ _ si0 n Hperm Hsi0 Hn Hbs Hblocks k GStart rng h)
      as (ids & bs & st & rng' & h' & Hrun & _ & Hlt & Hb);
      [done| |done|by left|].
    { unfold num_blocks.
      assert (0 < Z.of_nat n / batch_size)%Z by (apply Z.div_str_pos; lia).
      lia. }
    exists ids, bs, st, rng', h'. split; [done|]. split; [|by split].
    by eapply length_take_batches.
Qed.

Lemma ex_dataset_blocks_160 i :
  i < num_blocks 5 2 →
  is_Ok (batch_dict 2 ex_dataset 2 (Z.to_nat 160) (Z.to_nat 160) i).
Proof.
  intros Hi. change (num_blocks 5 2) with 2 in Hi.
  destruct i as [|[|i]]; [| |exfalso; lia]; eexists; vm_compute; reflexivity.
Defined.

Lemma fit_model_endless_witness :
  ∃ g, fit_model (λ _ _, mret' PNone) (<["gr" := PRef 0]> task)
         (<["batch_size" := PInt 2]> (<["nb_epoch" := PInt 16]> ∅))
         (<[0 := ex_dataset]> ∅)
       = (Ok PNone, <[0 := ex_dataset]> ∅)
    ∧ gen_once g = false
    ∧ ∃ bs st h',
        take_batches 2 Python2 ex_shuffle (λ u _, u) (PRef 0) 2 160 160 false 5
          GStart () (<[0 := ex_dataset]> ∅) = Some (bs, st, (), h')
        ∧ length bs = 5.
Proof.
  assert ((<["batch_size" := PInt 2]> (<["nb_epoch" := PInt 16]> ∅) : dict)
            !! "batch_size" = Some (PInt 2)) as Hkw by reflexivity.
  assert ((<["gr" := PRef 0]> task : dict) !! "gr" = Some (PRef 0)) as Hgr
    by reflexivity.
  assert ((<["gr" := PRef 0]> task : dict) !! "s0pad" = Some (PInt 160)) as Hs0
    by reflexivity.
  assert ((<["gr" := PRef 0]> task : dict) !! "s1pad" = Some (PInt 160)) as Hs1
    by reflexivity.
  assert ((<[0 := ex_dataset]> ∅ : heap) !! 0 = Some ex_dataset) as Hr
    by reflexivity.
  assert (ex_dataset !! "si0"
          = Some (py_seq [[1; 2; 3]; [4; 5]; [6]; [7; 8]; [9]]%Z)) as Hsi0
    by reflexivity.
  assert (0 ≤ 160)%Z as H0 by lia.
  assert (0 < 2)%Z as Hbs by lia.
  assert (2 ≤ Z.of_nat 5)%Z as Hle by lia.
  assert (shuffle_accepts Python2 (num_blocks 5 2)) as Hacc by (by left).
  destruct (fit_model_endless Python2 ex_shuffle (λ u _, u) 2
              (λ _ _, mret' PNone)
              (<["gr" := PRef 0]> task) _ 0 ex_dataset 2 160 160 _ 5 _
              ex_shuffle_perm Hacc Hkw Hgr Hs0 Hs1 H0 H0 Hr Hsi0 eq_refl
              Hbs Hle ex_dataset_blocks_160) as (g & Hfit & Hnext & Hrun).
  exists (Generator (PRef 0) (PInt 2) (PInt 160) (PInt 160) false).
  split; [reflexivity|]. split; [reflexivity|].
  destruct (Hrun 5 ()) as (ids & bs & st & [] & h' & Hb & Hlen & _).
  exists bs, st, h'. split; [exact Hb|exact Hlen].
Defined.

(** X21.  An unset split costs nothing and gives [None]: in the tuple
    that [eval] returns, the entry of every split whose graph is [None]
    is [None]; and when all three graphs are [None], [eval] returns
    [(None, None, None)] without calling the model or the metrics and
    without touching the heap. *)
Theorem eval_unset_entries (predict : pyval → M pyval)
    (eval_ubuntu : pyval → pyval → pyval → pyval → M pyval)
    (self : dict) gr trainf grv valf grt testf (h : heap) :
  self !! "gr" = Some gr → self !! "trainf" = Some trainf →
  self !! "grv" = Some grv → self !! "valf" = Some valf →
  self !! "grt" = Some grt → self !! "testf" = Some testf →
  (∀ out h', eval predict eval_ubuntu self h = (Ok out, h') →
     ∃ r0 r1 r2, out = PTuple [r0; r1; r2]
       ∧ (gr = PNone → r0 = PNone) ∧ (grv = PNone → r1 = PNone)
       ∧ (grt = PNone → r2 = PNone))
  ∧ (gr = PNone → grv = PNone → grt = PNone →
     eval predict eval_ubuntu self h = (Ok (PTuple [PNone; PNone; PNone]), h)).
Proof.
  intros Hgr Htf Hgrv Hvf Hgrt Htestf.
  assert (∀ f h0 x h1,
            eval_split predict eval_ubuntu PNone f h0 = (Ok x, h1) → x = PNone)
    as Hnone.
  { intros f h0 x h1. cbn. by intros [= <- _]. }
  split.
  - intros out h'. unfold eval, mbind' at 1 2 3 4 5 6, getattr.
    rewrite Hgr, Htf, Hgrv, Hvf, Hgrt, Htestf. unfold mbind'.
    destruct (eval_split _ _ gr trainf h) as [[r0|?] h1] eqn:E0; [|done].
    destruct (eval_split _ _ grv valf h1) as [[r1|?] h2] eqn:E1; [|done].
    destruct (eval_split _ _ grt testf h2) as [[r2|?] h3] eqn:E2; [|done].
    intros [= <- <-]. exists r0, r1, r2. split; [done|].
    split; [|split]; intros ->; by eapply Hnone.
  - intros -> -> ->. unfold eval, mbind', getattr.
    by rewrite Hgr, Htf, Hgrv, Hvf, Hgrt, Htestf.
Qed.

Lemma eval_unset_entries_witness :
  eval ex_predict ex_eval_ubuntu
    (<["gr" := PNone]> (<["trainf" := PNone]> (<["grv" := PNone]>
      (<["valf" := PNone]> (<["grt" := PNone]> (<["testf" := PNone]> task))))))
    ∅
  = (Ok (PTuple [PNone; PNone; PNone]), ∅).
Proof.
  set (self := <["gr" := PNone]> (<["trainf" := PNone]> (<["grv" := PNone]>
      (<["valf" := PNone]> (<["grt" := PNone]> (<["testf" := PNone]> task)))))).
  assert (self !! "gr" = Some PNone) as Hgr by reflexivity.
  assert (self !! "trainf" = Some PNone) as Htf by reflexivity.
  assert (self !! "grv" = Some PNone) as Hgrv by reflexivity.
  assert (self !! "valf" = Some PNone) as Hvf by reflexivity.
  assert (self !! "grt" = Some PNone) as Hgrt by reflexivity.
  assert (self !! "testf" = Some PNone) as Htestf by reflexivity.
  exact (proj2 (eval_unset_entries ex_predict ex_eval_ubuntu self
                  PNone PNone PNone PNone PNone PNone ∅
                  Hgr Htf Hgrv Hvf Hgrt Htestf) eq_refl eq_refl eq_refl).
Defined.

(** The metrics are looked up without writing to the heap. *)
Lemma readonly_bind {A B} (m : M A) (k : A → M B) :
  readonly m → (∀ a, readonly (k a)) → readonly (mbind' m k).
Proof.
  intros Hm Hk h. unfold mbind'. specialize (Hm h).
  destruct (m h) as [[a|e] h']; cbn in *; subst; [apply Hk|done].
Qed.

Lemma readonly_getattr self k : readonly (getattr self k).
Proof. intros h. unfold getattr. by destruct (self !! k). Qed.

Lemma readonly_py_getitem v k : readonly (py_getitem v k).
Proof.
  intros h. unfold py_getitem. destruct v; try done.
  destruct (h !! _) as [d|]; [|done]. by destruct (d !! k).
Qed.

Lemma readonly_py_subscript v k : readonly (py_subscript v k).
Proof.
  intros h. unfold py_subscript.
  destruct v as [| | | | | |a|]; destruct k; try done;
    try apply readonly_py_getitem.
  by destruct (nd_shape a).
Qed.

Lemma readonly_py_get v k dflt : readonly (py_get v k dflt).
Proof.
  intros h. unfold py_get. destruct v; try done. by destruct (h !! _).
Qed.

Lemma readonly_metric self mres split key :
  readonly (metric self mres split key).
Proof.
  unfold metric. apply readonly_bind; [apply readonly_getattr|intros fname].
  apply readonly_bind; intros; apply readonly_py_subscript.
Qed.

Lemma readonly_metric_or_nan np_nan self mres split key :
  readonly (metric_or_nan np_nan self mres split key).
Proof.
  unfold metric_or_nan. apply readonly_bind; [apply readonly_getattr|intros fname].
  apply readonly_bind; [apply readonly_py_subscript|intros; apply readonly_py_get].
Qed.

Lemma bind_raises {A B} (m : M A) (k : A → M B) :
  readonly m → (∀ a h, ∃ e, k a h = (Raise e, h)) →
  ∀ h, ∃ e, mbind' m k h = (Raise e, h).
Proof.
  intros Hm Hk h. unfold mbind'. specialize (Hm h).
  destruct (m h) as [[a|e] h']; cbn in *; subst; [apply Hk|by exists e].
Qed.

(** An argument that is left over is an error of the format operator. *)
Lemma py_format_leftover py format_f6 fmt args :
  conversions fmt < length args →
  ∃ e, py_format py format_f6 fmt args = Raise e.
Proof.
  revert args. induction fmt as [|p fmt IH]; intros args Hlt.
  - destruct args; [cbn in Hlt; lia|by eexists].
  - destruct p as [s| |]; cbn [py_format conversions] in *.
    + destruct (IH args Hlt) as [e ->]. by eexists.
    + destruct args as [|v args]; [cbn in Hlt; lia|].
      destruct (format_c py v); [|by eexists].
      destruct (IH args) as [e ->]; [cbn in Hlt; lia|]. by eexists.
    + destruct args as [|v args]; [cbn in Hlt; lia|].
      destruct (format_f6 v); [|by eexists].
      destruct (IH args) as [e ->]; [cbn in Hlt; lia|]. by eexists.
Qed.

(** X19.  [res_columns] never returns a string: its format has seven
    pairs of conversions and its argument tuple eight pairs of values, so
    when every lookup in [mres] succeeds the format operator raises for
    the arguments left over; an earlier failure raises as well.  The heap
    is left as it was. *)
Theorem res_columns_never_returns (py : python)
    (format_f6 : pyval → result string)
    (np_nan : pyval) (self : dict) (mres pfx : pyval) (h : heap) :
  ∃ e, res_columns py format_f6 np_nan self mres pfx h = (Raise e, h).
Proof.
  revert h. unfold res_columns.
  do 5 (apply bind_raises; [apply readonly_metric|intros ?]).
  do 3 (apply bind_raises; [apply readonly_metric_or_nan|intros ?]).
  intros h. unfold lift.
  edestruct (py_format_leftover py format_f6 res_columns_format) as [e ->];
    [|by exists e].
  cbn. lia.
Qed.
